(** * TriPhotos: [organize_photos.py]

    A shallow embedding of the [PhotoOrganizer] class of
    [src/organize_photos.py] and the proofs of its specified properties.

    Conventions of the embedding.
    - A Python [str] is a Rocq [string]; its characters are the code points
      below 256.  On these, the regular-expression class [\d] is exactly
      ['0'..'9'] and [\s] is the twelve characters listed in [is_space].
    - A Python exception caught by the code is a [None] result of the model;
      an exception that escapes a method is the [Raise] outcome of the
      monad [M].
    - A Python [float] is an IEEE 754 binary64 number, with the signed
      zeros, the infinities, a NaN and rounding to nearest ([SpecFloat] of
      the Standard Library).
    - The file system, the clock, the console and the geocoding service are
      the fields of [World] and [Env]. *)

From Stdlib Require Import Ascii String ZArith SpecFloat Lia.
From stdpp Require Import base decidable option list strings pretty gmap.

Open Scope string_scope.
Open Scope list_scope.
Open Scope Z_scope.

(** ** Characters and integers *)

Definition code (c : ascii) : N := N_of_ascii c.

(** [\d] on code points below 256. *)
Definition is_digit (c : ascii) : bool :=
  ((48 <=? code c) && (code c <=? 57))%N.

(** [\s] of a [str] pattern: [str.isspace] on code points below 256. *)
Definition is_space (c : ascii) : bool :=
  (((9 <=? code c) && (code c <=? 13)) || ((28 <=? code c) && (code c <=? 32))
   || (code c =? 133) || (code c =? 160))%N.

Definition is_char (a c : ascii) : bool := (code a =? code c)%N.

Definition digit_value (c : ascii) : Z := Z.of_N (code c) - 48.

(** Value of a non-empty run of decimal digits, most significant first. *)
Fixpoint digits_value (acc : Z) (s : string) : option Z :=
  match s with
  | EmptyString => Some acc
  | String c s' =>
      if is_digit c then digits_value (10 * acc + digit_value c) s' else None
  end.

(** [s[n:]] *)
Fixpoint skip (n : nat) (s : string) : string :=
  match n, s with
  | O, _ => s
  | S n', String _ s' => skip n' s'
  | S _, EmptyString => EmptyString
  end.

(** [s[:n]] *)
Fixpoint take_str (n : nat) (s : string) : string :=
  match n, s with
  | S n', String c s' => String c (take_str n' s')
  | _, _ => EmptyString
  end.

(** [s[a:b]] for [0 <= a], [0 <= b]. *)
Definition slice (a b : nat) (s : string) : string :=
  take_str (b - a) (skip a s).

Fixpoint lstrip (s : string) : string :=
  match s with
  | String c s' => if is_space c then lstrip s' else s
  | EmptyString => EmptyString
  end.

Fixpoint rstrip (s : string) : string :=
  match s with
  | EmptyString => EmptyString
  | String c s' =>
      match rstrip s' with
      | EmptyString => if is_space c then EmptyString else String c EmptyString
      | t => String c t
      end
  end.

(** [int(s)] for a [str]: surrounding white space is dropped, then an
    optional sign and a non-empty run of digits; anything else raises
    [ValueError] ([None]).  Digit grouping with underscores is not
    modelled: no text the program passes to [int] contains one. *)
Definition py_int (s : string) : option Z :=
  match rstrip (lstrip s) with
  | EmptyString => None
  | String "-" (String c r) => Z.opp <$> digits_value 0 (String c r)
  | String "+" (String c r) => digits_value 0 (String c r)
  | t => digits_value 0 t
  end.

(** [str.lower] on the letters [A-Z]; no other code point below 256 has an
    ASCII lower case, so membership in [photo_extensions] is the same. *)
Definition lower_char (c : ascii) : ascii :=
  if ((65 <=? code c) && (code c <=? 90))%N
  then ascii_of_N (code c + 32) else c.

Fixpoint lower (s : string) : string :=
  match s with
  | EmptyString => EmptyString
  | String c s' => String (lower_char c) (lower s')
  end.

(** ** Regular expressions ([re])

    The fragment of [re] syntax the program and [datetime.strptime] use,
    with the backtracking semantics of the [re] module: alternatives are
    tried left to right, [?] and [+] are greedy, and the first way to match
    the whole pattern is the match. *)

Inductive regex : Type :=
  | REps
  | RClass (cls : ascii → bool)
  | RSeq (r1 r2 : regex)
  | RAlt (r1 r2 : regex)
  | ROpt (r : regex)
  | RPlus (cls : ascii → bool)
  | RGroup (r : regex).

Fixpoint rrep (n : nat) (r : regex) : regex :=
  match n with
  | O => REps
  | S n' => RSeq r (rrep n' r)
  end.

Fixpoint rseq (rs : list regex) : regex :=
  match rs with
  | [] => REps
  | r :: rs' => RSeq r (rseq rs')
  end.

Fixpoint ralt (r : regex) (rs : list regex) : regex :=
  match rs with
  | [] => r
  | r' :: rs' => RAlt r (ralt r' rs')
  end.

Definition RLit (c : ascii) : regex := RClass (is_char c).

(** [cls+], greedy: as many characters as possible, giving one back at a
    time while the continuation fails. *)
Fixpoint plus_class {A} (cls : ascii → bool) (s : string) (pos : nat)
    (k : string → nat → option A) : option A :=
  match s with
  | String c s' =>
      if cls c then
        match plus_class cls s' (S pos) k with
        | Some x => Some x
        | None => k s' (S pos)
        end
      else None
  | EmptyString => None
  end.

(** [rmatch r s pos caps k]: match [r] at the start of [s], which is at
    index [pos] of the text, then continue with [k] on what is left.
    [caps] are the spans (start, end) of the groups closed so far; the
    patterns here have no nested group, so this is the group numbering of
    [re]. *)
Fixpoint rmatch {A} (r : regex) (s : string) (pos : nat)
    (caps : list (nat * nat))
    (k : string → nat → list (nat * nat) → option A) : option A :=
  match r with
  | REps => k s pos caps
  | RClass cls =>
      match s with
      | String c s' => if cls c then k s' (S pos) caps else None
      | EmptyString => None
      end
  | RSeq r1 r2 =>
      rmatch r1 s pos caps (λ s' pos' caps', rmatch r2 s' pos' caps' k)
  | RAlt r1 r2 =>
      match rmatch r1 s pos caps k with
      | Some x => Some x
      | None => rmatch r2 s pos caps k
      end
  | ROpt r1 =>
      match rmatch r1 s pos caps k with
      | Some x => Some x
      | None => k s pos caps
      end
  | RPlus cls => plus_class cls s pos (λ s' pos', k s' pos' caps)
  | RGroup r1 =>
      rmatch r1 s pos caps (λ s' pos' caps', k s' pos' (caps' ++ [(pos, pos')]))
  end.

(** A match object: the text from the start of the match on, the spans
    of the groups in it, and what is left after the match. *)
Record re_match_obj := ReMatch {
  matched_from : string;
  spans : list (nat * nat);
  rest_after : string
}.

(** [m.groups()] *)
Definition groups (m : re_match_obj) : list string :=
  (λ sp, slice sp.1 sp.2 (matched_from m)) <$> spans m.

(** [re.match]: anchored at the start. *)
Definition re_match (r : regex) (s : string) : option re_match_obj :=
  rmatch r s 0%nat [] (λ rest _ caps, Some (ReMatch s caps rest)).

(** [re.search]: the match at the leftmost position that has one. *)
Fixpoint re_search (r : regex) (s : string) : option re_match_obj :=
  match re_match r s with
  | Some m => Some m
  | None =>
      match s with
      | String _ s' => re_search r s'
      | EmptyString => None
      end
  end.

(** ** [datetime] *)

Record datetime := DateTime {
  year : Z; month : Z; day : Z; hour : Z; minute : Z; second : Z
}.

Definition is_leap (y : Z) : bool :=
  (y mod 4 =? 0) && (negb (y mod 100 =? 0) || (y mod 400 =? 0)).

Definition days_in_month (y m : Z) : Z :=
  if m =? 2 then (if is_leap y then 29 else 28)
  else if (m =? 4) || (m =? 6) || (m =? 9) || (m =? 11) then 30
  else 31.

(** The range checks of the [datetime] constructor. *)
Definition valid_date (y m d : Z) : bool :=
  (1 <=? y) && (y <=? 9999) && (1 <=? m) && (m <=? 12)
  && (1 <=? d) && (d <=? days_in_month y m).

Definition valid_time (h mi s : Z) : bool :=
  (0 <=? h) && (h <=? 23) && (0 <=? mi) && (mi <=? 59)
  && (0 <=? s) && (s <=? 59).

(** [datetime(y, m, d, h, mi, s)]; [None] is [ValueError]. *)
Definition datetime_new (y m d h mi s : Z) : option datetime :=
  if valid_date y m d && valid_time h mi s
  then Some (DateTime y m d h mi s) else None.

(** ** [get_date_from_filename] *)

Definition digit : regex := RClass is_digit.
Definition sep : regex := RClass (λ c, is_char "-" c || is_char "_" c).

(** [(\d{4})[-_]?(\d{2})[-_]?(\d{2})] *)
Definition pattern_ymd : regex :=
  rseq [RGroup (rrep 4 digit); ROpt sep; RGroup (rrep 2 digit); ROpt sep;
        RGroup (rrep 2 digit)].

(** [(\d{8})] *)
Definition pattern_8 : regex := RGroup (rrep 8 digit).

Definition patterns : list regex := [pattern_ymd; pattern_8].

(** The body of the [try]: the three texts, then the [datetime]. *)
Definition date_of_match (m : re_match_obj) : option datetime :=
  '(y, mo, d) ←
    (if (length (groups m) =? 3)%nat then
       match groups m with
       | [y; mo; d] => Some (y, mo, d)
       | _ => None
       end
     else
       date_str ← groups m !! 0%nat;
       Some (take_str 4 date_str, slice 4 6 date_str, slice 6 8 date_str));
  yi ← py_int y; mi ← py_int mo; di ← py_int d;
  datetime_new yi mi di 0 0 0.

(** The [for] loop over the patterns: a pattern without a match, or whose
    leftmost match does not give a date, passes to the next pattern. *)
Fixpoint date_from_patterns (ps : list regex) (filename : string)
    : option datetime :=
  match ps with
  | [] => None
  | pattern :: ps' =>
      match re_search pattern filename with
      | Some m =>
          match date_of_match m with
          | Some d => Some d
          | None => date_from_patterns ps' filename
          end
      | None => date_from_patterns ps' filename
      end
  end.

Definition get_date_from_filename (filename : string) : option datetime :=
  date_from_patterns patterns filename.

(** ** [datetime.strptime(text, '%Y:%m:%d %H:%M:%S')]

    [_strptime] turns the format into a regular expression, one named group
    per directive and [\s+] for the blank, matches it at the start of the
    text, refuses text left over, converts the groups with [int] and builds
    the [datetime]. *)

Definition in_range (a b : ascii) : regex :=
  RClass (λ c, (code a <=? code c) && (code c <=? code b))%N.

(** [%Y]: [\d\d\d\d] *)
Definition directive_Y : regex := RGroup (rrep 4 digit).
(** [%m]: [1[0-2]|0[1-9]|[1-9]] *)
Definition directive_m : regex :=
  RGroup (ralt (RSeq (RLit "1") (in_range "0" "2"))
               [RSeq (RLit "0") (in_range "1" "9"); in_range "1" "9"]).
(** [%d]: [3[0-1]|[1-2]\d|0[1-9]|[1-9]| [1-9]] *)
Definition directive_d : regex :=
  RGroup (ralt (RSeq (RLit "3") (in_range "0" "1"))
               [RSeq (in_range "1" "2") digit;
                RSeq (RLit "0") (in_range "1" "9");
                in_range "1" "9";
                RSeq (RLit " ") (in_range "1" "9")]).
(** [%H]: [2[0-3]|[0-1]\d|\d] *)
Definition directive_H : regex :=
  RGroup (ralt (RSeq (RLit "2") (in_range "0" "3"))
               [RSeq (in_range "0" "1") digit; digit]).
(** [%M]: [[0-5]\d|\d] *)
Definition directive_M : regex :=
  RGroup (ralt (RSeq (in_range "0" "5") digit) [digit]).
(** [%S]: [6[0-1]|[0-5]\d|\d] *)
Definition directive_S : regex :=
  RGroup (ralt (RSeq (RLit "6") (in_range "0" "1"))
               [RSeq (in_range "0" "5") digit; digit]).

Definition exif_format : regex :=
  rseq [directive_Y; RLit ":"; directive_m; RLit ":"; directive_d;
        RPlus is_space;
        directive_H; RLit ":"; directive_M; RLit ":"; directive_S].

(** [None] is the [ValueError] of a text that does not match, of text left
    over ([found.end()] is not the length of the text) or of a field out of
    range. *)
Definition strptime (text : string) : option datetime :=
  found ← re_match exif_format text;
  if negb (rest_after found =? "")%string then None else
  match groups found with
  | [gY; gm; gd; gH; gM; gS] =>
      y ← py_int gY; mo ← py_int gm; dd ← py_int gd;
      h ← py_int gH; mi ← py_int gM; ss ← py_int gS;
      datetime_new y mo dd h mi ss
  | _ => None
  end.

Definition pad2 (n : Z) : string :=
  if n <? 10 then "0" +:+ pretty n else pretty n.

(** [strftime('%Y-%m-%d')], with the C library's [%Y] (glibc: the year in
    decimal, without padding) and two-digit month and day. *)
Definition strftime (d : datetime) : string :=
  pretty (year d) +:+ "-" +:+ pad2 (month d) +:+ "-" +:+ pad2 (day d).

(** ** [float]

    A [float] is an IEEE 754 binary64 number: a signed zero, a signed
    infinity, a NaN, or a finite number [(-1)^s * m * 2^e].  Sums and
    quotients round to nearest, ties to even; they never raise (the one
    division of the program is by a constant). *)

Abbreviation float := spec_float.

(** [x + y] *)
Definition float_add (x y : float) : float := SFadd 53 1024 x y.
(** [x / y] for [y] not zero *)
Definition float_div (x y : float) : float := SFdiv 53 1024 x y.
(** [-x] *)
Definition float_neg (x : float) : float := SFopp x.

Definition float_is_zero (x : float) : bool :=
  match x with
  | S754_zero _ => true
  | _ => false
  end.

(** The nearest [float] to [sign * m * 10^k], as [_Py_dg_strtod] and the
    division of two [int]s compute it: an integer is rounded directly, a
    quotient of two integers is rounded once. *)
Definition Z_as_float (n : Z) : float :=
  match n with
  | Z0 => S754_zero false
  | Zpos p => S754_finite false p 0
  | Zneg p => S754_finite true p 0
  end.

(** [n / d] for two [int]s, [d] not zero; [None] is [OverflowError]. *)
Definition int_true_divide (n d : Z) : option float :=
  match SFdiv 53 1024 (Z_as_float n) (Z_as_float d) with
  | S754_infinity _ => None
  | x => Some x
  end.

(** [float(n)] for an [int]; [None] is [OverflowError]. *)
Definition float_of_int (n : Z) : option float :=
  match binary_normalize 53 1024 n 0 false with
  | S754_infinity _ => None
  | x => Some x
  end.

(** [60.0] and [3600.0] *)
Definition float_60 : float := S754_finite false 8444249301319680 (-47).
Definition float_3600 : float := S754_finite false 7916483719987200 (-41).

(** *** [float(text)]

    [float] replaces the blanks above code point 127 by a space, drops the
    blanks at both ends, checks and removes the underscores between
    digits, and reads a decimal number with [_Py_dg_strtod], or else one
    of [inf], [infinity] and [nan] in any case; the whole text must be
    read.  [None] is [ValueError]. *)

(** The blanks [float] drops: the ASCII ones and, below 256, the two
    other code points of [str.isspace] that are not ASCII. *)
Definition float_blank (c : ascii) : bool :=
  (((9 <=? code c) && (code c <=? 13)) || (code c =? 32)
   || (code c =? 133) || (code c =? 160))%N.

Fixpoint float_lstrip (s : string) : string :=
  match s with
  | String c s' => if float_blank c then float_lstrip s' else s
  | EmptyString => EmptyString
  end.

Fixpoint float_rstrip (s : string) : string :=
  match s with
  | EmptyString => EmptyString
  | String c s' =>
      match float_rstrip s' with
      | EmptyString =>
          if float_blank c then EmptyString else String c EmptyString
      | t => String c t
      end
  end.

(** An underscore is allowed after a digit and before a digit only;
    [prev] is the character before [s]. *)
Fixpoint remove_underscores (prev : option ascii) (s : string)
    : option string :=
  match s with
  | EmptyString =>
      if from_option (is_char "_") false prev then None else Some EmptyString
  | String c s' =>
      if is_char "_" c then
        if from_option is_digit false prev
        then remove_underscores (Some c) s' else None
      else if from_option (is_char "_") false prev && negb (is_digit c)
      then None
      else String c <$> remove_underscores (Some c) s'
  end.

(** The digits at the start of a text, and what follows them. *)
Fixpoint span_digits (s : string) : string * string :=
  match s with
  | String c s' =>
      if is_digit c
      then let '(ds, rest) := span_digits s' in (String c ds, rest)
      else (EmptyString, s)
  | EmptyString => (EmptyString, EmptyString)
  end.

(** An optional sign: whether it is [-], and what follows it. *)
Definition split_sign (s : string) : bool * string :=
  match s with
  | String c s' =>
      if is_char "-" c then (true, s')
      else if is_char "+" c then (false, s') else (false, s)
  | EmptyString => (false, s)
  end.

(** The exponent part [e], [E] with an optional sign and digits, when the
    text is one; a text that is not is left unread by [strtod]. *)
Definition read_exponent (s : string) : option Z :=
  match s with
  | EmptyString => Some 0
  | String c s' =>
      if is_char "e" c || is_char "E" c then
        let '(negative, s'') := split_sign s' in
        match s'' with
        | EmptyString => None
        | _ => (λ e, if negative then - e else e) <$> digits_value 0 s''
        end
      else None
  end.

(** [(-1)^negative * m * 10^k], rounded; too large a number is an
    infinity. *)
Definition decimal_float (negative : bool) (m k : Z) : float :=
  let m := if negative then - m else m in
  if m =? 0 then S754_zero negative
  else if 0 <=? k then binary_normalize 53 1024 (m * 10 ^ k) 0 false
  else SFdiv 53 1024 (Z_as_float m) (Z_as_float (10 ^ (- k))).

(** A decimal number: digits with an optional point, one digit at least,
    and an optional exponent. *)
Definition read_decimal (s : string) : option float :=
  let '(negative, s1) := split_sign s in
  let '(int_part, s2) := span_digits s1 in
  let '(frac_part, s3) :=
    match s2 with
    | String c s2' =>
        if is_char "." c then span_digits s2' else (EmptyString, s2)
    | EmptyString => (EmptyString, s2)
    end in
  match int_part +:+ frac_part with
  | EmptyString => None
  | digits =>
      m ← digits_value 0 digits;
      e ← read_exponent s3;
      Some (decimal_float negative m (e - Z.of_nat (String.length frac_part)))
  end.

Definition read_inf_or_nan (s : string) : option float :=
  let '(negative, s1) := split_sign s in
  let name := lower s1 in
  if (name =? "inf")%string || (name =? "infinity")%string
  then Some (S754_infinity negative)
  else if (name =? "nan")%string then Some S754_nan else None.

Definition float_of_str (s : string) : option float :=
  text ← remove_underscores None (float_rstrip (float_lstrip s));
  match read_decimal text with
  | Some x => Some x
  | None => read_inf_or_nan text
  end.

(** ** Python values found in EXIF data *)

Inductive pykey : Type :=
  | KInt (n : Z)
  | KStr (s : string).

Global Instance pykey_eq_dec : EqDecision pykey.
Proof. solve_decision. Defined.

Global Instance pykey_countable : Countable pykey.
Proof.
  refine (inj_countable'
            (λ k, match k with KInt n => inl n | KStr s => inr s end)
            (λ x, match x with inl n => KInt n | inr s => KStr s end) _).
  by intros [].
Defined.

(** [None], an [int], a [float], a rational of an image file (the
    [IFDRational] of PIL, numerator and denominator), a [str], a tuple and
    a [dict] (its items in iteration order). *)
#[local] Unset Elimination Schemes.
Inductive pyval : Type :=
  | PNone
  | PInt (n : Z)
  | PFloat (x : float)
  | PRational (n d : Z)
  | PStr (s : string)
  | PTuple (items : list pyval)
  | PDict (entries : list (pykey * pyval)).
#[local] Set Elimination Schemes.

Definition pyval_of_key (k : pykey) : pyval :=
  match k with
  | KInt n => PInt n
  | KStr s => PStr s
  end.

(** [bool(v)] *)
Definition py_truthy (v : pyval) : bool :=
  match v with
  | PNone => false
  | PInt n => negb (n =? 0)
  | PFloat x => negb (float_is_zero x)
  | PRational n d => (d =? 0) || negb (n =? 0)
  | PStr s => negb (s =? "")%string
  | PTuple items => negb (length items =? 0)%nat
  | PDict entries => negb (length entries =? 0)%nat
  end.

(** [v == s] for a [str] [s]. *)
Definition py_eq_str (v : pyval) (s : string) : bool :=
  match v with
  | PStr t => (t =? s)%string
  | _ => false
  end.

(** [str(v)] where the program parses it as a date.  The text of a [str]
    is itself.  The text of a number has no [':'], that of a tuple starts
    with ['('], that of a [dict] with ['{'] and that of [None] is ['None']:
    none of them matches the EXIF date format, and their exact text is not
    modelled ([None]). *)
Definition py_str (v : pyval) : option string :=
  match v with
  | PStr s => Some s
  | _ => None
  end.

(** [iter(v)]: the elements of a tuple, the one-character strings of a
    [str], the keys of a [dict]; [None] is [TypeError]. *)
Definition py_iter (v : pyval) : option (list pyval) :=
  match v with
  | PTuple items => Some items
  | PStr s => Some ((λ c, PStr (String c "")) <$> list_ascii_of_string s)
  | PDict entries => Some ((λ e, pyval_of_key e.1) <$> entries)
  | PNone | PInt _ | PFloat _ | PRational _ _ => None
  end.

(** ** Paths ([pathlib], POSIX flavour)

    A path is the list of its components; an absolute path starts with the
    component ["/"]. *)

Abbreviation Path := (list string).

Definition is_root (p : Path) : bool :=
  match p with
  | [r] => (r =? "/")%string
  | _ => false
  end.

(** [p.name] *)
Definition path_name (p : Path) : string :=
  if is_root p then "" else List.last p "".

(** [p.parent] *)
Definition path_parent (p : Path) : Path :=
  if is_root p then p else removelast p.

(** [s.split('/')]: the pieces of [s] between slashes. *)
Fixpoint split_slash (s : string) : list string :=
  match s with
  | EmptyString => [EmptyString]
  | String c s' =>
      if is_char "/" c then EmptyString :: split_slash s'
      else
        match split_slash s' with
        | part :: parts => String c part :: parts
        | [] => [String c EmptyString]
        end
  end.

Definition keep_part (part : string) : bool :=
  negb (part =? "")%string && negb (part =? ".")%string.

Definition parts_of (s : string) : list string :=
  List.filter keep_part (split_slash s).

Definition is_absolute (s : string) : bool :=
  match s with
  | String c _ => is_char "/" c
  | EmptyString => false
  end.

(** [p / s] *)
Definition pjoin (p : Path) (s : string) : Path :=
  if is_absolute s then "/" :: parts_of s else p ++ parts_of s.

(** [name.rfind('.')] *)
Fixpoint rfind_dot (i : nat) (name : string) : option nat :=
  match name with
  | EmptyString => None
  | String c name' =>
      match rfind_dot (S i) name' with
      | Some j => Some j
      | None => if is_char "." c then Some i else None
      end
  end.

(** The index at which [p.suffix] starts, when the name has a suffix:
    [0 < i < len(name) - 1]. *)
Definition suffix_index (name : string) : option nat :=
  match rfind_dot 0 name with
  | Some i =>
      if ((0 <? i) && (i <? String.length name - 1))%nat then Some i else None
  | None => None
  end.

(** [p.suffix] *)
Definition path_suffix (p : Path) : string :=
  let name := path_name p in
  match suffix_index name with
  | Some i => skip i name
  | None => ""
  end.

(** [p.stem] *)
Definition path_stem (p : Path) : string :=
  let name := path_name p in
  match suffix_index name with
  | Some i => take_str i name
  | None => name
  end.

(** ** The world outside the program *)

Inductive exn : Type :=
  | OSError
  | GeocoderTimedOut
  | GeocoderServiceError
  | OtherError.

(** One constructor per [print] of the program. *)
Inductive message : Type :=
  | MsgExifError (name : string)
  | MsgGpsError
  | MsgDateError (tag : string)
  | MsgGeocodeError (e : exn)
  | MsgGeocodeUnexpected (e : exn)
  | MsgProcessing (name : string)
  | MsgDate (date_str : string)
  | MsgGps (lat lon : float)
  | MsgNoGps
  | MsgCity (city : string)
  | MsgMoved (folder name : string)
  | MsgError (e : exn)
  | MsgStart (source destination : Path)
  | MsgSourceMissing (source : Path)
  | MsgNoPhoto (source : Path)
  | MsgFound (n : nat)
  | MsgSummary (processed errors : nat).

(** What the program does to the outside, in order. *)
Inductive event : Type :=
  | EvPrint (m : message)
  | EvSleep (seconds : nat)
  | EvReverse (lat lon : float)
  | EvMkdir (p : Path)
  | EvMove (src dst : Path).

(** [Image.open(p)._getexif()] *)
Inductive exif_read : Type :=
  | ReadRaises
  | NoExif
  | RawExif (items : list (Z * pyval)).

(** [geolocator.reverse(...)]: an exception, [None], or a location whose
    [raw] has the given ['address'] ([None] when the key is missing). *)
Inductive geo_response : Type :=
  | GeoRaises (e : exn)
  | GeoNone
  | GeoLocation (address : option (gmap string string)).

(** The behaviour of the libraries and of the operating system.  The
    geocoder may answer by the history of the run; the file operations by
    the files present. *)
Record Env := {
  TAGS : Z → option string;
  image_getexif : Path → exif_read;
  st_mtime : Path → option datetime;
  geolocator_reverse : list event → float → float → geo_response;
  mkdir_ok : gset Path → Path → bool;
  move_ok : gset Path → Path → Path → bool;
  iterdir : gset Path → Path → option (list Path);
  is_file : gset Path → Path → bool
}.

(** [self]: the two directories; the counters are in the [World]. *)
Record PhotoOrganizer := {
  source_dir : Path;
  destination_dir : Path
}.

(** [fs] is the set of the paths that exist. *)
Record World := {
  fs : gset Path;
  log : list event;
  processed_count : nat;
  error_count : nat
}.

Inductive result (A : Type) : Type :=
  | Ok (a : A)
  | Raise (e : exn)
  | OutOfFuel.
Arguments Ok {A} a.
Arguments Raise {A} e.
Arguments OutOfFuel {A}.

Definition M (A : Type) : Type := World → result A * World.

Definition ret {A} (a : A) : M A := λ w, (Ok a, w).

Definition bind {A B} (m : M A) (f : A → M B) : M B := λ w,
  match m w with
  | (Ok a, w') => f a w'
  | (Raise e, w') => (Raise e, w')
  | (OutOfFuel, w') => (OutOfFuel, w')
  end.

Definition raise {A} (e : exn) : M A := λ w, (Raise e, w).

(** [try: m  except Exception as e: handler e] *)
Definition try_except {A} (m : M A) (handler : exn → M A) : M A := λ w,
  match m w with
  | (Raise e, w') => handler e w'
  | r => r
  end.

Notation "x <- m ;; k" := (bind m (λ x, k))
  (at level 100, m at next level, right associativity).
Notation "m ;;; k" := (bind m (λ _, k))
  (at level 100, right associativity).

Definition emit (e : event) : M unit := λ w,
  (Ok tt, {| fs := fs w; log := log w ++ [e];
             processed_count := processed_count w;
             error_count := error_count w |}).

Definition print (m : message) : M unit := emit (EvPrint m).

Definition get_world : M World := λ w, (Ok w, w).

Definition set_fs (new_fs : gset Path) : M unit := λ w,
  (Ok tt, {| fs := new_fs; log := log w;
             processed_count := processed_count w;
             error_count := error_count w |}).

(** [self.processed_count += 1] *)
Definition incr_processed : M unit := λ w,
  (Ok tt, {| fs := fs w; log := log w;
             processed_count := S (processed_count w);
             error_count := error_count w |}).

(** [self.error_count += 1] *)
Definition incr_error : M unit := λ w,
  (Ok tt, {| fs := fs w; log := log w;
             processed_count := processed_count w;
             error_count := S (error_count w) |}).

Definition lift_option {A} (e : exn) (o : option A) : M A :=
  match o with
  | Some a => ret a
  | None => raise e
  end.

(** ** [get_exif_data] *)

(** The loop [exif_data[TAGS.get(tag_id, tag_id)] = value]. *)
Definition tag_of (E : Env) (tag_id : Z) : pykey :=
  match TAGS E tag_id with
  | Some name => KStr name
  | None => KInt tag_id
  end.

Definition exif_dict (E : Env) (items : list (Z * pyval)) : gmap pykey pyval :=
  fold_left (λ exif_data item, <[tag_of E item.1 := item.2]> exif_data) items ∅.

Definition get_exif_data (E : Env) (image_path : Path)
    : M (gmap pykey pyval) :=
  match image_getexif E image_path with
  | RawExif items => ret (exif_dict E items)
  | NoExif => ret ∅
  | ReadRaises => print (MsgExifError (path_name image_path));;; ret ∅
  end.

(** The mapping [get_exif_data] returns for a file. *)
Definition exif_of (E : Env) (image_path : Path) : gmap pykey pyval :=
  match image_getexif E image_path with
  | RawExif items => exif_dict E items
  | NoExif | ReadRaises => ∅
  end.

(** ** [get_gps_coordinates] and [_convert_to_degrees]

    The warnings these two methods and [get_date_from_exif] print are left
    out of the log here; they are in it in [Console] below. *)

(** [PIL.ExifTags.GPSTAGS] *)
Definition GPSTAGS : list (Z * string) :=
  [(0, "GPSVersionID"); (1, "GPSLatitudeRef"); (2, "GPSLatitude");
   (3, "GPSLongitudeRef"); (4, "GPSLongitude"); (5, "GPSAltitudeRef");
   (6, "GPSAltitude"); (7, "GPSTimeStamp"); (8, "GPSSatellites");
   (9, "GPSStatus"); (10, "GPSMeasureMode"); (11, "GPSDOP");
   (12, "GPSSpeedRef"); (13, "GPSSpeed"); (14, "GPSTrackRef");
   (15, "GPSTrack"); (16, "GPSImgDirectionRef"); (17, "GPSImgDirection");
   (18, "GPSMapDatum"); (19, "GPSDestLatitudeRef"); (20, "GPSDestLatitude");
   (21, "GPSDestLongitudeRef"); (22, "GPSDestLongitude");
   (23, "GPSDestBearingRef"); (24, "GPSDestBearing");
   (25, "GPSDestDistanceRef"); (26, "GPSDestDistance");
   (27, "GPSProcessingMethod"); (28, "GPSAreaInformation");
   (29, "GPSDateStamp"); (30, "GPSDifferential");
   (31, "GPSHPositioningError")].

(** [GPSTAGS.get(key, key)] *)
Definition gps_decode (key : pykey) : pykey :=
  match key with
  | KInt n =>
      match List.find (λ e, e.1 =? n) GPSTAGS with
      | Some e => KStr e.2
      | None => key
      end
  | KStr _ => key
  end.

(** [gps_info[key]] *)
Definition dict_item (entries : list (pykey * pyval)) (key : pykey)
    : option pyval :=
  snd <$> List.find (λ e, bool_decide (e.1 = key)) entries.

(** The loop that fills [gps_data]; a key that is not in the dictionary
    would raise [KeyError]. *)
Fixpoint fill_gps_data (gps_info : list (pykey * pyval)) (keys : list pykey)
    (gps_data : gmap pykey pyval) : option (gmap pykey pyval) :=
  match keys with
  | [] => Some gps_data
  | key :: keys' =>
      v ← dict_item gps_info key;
      fill_gps_data gps_info keys' (<[gps_decode key := v]> gps_data)
  end.

(** [float(v)]; [None] is [TypeError], [ValueError] or [OverflowError].
    The [float] of a rational of an image file is that of its value: a NaN
    when the denominator is 0, else the quotient of the fraction. *)
Definition py_float (v : pyval) : option float :=
  match v with
  | PInt n => float_of_int n
  | PFloat x => Some x
  | PRational n d =>
      if d =? 0 then Some S754_nan
      else if n =? 0 then Some (S754_zero false)
      else int_true_divide n d
  | PStr s => float_of_str s
  | PNone | PTuple _ | PDict _ => None
  end.

(** [None] is the exception of [d, m, s = value] or of a [float]. *)
Definition _convert_to_degrees (value : pyval) : option float :=
  items ← py_iter value;
  match items with
  | [d; m; s] =>
      fd ← py_float d; fm ← py_float m; fs ← py_float s;
      Some (float_add (float_add fd (float_div fm float_60))
              (float_div fs float_3600))
  | _ => None
  end.

Definition get_gps_coordinates (E : Env) (exif_data : gmap pykey pyval)
    : option (float * float) :=
  match exif_data !! KStr "GPSInfo" with
  | None => None
  | Some gps_info =>
      if negb (py_truthy gps_info) then None else
      match gps_info with
      | PDict entries =>
          gps_data ← fill_gps_data entries (fst <$> entries) ∅;
          match gps_data !! KStr "GPSLatitude",
                gps_data !! KStr "GPSLongitude" with
          | Some vlat, Some vlon =>
              lat ← _convert_to_degrees vlat;
              lon ← _convert_to_degrees vlon;
              let lat :=
                if from_option (λ r, py_eq_str r "S") false
                     (gps_data !! KStr "GPSLatitudeRef")
                then float_neg lat else lat in
              let lon :=
                if from_option (λ r, py_eq_str r "W") false
                     (gps_data !! KStr "GPSLongitudeRef")
                then float_neg lon else lon in
              Some (lat, lon)
          | _, _ => None
          end
      | _ => None
      end
  end.

(** The three ways [get_gps_coordinates] ends: it returns [None] by one of
    its two [return None], an exception sends it to its [except] clause,
    where it prints a warning and returns [None], or it returns a
    coordinate. *)
Inductive gps_outcome : Type :=
  | GpsNone
  | GpsRaises
  | GpsCoordinates (lat lon : float).

Definition gps_coordinates_outcome (exif_data : gmap pykey pyval)
    : gps_outcome :=
  match exif_data !! KStr "GPSInfo" with
  | None => GpsNone
  | Some gps_info =>
      if negb (py_truthy gps_info) then GpsNone else
      match gps_info with
      | PDict entries =>
          match fill_gps_data entries (fst <$> entries) ∅ with
          | None => GpsRaises
          | Some gps_data =>
              match gps_data !! KStr "GPSLatitude",
                    gps_data !! KStr "GPSLongitude" with
              | Some vlat, Some vlon =>
                  match _convert_to_degrees vlat with
                  | None => GpsRaises
                  | Some lat =>
                      match _convert_to_degrees vlon with
                      | None => GpsRaises
                      | Some lon =>
                          GpsCoordinates
                            (if from_option (λ r, py_eq_str r "S") false
                                  (gps_data !! KStr "GPSLatitudeRef")
                             then float_neg lat else lat)
                            (if from_option (λ r, py_eq_str r "W") false
                                  (gps_data !! KStr "GPSLongitudeRef")
                             then float_neg lon else lon)
                      end
                  end
              | _, _ => GpsNone
              end
          end
      | _ => GpsRaises
      end
  end.

(** ** [get_city_from_coordinates] *)

(** [address.get(key) or ...]: a value that is present and not empty. *)
Definition get_nonempty (address : gmap string string) (key : string)
    : option string :=
  match address !! key with
  | Some v => if (v =? "")%string then None else Some v
  | None => None
  end.

Definition city_of_address (address : gmap string string) : string :=
  match get_nonempty address "village" with
  | Some v => v
  | None =>
  match get_nonempty address "town" with
  | Some v => v
  | None =>
  match get_nonempty address "city" with
  | Some v => v
  | None =>
  match get_nonempty address "municipality" with
  | Some v => v
  | None => default "Inconnu" (address !! "county")
  end end end end.

Definition get_city_from_coordinates (E : Env) (lat lon : float) : M string :=
  emit (EvSleep 1);;;
  w <- get_world;;
  emit (EvReverse lat lon);;;
  match geolocator_reverse E (log w) lat lon with
  | GeoRaises e =>
      match e with
      | GeocoderTimedOut | GeocoderServiceError =>
          print (MsgGeocodeError e);;; ret "Inconnu"
      | _ => print (MsgGeocodeUnexpected e);;; ret "Inconnu"
      end
  | GeoNone => ret "Inconnu"
  | GeoLocation None => ret "Inconnu"
  | GeoLocation (Some address) =>
      if bool_decide (address = ∅) then ret "Inconnu"
      else ret (city_of_address address)
  end.

(** ** [get_date_from_exif], [get_photo_date] *)

Definition date_tags : list string :=
  ["DateTimeOriginal"; "DateTime"; "DateTimeDigitized"].

Fixpoint date_from_tags (tags : list string) (exif_data : gmap pykey pyval)
    : option datetime :=
  match tags with
  | [] => None
  | tag :: tags' =>
      match exif_data !! KStr tag with
      | Some date_str =>
          match py_str date_str ≫= strptime with
          | Some d => Some d
          | None => date_from_tags tags' exif_data
          end
      | None => date_from_tags tags' exif_data
      end
  end.

Definition get_date_from_exif (exif_data : gmap pykey pyval)
    : option datetime :=
  date_from_tags date_tags exif_data.

(** [None] is the [OSError] of [image_path.stat()]. *)
Definition get_photo_date (E : Env) (image_path : Path)
    (exif_data : gmap pykey pyval) : option datetime :=
  match get_date_from_exif exif_data with
  | Some date => Some date
  | None =>
      match get_date_from_filename (path_name image_path) with
      | Some date => Some date
      | None => st_mtime E image_path
      end
  end.

(** ** [get_unique_filename] *)

(** The [while] loop, [fuel] iterations at most. *)
Fixpoint unique_loop (fuel : nat) (files : gset Path) (parent : Path)
    (stem suffix : string) (destination_path : Path) (counter : nat)
    : option Path :=
  match fuel with
  | O => None
  | S fuel' =>
      if decide (destination_path ∈ files) then
        let new_name := stem +:+ "_" +:+ pretty counter +:+ suffix in
        unique_loop fuel' files parent stem suffix (pjoin parent new_name)
          (S counter)
      else Some destination_path
  end.

(** The loop tests the path itself, then one new name per iteration: it
    never needs more iterations than there are paths, plus two
    ([get_unique_filename_total] below). *)
Definition get_unique_filename (files : gset Path) (destination_path : Path)
    : option Path :=
  if decide (destination_path ∈ files) then
    unique_loop (2 + size files) files (path_parent destination_path)
      (path_stem destination_path) (path_suffix destination_path)
      destination_path 1
  else Some destination_path.

(** ** [process_photo] *)

(** The path and the directories above it. *)
Definition ancestors (p : Path) : list Path :=
  (λ n, take (S n) p) <$> seq 0 (length p).

(** [p.mkdir(parents=True, exist_ok=True)] *)
Definition mkdir (E : Env) (p : Path) : M unit :=
  emit (EvMkdir p);;;
  w <- get_world;;
  if mkdir_ok E (fs w) p
  then set_fs (fs w ∪ list_to_set (ancestors p))
  else raise OSError.

(** [shutil.move(src, dst)] *)
Definition shutil_move (E : Env) (src dst : Path) : M unit :=
  emit (EvMove src dst);;;
  w <- get_world;;
  if move_ok E (fs w) src dst
  then set_fs (fs w ∖ {[src]} ∪ {[dst]})
  else raise OSError.

Definition unique_filename (destination_path : Path) : M Path := λ w,
  match get_unique_filename (fs w) destination_path with
  | Some p => (Ok p, w)
  | None => (OutOfFuel, w)
  end.

(** The body of the [try]. *)
Definition process_photo_try (E : Env) (self : PhotoOrganizer)
    (image_path : Path) : M unit :=
  exif_data <- get_exif_data E image_path;;
  photo_date <- lift_option OSError (get_photo_date E image_path exif_data);;
  let date_str := strftime photo_date in
  print (MsgDate date_str);;;
  city <- match get_gps_coordinates E exif_data with
          | Some (lat, lon) =>
              print (MsgGps lat lon);;;
              get_city_from_coordinates E lat lon
          | None =>
              print MsgNoGps;;;
              ret "Inconnu"
          end;;
  print (MsgCity city);;;
  let folder_name := date_str +:+ " - " +:+ city in
  let destination_folder := pjoin (destination_dir self) folder_name in
  mkdir E destination_folder;;;
  let destination_path := pjoin destination_folder (path_name image_path) in
  destination_path <- unique_filename destination_path;;
  shutil_move E image_path destination_path;;;
  print (MsgMoved (path_name destination_folder) (path_name destination_path));;;
  incr_processed.

Definition process_photo (E : Env) (self : PhotoOrganizer)
    (image_path : Path) : M unit :=
  print (MsgProcessing (path_name image_path));;;
  try_except (process_photo_try E self image_path)
    (λ e, print (MsgError e);;; incr_error).

(** ** [organize_photos] *)

Definition photo_extensions : list string :=
  [".jpg"; ".jpeg"; ".png"; ".heic"; ".heif"; ".raw"; ".cr2"; ".nef"; ".arw"].

Definition is_photo (E : Env) (files : gset Path) (f : Path) : bool :=
  is_file E files f
  && bool_decide (lower (path_suffix f) ∈ photo_extensions).

(** The [for] loop over [photo_files]. *)
Fixpoint process_all (E : Env) (self : PhotoOrganizer)
    (photo_files : list Path) : M unit :=
  match photo_files with
  | [] => ret tt
  | photo_file :: rest =>
      process_photo E self photo_file;;;
      process_all E self rest
  end.

Definition organize_photos (E : Env) (self : PhotoOrganizer) : M unit :=
  print (MsgStart (source_dir self) (destination_dir self));;;
  w <- get_world;;
  if negb (bool_decide (source_dir self ∈ fs w)) then
    print (MsgSourceMissing (source_dir self))
  else
    mkdir E (destination_dir self);;;
    w <- get_world;;
    listing <- lift_option OSError (iterdir E (fs w) (source_dir self));;
    let photo_files := List.filter (is_photo E (fs w)) listing in
    if (length photo_files =? 0)%nat then
      print (MsgNoPhoto (source_dir self))
    else
      print (MsgFound (length photo_files));;;
      process_all E self photo_files;;;
      w <- get_world;;
      print (MsgSummary (processed_count w) (error_count w)).

(** [PhotoOrganizer(source_dir, destination_dir)] on the files [files]:
    both counters are zero. *)
Definition init_world (files : gset Path) : World :=
  {| fs := files; log := []; processed_count := 0; error_count := 0 |}.

(** ** The program on a console that can fail

    Above, [print] always writes its message, and the warnings of
    [get_gps_coordinates] and [get_date_from_exif] are left out.  Here
    every [print] of the class asks the console: [console l m] is [None]
    when, after the log [l], the message [m] is written, and [Some e] when
    [print] raises [e] (a text the console cannot encode, a closed
    stream).  The methods are the same, line by line. *)

Module Console.
Section Console.

Variable console : list event → message → option exn.
Variable E : Env.
Variable self : PhotoOrganizer.

Definition print (m : message) : M unit := λ w,
  match console (log w) m with
  | None => emit (EvPrint m) w
  | Some e => (Raise e, w)
  end.

Definition get_exif_data (image_path : Path) : M (gmap pykey pyval) :=
  match image_getexif E image_path with
  | RawExif items => ret (exif_dict E items)
  | NoExif => ret ∅
  | ReadRaises => print (MsgExifError (path_name image_path));;; ret ∅
  end.

Definition get_gps_coordinates (exif_data : gmap pykey pyval)
    : M (option (float * float)) :=
  match gps_coordinates_outcome exif_data with
  | GpsCoordinates lat lon => ret (Some (lat, lon))
  | GpsNone => ret None
  | GpsRaises => print MsgGpsError;;; ret None
  end.

Definition get_city_from_coordinates (lat lon : float) : M string :=
  emit (EvSleep 1);;;
  w <- get_world;;
  emit (EvReverse lat lon);;;
  match geolocator_reverse E (log w) lat lon with
  | GeoRaises e =>
      match e with
      | GeocoderTimedOut | GeocoderServiceError =>
          print (MsgGeocodeError e);;; ret "Inconnu"
      | _ => print (MsgGeocodeUnexpected e);;; ret "Inconnu"
      end
  | GeoNone => ret "Inconnu"
  | GeoLocation None => ret "Inconnu"
  | GeoLocation (Some address) =>
      if bool_decide (address = ∅) then ret "Inconnu"
      else ret (city_of_address address)
  end.

(** The loop over [date_tags]. *)
Fixpoint date_from_tags (tags : list string) (exif_data : gmap pykey pyval)
    : M (option datetime) :=
  match tags with
  | [] => ret None
  | tag :: tags' =>
      match exif_data !! KStr tag with
      | Some date_str =>
          match py_str date_str ≫= strptime with
          | Some d => ret (Some d)
          | None =>
              print (MsgDateError tag);;; date_from_tags tags' exif_data
          end
      | None => date_from_tags tags' exif_data
      end
  end.

Definition get_date_from_exif (exif_data : gmap pykey pyval)
    : M (option datetime) :=
  date_from_tags date_tags exif_data.

Definition get_photo_date (image_path : Path) (exif_data : gmap pykey pyval)
    : M datetime :=
  date <- get_date_from_exif exif_data;;
  match date with
  | Some date => ret date
  | None =>
      match get_date_from_filename (path_name image_path) with
      | Some date => ret date
      | None => lift_option OSError (st_mtime E image_path)
      end
  end.

(** The body of the [try]. *)
Definition process_photo_try (image_path : Path) : M unit :=
  exif_data <- get_exif_data image_path;;
  photo_date <- get_photo_date image_path exif_data;;
  let date_str := strftime photo_date in
  print (MsgDate date_str);;;
  coordinates <- get_gps_coordinates exif_data;;
  city <- match coordinates with
          | Some (lat, lon) =>
              print (MsgGps lat lon);;;
              get_city_from_coordinates lat lon
          | None =>
              print MsgNoGps;;;
              ret "Inconnu"
          end;;
  print (MsgCity city);;;
  let folder_name := date_str +:+ " - " +:+ city in
  let destination_folder := pjoin (destination_dir self) folder_name in
  mkdir E destination_folder;;;
  let destination_path := pjoin destination_folder (path_name image_path) in
  destination_path <- unique_filename destination_path;;
  shutil_move E image_path destination_path;;;
  print (MsgMoved (path_name destination_folder) (path_name destination_path));;;
  incr_processed.

Definition process_photo (image_path : Path) : M unit :=
  print (MsgProcessing (path_name image_path));;;
  try_except (process_photo_try image_path)
    (λ e, print (MsgError e);;; incr_error).

(** The [for] loop over [photo_files]. *)
Fixpoint process_all (photo_files : list Path) : M unit :=
  match photo_files with
  | [] => ret tt
  | photo_file :: rest =>
      process_photo photo_file;;;
      process_all rest
  end.

Definition organize_photos : M unit :=
  print (MsgStart (source_dir self) (destination_dir self));;;
  w <- get_world;;
  if negb (bool_decide (source_dir self ∈ fs w)) then
    print (MsgSourceMissing (source_dir self))
  else
    mkdir E (destination_dir self);;;
    w <- get_world;;
    listing <- lift_option OSError (iterdir E (fs w) (source_dir self));;
    let photo_files := List.filter (is_photo E (fs w)) listing in
    if (length photo_files =? 0)%nat then
      print (MsgNoPhoto (source_dir self))
    else
      print (MsgFound (length photo_files));;;
      process_all photo_files;;;
      w <- get_world;;
      print (MsgSummary (processed_count w) (error_count w)).

End Console.
End Console.

(** ** Vocabulary of the statements *)

Fixpoint no_digit (s : string) : bool :=
  match s with
  | EmptyString => true
  | String c s' => negb (is_digit c) && no_digit s'
  end.

Fixpoint all_digits (s : string) : bool :=
  match s with
  | EmptyString => true
  | String c s' => is_digit c && all_digits s'
  end.

Fixpoint no_slash (s : string) : bool :=
  match s with
  | EmptyString => true
  | String c s' => negb (is_char "/" c) && no_slash s'
  end.

(** The name [get_unique_filename] tries after [counter - 1] collisions,
    and the path it makes. *)
Definition new_name (p : Path) (counter : nat) : string :=
  path_stem p +:+ "_" +:+ pretty counter +:+ path_suffix p.

Definition candidate (p : Path) (counter : nat) : Path :=
  pjoin (path_parent p) (new_name p counter).

Definition contains (s sub : string) : Prop :=
  ∃ pre post, s = pre +:+ sub +:+ post.

(** The three spellings of June 15, 2023. *)
Definition june_15_2023 : list string :=
  ["20230615"; "2023-06-15"; "2023_06_15"].

(** What a tag gives: nothing when it is missing or does not parse. *)
Definition tag_date (exif_data : gmap pykey pyval) (tag : string)
    : option datetime :=
  date_str ← exif_data !! KStr tag; py_str date_str ≫= strptime.

Definition no_date_tag (exif_data : gmap pykey pyval) : Prop :=
  ∀ tag, tag ∈ date_tags → exif_data !! KStr tag = None.

(** A text that begins like an EXIF date: four digits and a colon. *)
Definition year_prefix (text : string) : bool :=
  match text with
  | String a (String b (String c (String d (String e _)))) =>
      is_digit a && is_digit b && is_digit c && is_digit d && is_char ":" e
  | _ => false
  end.

(** A text of eight characters. *)
Definition run8 (c1 c2 c3 c4 c5 c6 c7 c8 : ascii) : string :=
  String c1 (String c2 (String c3 (String c4
    (String c5 (String c6 (String c7 (String c8 ""))))))).

(** The number a run of digits denotes. *)
Definition number (cs : list ascii) : Z :=
  fold_left (λ acc c, 10 * acc + digit_value c) cs 0.

(** The decoded position tags of a GPSInfo dictionary. *)
Definition gps_data_of (entries : list (pykey * pyval))
    : option (gmap pykey pyval) :=
  fill_gps_data entries entries.*1 ∅.








(** *** The straight-line form of [process_photo] *)

(** The warning of [get_exif_data]. *)
Definition exif_msgs (E : Env) (image_path : Path) : list event :=
  match image_getexif E image_path with
  | ReadRaises => [EvPrint (MsgExifError (path_name image_path))]
  | _ => []
  end.

(** What [get_city_from_coordinates] returns and prints for a response. *)
Definition city_of_response (r : geo_response) : string :=
  match r with
  | GeoLocation (Some address) =>
      if bool_decide (address = ∅) then "Inconnu" else city_of_address address
  | _ => "Inconnu"
  end.

Definition response_msgs (r : geo_response) : list event :=
  match r with
  | GeoRaises e =>
      match e with
      | GeocoderTimedOut | GeocoderServiceError => [EvPrint (MsgGeocodeError e)]
      | _ => [EvPrint (MsgGeocodeUnexpected e)]
      end
  | _ => []
  end.

(** The log when the geocoder is called for a file, from the log [l] when
    [process_photo] is entered. *)
Definition head_log (E : Env) (image_path : Path) (l : list event)
    : list event :=
  l ++ EvPrint (MsgProcessing (path_name image_path)) :: exif_msgs E image_path.

Definition request_log (E : Env) (image_path : Path) (l : list event)
    (date : datetime) (lat lon : float) : list event :=
  head_log E image_path l
    ++ [EvPrint (MsgDate (strftime date)); EvPrint (MsgGps lat lon); EvSleep 1].

(** The place name of a file and the events of resolving it. *)
Definition city_step (E : Env) (image_path : Path) (l : list event)
    (date : datetime) : string * list event :=
  match get_gps_coordinates E (exif_of E image_path) with
  | Some (lat, lon) =>
      let resp :=
        geolocator_reverse E (request_log E image_path l date lat lon) lat lon in
      (city_of_response resp,
       [EvPrint (MsgGps lat lon); EvSleep 1; EvReverse lat lon]
         ++ response_msgs resp)
  | None => ("Inconnu", [EvPrint MsgNoGps])
  end.

(** The folder a file goes to. *)
Definition destination_folder (E : Env) (self : PhotoOrganizer)
    (image_path : Path) (l : list event) (date : datetime) : Path :=
  pjoin (destination_dir self)
    (strftime date +:+ " - " +:+ (city_step E image_path l date).1).

(** The events of a call up to and with the creation of the folder. *)
Definition resolve_events (E : Env) (self : PhotoOrganizer)
    (image_path : Path) (l : list event) (date : datetime) : list event :=
  EvPrint (MsgProcessing (path_name image_path)) :: exif_msgs E image_path
    ++ [EvPrint (MsgDate (strftime date))]
    ++ (city_step E image_path l date).2
    ++ [EvPrint (MsgCity (city_step E image_path l date).1);
        EvMkdir (destination_folder E self image_path l date)].

Definition mk_world (files : gset Path) (l : list event) (processed errors : nat)
    : World :=
  {| fs := files; log := l; processed_count := processed;
     error_count := errors |}.

Definition process_photo_result (E : Env) (self : PhotoOrganizer)
    (image_path : Path) (w : World) : result unit * World :=
  match get_photo_date E image_path (exif_of E image_path) with
  | None =>
      (Ok tt,
       mk_world (fs w)
         (head_log E image_path (log w) ++ [EvPrint (MsgError OSError)])
         (processed_count w) (S (error_count w)))
  | Some date =>
      let folder := destination_folder E self image_path (log w) date in
      let l1 := log w ++ resolve_events E self image_path (log w) date in
      if mkdir_ok E (fs w) folder then
        let fs1 := fs w ∪ list_to_set (ancestors folder) in
        match get_unique_filename fs1 (pjoin folder (path_name image_path)) with
        | Some dst =>
            if move_ok E fs1 image_path dst then
              (Ok tt,
               mk_world (fs1 ∖ {[image_path]} ∪ {[dst]})
                 (l1 ++ [EvMove image_path dst;
                         EvPrint (MsgMoved (path_name folder) (path_name dst))])
                 (S (processed_count w)) (error_count w))
            else
              (Ok tt,
               mk_world fs1
                 (l1 ++ [EvMove image_path dst; EvPrint (MsgError OSError)])
                 (processed_count w) (S (error_count w)))
        | None => (OutOfFuel, mk_world fs1 l1 (processed_count w) (error_count w))
        end
      else
        (Ok tt,
         mk_world (fs w) (l1 ++ [EvPrint (MsgError OSError)])
           (processed_count w) (S (error_count w)))
  end.

(** *** Reading the log *)

(** The number of files [process_photo] was called on. *)
Fixpoint attempted (l : list event) : nat :=
  match l with
  | [] => 0
  | EvPrint (MsgProcessing _) :: l' => S (attempted l')
  | _ :: l' => attempted l'
  end.

(** No request to the geocoder and no delay. *)
Fixpoint no_request (l : list event) : bool :=
  match l with
  | [] => true
  | (EvReverse _ _ | EvSleep _) :: _ => false
  | _ :: l' => no_request l'
  end.

(** Every request comes right after a delay of one second; [slept] tells
    that the event before [l] was such a delay. *)
Fixpoint throttled_from (slept : bool) (l : list event) : bool :=
  match l with
  | [] => true
  | EvReverse _ _ :: l' => slept && throttled_from false l'
  | EvSleep n :: l' => throttled_from (n =? 1)%nat l'
  | _ :: l' => throttled_from false l'
  end.

(** The seconds slept. *)
Fixpoint sleep_seconds (l : list event) : nat :=
  match l with
  | [] => 0
  | EvSleep n :: l' => (n + sleep_seconds l')%nat
  | _ :: l' => sleep_seconds l'
  end.

(** The files a run processes: the photos of the source directory, listed
    once the destination directory is there. *)
Definition listed_photos (E : Env) (self : PhotoOrganizer) (files : gset Path)
    : list Path :=
  let files1 := files ∪ list_to_set (ancestors (destination_dir self)) in
  match iterdir E files1 (source_dir self) with
  | Some listing => List.filter (is_photo E files1) listing
  | None => []
  end.

(** *** The two ways a call ends *)

(** The file went to a path at which nothing existed, and was counted. *)
Definition moved (image_path : Path) (w w' : World) : Prop :=
  processed_count w' = S (processed_count w)
  ∧ error_count w' = error_count w
  ∧ ∃ dst before,
      fs w ⊆ before ∧ (dst ∉ before)
      ∧ fs w' = before ∖ {[image_path]} ∪ {[dst]}
      ∧ ∃ l folder,
          log w' = l ++ [EvMove image_path dst;
                         EvPrint (MsgMoved folder (path_name dst))].

(** Nothing was moved or removed, and an error was printed and counted. *)
Definition failed (w w' : World) : Prop :=
  processed_count w' = processed_count w
  ∧ error_count w' = S (error_count w)
  ∧ fs w ⊆ fs w'
  ∧ ∃ l e, log w' = l ++ [EvPrint (MsgError e)].

(** Each request to the geocoder comes right after a delay of a second. *)
Definition delay_before_each_request (l : list event) : Prop :=
  ∀ l1 l2 lat lon,
    l = l1 ++ EvReverse lat lon :: l2 → ∃ l0, l1 = l0 ++ [EvSleep 1].

(** Between two requests the program sleeps a second at least. *)
Definition one_second_between_requests (l : list event) : Prop :=
  ∀ l1 l2 l3 lat lon lat' lon',
    l = l1 ++ EvReverse lat lon :: l2 ++ EvReverse lat' lon' :: l3 →
    (1 ≤ sleep_seconds l2)%nat.

(** The address fields a place name is taken from. *)
Definition priority_fields : list string :=
  ["village"; "town"; "city"; "municipality"; "county"].

(** The call failed, or gave nothing with a priority field. *)
Definition fallback_response (r : geo_response) : Prop :=
  (∃ e, r = GeoRaises e) ∨ r = GeoNone ∨ r = GeoLocation None
  ∨ ∃ address, r = GeoLocation (Some address)
      ∧ ∀ key, key ∈ priority_fields → address !! key = None.

(** An environment to evaluate the program in: no EXIF data, the
    modification time 2020-02-03 04:05:06, a geocoder that times out, and
    file operations that succeed. *)
Definition sample_env : Env := {|
  TAGS := λ _, None;
  image_getexif := λ _, NoExif;
  st_mtime := λ _, Some (DateTime 2020 2 3 4 5 6);
  geolocator_reverse := λ _ _ _, GeoRaises GeocoderTimedOut;
  mkdir_ok := λ _ _, true;
  move_ok := λ _ _ _, true;
  iterdir := λ _ _, Some [];
  is_file := λ _ _, true
|}.

Definition sample_organizer : PhotoOrganizer :=
  {| source_dir := ["Source"]; destination_dir := ["Destination"] |}.

(** The same, with a position in the file [Source/IMG_20230615.jpg]. *)
Definition sample_env_gps : Env := {|
  TAGS := λ n, if n =? 34853 then Some "GPSInfo" else None;
  image_getexif := λ _,
    RawExif [(34853, PDict [(KInt 1, PStr "N");
                            (KInt 2, PTuple [PInt 48; PInt 30; PInt 0]);
                            (KInt 3, PStr "E");
                            (KInt 4, PTuple [PInt 2; PInt 0; PInt 36])])];
  st_mtime := λ _, Some (DateTime 2020 2 3 4 5 6);
  geolocator_reverse := λ _ _ _, GeoRaises GeocoderTimedOut;
  mkdir_ok := λ _ _, true;
  move_ok := λ _ _ _, true;
  iterdir := λ _ _, Some [["Source"; "IMG_20230615.jpg"]];
  is_file := λ _ _, true
|}.



(** [48.5] and [2.01], the two numbers of this position. *)
Definition sample_lat : float := S754_finite false 6825768185233408 (-47).
Definition sample_lon : float := S754_finite false 4526117625507348 (-51).

(** A source directory with one photo. *)
Definition sample_source : gset Path :=
  {[ ["Source"]; ["Source"; "IMG_20230615.jpg"] ]}.

(** A destination folder in which [photo.jpg] and [photo_1.jpg] exist. *)
Definition sample_photo : Path :=
  ["Destination"; "2023-06-15 - Inconnu"; "photo.jpg"].

Definition sample_files : gset Path :=
  {[ ["Destination"; "2023-06-15 - Inconnu"; "photo.jpg"];
     ["Destination"; "2023-06-15 - Inconnu"; "photo_1.jpg"] ]}.

(** ** Further vocabulary *)

(** The text [YYYY:MM:DD HH:MM:SS] made of fourteen characters. *)
Definition exif_text (y1 y2 y3 y4 m1 m2 d1 d2 h1 h2 mi1 mi2 s1 s2 : ascii)
    : string :=
  string_of_list_ascii
    [y1; y2; y3; y4; ":"; m1; m2; ":"; d1; d2; " ";
     h1; h2; ":"; mi1; mi2; ":"; s1; s2]%char.

(** A continuation of the matcher that fails on a text starting with a
    digit: what follows a numeric field in the EXIF pattern. *)
Definition rejects_digit {A} (K : string → nat → list (nat * nat) → option A)
    : Prop :=
  ∀ c s pos caps, is_digit c = true → K (String c s) pos caps = None.

(** A text of fourteen digits in the EXIF layout. *)
Definition sample_exif_text : string :=
  exif_text "2" "0" "2" "4" "0" "2" "2" "9" "2" "3" "5" "9" "5" "9".




(** The requests sent to the geocoder. *)
Fixpoint requests (l : list event) : nat :=
  match l with
  | [] => 0
  | EvReverse _ _ :: l' => S (requests l')
  | _ :: l' => requests l'
  end.

(** The files [shutil.move] was called on. *)
Fixpoint move_sources (l : list event) : list Path :=
  match l with
  | [] => []
  | EvMove src _ :: l' => src :: move_sources l'
  | _ :: l' => move_sources l'
  end.

(** ** [main]

    The two directories [main] gives the organizer, from the resolved
    source path: the destination is [Destination] beside the source. *)
Definition main_organizer (source_path : Path) : PhotoOrganizer :=
  {| source_dir := source_path;
     destination_dir := pjoin (path_parent source_path) "Destination" |}.

(** The events with which a run on an existing source begins. *)
Definition run_start (self : PhotoOrganizer) : list event :=
  [EvPrint (MsgStart (source_dir self) (destination_dir self));
   EvMkdir (destination_dir self)].

(** The files once the destination directory is created. *)
Definition with_destination (self : PhotoOrganizer) (files : gset Path)
    : gset Path :=
  files ∪ list_to_set (ancestors (destination_dir self)).

(** A system on which no directory can be created. *)
Definition sample_env_readonly : Env := {|
  TAGS := λ _, None;
  image_getexif := λ _, NoExif;
  st_mtime := λ _, Some (DateTime 2020 2 3 4 5 6);
  geolocator_reverse := λ _ _ _, GeoRaises GeocoderTimedOut;
  mkdir_ok := λ _ _, false;
  move_ok := λ _ _ _, false;
  iterdir := λ _ _, Some [["Source"; "IMG_20230615.jpg"]];
  is_file := λ _ _, true
|}.

(** An optional separator of the date in a file name: none, or one
    character. *)
Definition opt_text (o : option ascii) : string :=
  match o with
  | Some c => String c ""
  | None => ""
  end.

(** [-] or [_], when there is a separator. *)
Definition is_sep (o : option ascii) : bool :=
  match o with
  | Some c => is_char "-" c || is_char "_" c
  | None => true
  end.

(** Eight characters in the layout year, month, day, with the optional
    separators. *)
Definition date_text (c1 c2 c3 c4 c5 c6 c7 c8 : ascii) (o1 o2 : option ascii)
    : string :=
  String c1 (String c2 (String c3 (String c4
    (opt_text o1 +:+ String c5 (String c6
      (opt_text o2 +:+ String c7 (String c8 ""))))))).

(** ** The console *)












(** A console that cannot write the name of a file, one that cannot write
    where a file went, and one that cannot write that either nor an
    error. *)
Definition sample_source_photo : Path := ["Source"; "IMG_20230615.jpg"].


Definition console_no_name : list event → message → option exn :=
  λ _ m, match m with MsgProcessing _ => Some OtherError | _ => None end.

Definition console_no_moved : list event → message → option exn :=
  λ _ m, match m with MsgMoved _ _ => Some OtherError | _ => None end.

Definition console_no_result : list event → message → option exn :=
  λ _ m,
    match m with
    | MsgMoved _ _ | MsgError _ => Some OtherError
    | _ => None
    end.


(** * Proofs *)

(** ** The model on the library's own examples

    The values are those the Python interpreter gives for the same calls. *)

Example filename_dates :
  get_date_from_filename "IMG_20230615.jpg" = Some (DateTime 2023 6 15 0 0 0)
  ∧ get_date_from_filename "2023-06_15.jpg" = Some (DateTime 2023 6 15 0 0 0)
  ∧ get_date_from_filename "20240229" = Some (DateTime 2024 2 29 0 0 0)
  ∧ get_date_from_filename "2023-0229.jpg" = None
  ∧ get_date_from_filename "00000101.jpg" = None
  ∧ get_date_from_filename "holiday.jpg" = None.
Proof. repeat split; vm_compute; reflexivity. Qed.

Example path1 : path_stem ["a"; "photo.jpg"] = "photo" ∧ path_suffix ["a"; "photo.jpg"] = ".jpg".
Proof. vm_compute. done. Qed.
Example path2 : path_stem ["a"; ".hidden"] = ".hidden" ∧ path_suffix ["a"; ".hidden"] = "".
Proof. vm_compute. done. Qed.
Example path3 : path_stem ["a"; "x."] = "x." ∧ path_suffix ["a"; "x."] = "".
Proof. vm_compute. done. Qed.
Example path4 : path_stem ["a"; "x..jpg"] = "x." ∧ path_suffix ["a"; "x..jpg"] = ".jpg".
Proof. vm_compute. done. Qed.
Example path5 : pjoin ["d"] "./x//y/." = ["d"; "x"; "y"] ∧ pjoin ["d"] "/z" = ["/"; "z"] ∧ pjoin ["d"] "" = ["d"].
Proof. vm_compute. done. Qed.
Example sp1 : strptime "2022:01:05 10:20:30" = Some (DateTime 2022 1 5 10 20 30).
Proof. vm_compute. done. Qed.
Example sp2 : strptime "2022:1:5 1:2:3" = Some (DateTime 2022 1 5 1 2 3).
Proof. vm_compute. done. Qed.
Example sp3 : strptime "2022:01:05 10:20:60" = None ∧ strptime "2022:01:05 10:20:307" = None
  ∧ strptime "2022:02:30 10:20:30" = None ∧ strptime "0000:01:01 00:00:00" = None
  ∧ strptime "2022:13:05 10:20:30" = None ∧ strptime "2022:01:05 24:00:00" = None
  ∧ strptime " 2022:01:05 10:20:30" = None ∧ strptime "2022:01:05 10:20:30 " = None.
Proof. vm_compute. done. Qed.
Example sp4 : strptime "2022:01: 5 10:20:30" = Some (DateTime 2022 1 5 10 20 30).
Proof. vm_compute. done. Qed.
Example sf1 : strftime (DateTime 2022 1 5 10 20 30) = "2022-01-05" ∧ strftime (DateTime 999 11 25 0 0 0) = "999-11-25".
Proof. vm_compute. done. Qed.

(** ** The file name parser *)

Lemma app_cons (c : ascii) (s t : string) :
  String c s +:+ t = String c (s +:+ t).
Proof. reflexivity. Qed.

Lemma re_search_cons (r : regex) (c : ascii) (s : string) :
  re_search r (String c s) =
  match re_match r (String c s) with
  | Some m => Some m
  | None => re_search r s
  end.
Proof. reflexivity. Qed.

Lemma re_search_found (r : regex) (s : string) (m : re_match_obj) :
  re_match r s = Some m → re_search r s = Some m.
Proof. intros Hm. destruct s; cbn [re_search]; by rewrite Hm. Qed.

Lemma re_search_skip (r : regex) (pre t : string) :
  (∀ i, (i < String.length pre)%nat → re_match r (skip i (pre +:+ t)) = None) →
  re_search r (pre +:+ t) = re_search r t.
Proof.
  induction pre as [|c pre IH]; intros Hnone; [done|].
  pose proof (Hnone 0%nat ltac:(cbn; lia)) as H0. cbn [skip] in H0.
  rewrite app_cons in H0 |- *. rewrite re_search_cons, H0.
  apply IH. intros i Hi. apply (Hnone (S i)). cbn. lia.
Qed.

Lemma pattern_ymd_needs_digit (c : ascii) (s : string) :
  is_digit c = false → re_match pattern_ymd (String c s) = None.
Proof.
  intros Hc. unfold re_match, pattern_ymd, digit.
  cbn [rseq rmatch rrep]. by rewrite Hc.
Qed.

Lemma pattern_8_needs_digit (c : ascii) (s : string) :
  is_digit c = false → re_match pattern_8 (String c s) = None.
Proof.
  intros Hc. unfold re_match, pattern_8, digit.
  cbn [rseq rmatch rrep]. by rewrite Hc.
Qed.

Lemma no_digit_no_match (r : regex) (pre t : string) :
  (∀ c s, is_digit c = false → re_match r (String c s) = None) →
  no_digit pre = true →
  ∀ i, (i < String.length pre)%nat → re_match r (skip i (pre +:+ t)) = None.
Proof.
  intros Hr. induction pre as [|c pre IH]; intros Hpre i Hi; cbn in Hi; [lia|].
  cbn in Hpre. apply andb_prop in Hpre as [Hc Hpre].
  destruct i as [|i]; rewrite app_cons; cbn [skip].
  - apply Hr. by destruct (is_digit c).
  - apply IH; [done|lia].
Qed.

Lemma date_from_tags_none (tags : list string) (exif_data : gmap pykey pyval) :
  (∀ tag, tag ∈ tags → exif_data !! KStr tag = None) →
  date_from_tags tags exif_data = None.
Proof.
  induction tags as [|tag tags IH]; intros Hnone; [done|].
  cbn. rewrite Hnone by left.
  apply IH. intros t Ht. apply Hnone. by right.
Qed.

Lemma get_photo_date_no_tag (E : Env) (image_path : Path)
    (exif_data : gmap pykey pyval) (d : datetime) :
  no_date_tag exif_data →
  get_date_from_filename (path_name image_path) = Some d →
  get_photo_date E image_path exif_data = Some d.
Proof.
  intros Htags Hname. unfold get_photo_date, get_date_from_exif.
  by rewrite date_from_tags_none, Hname.
Qed.

Lemma june_15_2023_leftmost (mid post : string) :
  mid ∈ june_15_2023 →
  (re_search pattern_ymd (mid +:+ post) ≫= date_of_match)
  = Some (DateTime 2023 6 15 0 0 0).
Proof.
  unfold june_15_2023. rewrite !elem_of_cons, elem_of_nil.
  intros [->|[->|[->|[]]]]; vm_compute; reflexivity.
Qed.

(** C2, as amended: a file name in which one of the texts [20230615],
    [2023-06-15], [2023_06_15] occurs, with no match of the 4/2/2 pattern
    starting to the left of that occurrence, resolves to June 15, 2023
    (at midnight) when the metadata has none of the three date tags. *)
Theorem filename_date_leftmost_june_15_2023 (E : Env) (image_path : Path)
    (exif_data : gmap pykey pyval) (pre mid post : string) :
  path_name image_path = pre +:+ mid +:+ post →
  mid ∈ june_15_2023 →
  (∀ i, (i < String.length pre)%nat →
        re_match pattern_ymd (skip i (path_name image_path)) = None) →
  no_date_tag exif_data →
  get_photo_date E image_path exif_data = Some (DateTime 2023 6 15 0 0 0).
Proof.
  intros Hname Hmid Hleft Htags.
  apply get_photo_date_no_tag; [done|].
  rewrite Hname in Hleft |- *.
  unfold get_date_from_filename, patterns. cbn [date_from_patterns].
  rewrite re_search_skip by done.
  pose proof (june_15_2023_leftmost mid post Hmid) as Hfound.
  destruct (re_search pattern_ymd (mid +:+ post)) as [m|]; [|done].
  cbn in Hfound. by rewrite Hfound.
Qed.

Lemma filename_date_leftmost_june_15_2023_witness :
  get_photo_date sample_env ["photos"; "IMG_2023-06-15_0042.jpg"] ∅
  = Some (DateTime 2023 6 15 0 0 0).
Proof.
  apply (filename_date_leftmost_june_15_2023 sample_env
           ["photos"; "IMG_2023-06-15_0042.jpg"] ∅
           "IMG_" "2023-06-15" "_0042.jpg").
  - reflexivity.
  - unfold june_15_2023. set_solver.
  - apply (no_digit_no_match pattern_ymd "IMG_" "2023-06-15_0042.jpg");
      [apply pattern_ymd_needs_digit | reflexivity].
  - intros tag _. apply lookup_empty.
Defined.

(** C2, as stated, fails: the name [19990101_20230615.jpg] contains
    [20230615] and the metadata is empty, but the leftmost match is
    [19990101] and the resolved date is January 1, 1999; in
    [120230615.jpg] the leftmost matches of both patterns are not dates,
    and the date is the modification time. *)
Lemma filename_date_counterexample :
  contains "19990101_20230615.jpg" "20230615"
  ∧ contains "120230615.jpg" "20230615"
  ∧ no_date_tag ∅
  ∧ get_photo_date sample_env ["photos"; "19990101_20230615.jpg"] ∅
    = Some (DateTime 1999 1 1 0 0 0)
  ∧ get_photo_date sample_env ["photos"; "120230615.jpg"] ∅
    = st_mtime sample_env ["photos"; "120230615.jpg"].
Proof.
  split; [by exists "19990101_", ".jpg"|].
  split; [by exists "1", ".jpg"|].
  split; [intros tag _; apply lookup_empty|].
  split; vm_compute; reflexivity.
Qed.

Lemma digit_not_space (c : ascii) : is_digit c = true → is_space c = false.
Proof.
  destruct c as [[] [] [] [] [] [] [] []]; vm_compute; congruence.
Qed.

Lemma digit_not_sep (c : ascii) :
  is_digit c = true → is_char "-" c || is_char "_" c = false.
Proof.
  destruct c as [[] [] [] [] [] [] [] []]; vm_compute; congruence.
Qed.

Lemma lstrip_digits (s : string) : all_digits s = true → lstrip s = s.
Proof.
  destruct s as [|c s]; [done|]. cbn. intros [Hc _]%andb_prop.
  by rewrite digit_not_space.
Qed.

Lemma rstrip_digits (s : string) : all_digits s = true → rstrip s = s.
Proof.
  induction s as [|c s IH]; [done|]. cbn. intros [Hc Hs]%andb_prop.
  rewrite IH by done. destruct s; [|done]. by rewrite digit_not_space.
Qed.

(** [int] of a non-empty run of digits is the number the run denotes. *)
Lemma py_int_digits (c : ascii) (s : string) :
  all_digits (String c s) = true →
  py_int (String c s) = digits_value 0 (String c s).
Proof.
  intros Hall. unfold py_int. rewrite lstrip_digits, rstrip_digits by done.
  cbn in Hall. apply andb_prop in Hall as [Hc _]. revert Hc.
  destruct c as [[] [] [] [] [] [] [] []]; vm_compute; congruence.
Qed.
Lemma run8_app c1 c2 c3 c4 c5 c6 c7 c8 rest :
  run8 c1 c2 c3 c4 c5 c6 c7 c8 +:+ rest =
  String c1 (String c2 (String c3 (String c4
    (String c5 (String c6 (String c7 (String c8 rest))))))).
Proof. reflexivity. Qed.

Lemma pattern_ymd_on_digits c1 c2 c3 c4 c5 c6 c7 c8 rest :
  all_digits (run8 c1 c2 c3 c4 c5 c6 c7 c8) = true →
  re_match pattern_ymd (run8 c1 c2 c3 c4 c5 c6 c7 c8 +:+ rest)
  = Some (ReMatch (run8 c1 c2 c3 c4 c5 c6 c7 c8 +:+ rest)
            [(0, 4); (4, 6); (6, 8)]%nat rest).
Proof.
  cbn [all_digits run8]. rewrite !andb_true_iff.
  intros (H1 & H2 & H3 & H4 & H5 & H6 & H7 & H8 & _).
  rewrite run8_app. unfold re_match, pattern_ymd, digit, sep.
  cbn [rseq rmatch rrep app].
  rewrite H1, H2, H3, H4, (digit_not_sep c5 H5), H5, H6, (digit_not_sep c7 H7), H7, H8.
  reflexivity.
Qed.

Lemma pattern_8_on_digits c1 c2 c3 c4 c5 c6 c7 c8 rest :
  all_digits (run8 c1 c2 c3 c4 c5 c6 c7 c8) = true →
  re_match pattern_8 (run8 c1 c2 c3 c4 c5 c6 c7 c8 +:+ rest)
  = Some (ReMatch (run8 c1 c2 c3 c4 c5 c6 c7 c8 +:+ rest) [(0, 8)]%nat rest).
Proof.
  cbn [all_digits run8]. rewrite !andb_true_iff.
  intros (H1 & H2 & H3 & H4 & H5 & H6 & H7 & H8 & _).
  rewrite run8_app. unfold re_match, pattern_8, digit.
  cbn [rseq rmatch rrep app].
  rewrite H1, H2, H3, H4, H5, H6, H7, H8.
  reflexivity.
Qed.

Lemma digits_value_number (cs : list ascii) (acc : Z) :
  all_digits (string_of_list_ascii cs) = true →
  digits_value acc (string_of_list_ascii cs)
  = Some (fold_left (λ a c, 10 * a + digit_value c) cs acc).
Proof.
  revert acc. induction cs as [|c cs IH]; intros acc; [done|].
  cbn. intros [Hc Hcs]%andb_prop. rewrite Hc. by apply IH.
Qed.

Lemma date_of_run8 c1 c2 c3 c4 c5 c6 c7 c8 rest sps :
  all_digits (run8 c1 c2 c3 c4 c5 c6 c7 c8) = true →
  sps = [(0, 4); (4, 6); (6, 8)]%nat ∨ sps = [(0, 8)]%nat →
  date_of_match (ReMatch (run8 c1 c2 c3 c4 c5 c6 c7 c8 +:+ rest) sps rest)
  = datetime_new (number [c1; c2; c3; c4]) (number [c5; c6]) (number [c7; c8])
      0 0 0.
Proof.
  intros Hall Hspans. pose proof Hall as Hall'.
  cbn [all_digits run8] in Hall'. rewrite !andb_true_iff in Hall'.
  destruct Hall' as (H1 & H2 & H3 & H4 & H5 & H6 & H7 & H8 & _).
  assert (Hy : py_int (String c1 (String c2 (String c3 (String c4 ""))))
               = Some (number [c1; c2; c3; c4])).
  { rewrite py_int_digits by (cbn; by rewrite H1, H2, H3, H4).
    apply (digits_value_number [c1; c2; c3; c4]). cbn. by rewrite H1, H2, H3, H4. }
  assert (Hm : py_int (String c5 (String c6 "")) = Some (number [c5; c6])).
  { rewrite py_int_digits by (cbn; by rewrite H5, H6).
    apply (digits_value_number [c5; c6]). cbn. by rewrite H5, H6. }
  assert (Hd : py_int (String c7 (String c8 "")) = Some (number [c7; c8])).
  { rewrite py_int_digits by (cbn; by rewrite H7, H8).
    apply (digits_value_number [c7; c8]). cbn. by rewrite H7, H8. }
  rewrite run8_app.
  destruct Hspans as [-> | ->]; unfold date_of_match, groups;
    cbn [spans matched_from fmap list_fmap length Nat.eqb lookup list_lookup
         slice take_str skip fst snd Nat.sub mbind option_bind];
    rewrite Hy; cbn [mbind option_bind]; rewrite Hm; cbn [mbind option_bind];
    rewrite Hd; reflexivity.
Qed.

Lemma get_date_from_filename_unfold (name : string) :
  get_date_from_filename name =
  match re_search pattern_ymd name ≫= date_of_match with
  | Some d => Some d
  | None => re_search pattern_8 name ≫= date_of_match
  end.
Proof.
  unfold get_date_from_filename, patterns. cbn [date_from_patterns].
  destruct (re_search pattern_ymd name) as [m1|]; cbn;
    [destruct (date_of_match m1); [done|]|];
    destruct (re_search pattern_8 name) as [m2|]; cbn; try done;
    by destruct (date_of_match m2).
Qed.

(** C10, as amended: the parser looks at the leftmost match of the 4/2/2
    pattern, then at the leftmost run of eight digits, and at no later
    position of either.  So when the first digit of a name starts eight
    digits that are not a calendar date, both leftmost matches are that
    run and the result is no date, whatever follows the run. *)
Theorem filename_parser_leftmost_only :
  (∀ name : string,
     get_date_from_filename name =
     match re_search pattern_ymd name ≫= date_of_match with
     | Some d => Some d
     | None => re_search pattern_8 name ≫= date_of_match
     end)
  ∧ (∀ (pre rest : string) (c1 c2 c3 c4 c5 c6 c7 c8 : ascii),
       let run := run8 c1 c2 c3 c4 c5 c6 c7 c8 in
       no_digit pre = true →
       all_digits run = true →
       valid_date (number [c1; c2; c3; c4]) (number [c5; c6])
         (number [c7; c8]) = false →
       re_search pattern_ymd (pre +:+ run +:+ rest)
       = Some (ReMatch (run +:+ rest) [(0, 4); (4, 6); (6, 8)]%nat rest)
       ∧ re_search pattern_8 (pre +:+ run +:+ rest)
         = Some (ReMatch (run +:+ rest) [(0, 8)]%nat rest)
       ∧ get_date_from_filename (pre +:+ run +:+ rest) = None).
Proof.
  split; [apply get_date_from_filename_unfold|].
  intros pre rest c1 c2 c3 c4 c5 c6 c7 c8 run Hpre Hrun Hinvalid.
  assert (H1 : re_search pattern_ymd (pre +:+ run +:+ rest)
               = Some (ReMatch (run +:+ rest) [(0, 4); (4, 6); (6, 8)]%nat rest)).
  { rewrite re_search_skip
      by (apply no_digit_no_match; [apply pattern_ymd_needs_digit|done]).
    apply re_search_found. by apply pattern_ymd_on_digits. }
  assert (H2 : re_search pattern_8 (pre +:+ run +:+ rest)
               = Some (ReMatch (run +:+ rest) [(0, 8)]%nat rest)).
  { rewrite re_search_skip
      by (apply no_digit_no_match; [apply pattern_8_needs_digit|done]).
    apply re_search_found. by apply pattern_8_on_digits. }
  split; [done|]. split; [done|].
  rewrite get_date_from_filename_unfold, H1, H2. cbn [mbind option_bind].
  unfold run in *.
  rewrite (date_of_run8 _ _ _ _ _ _ _ _ _ _ Hrun (or_introl eq_refl)).
  rewrite (date_of_run8 _ _ _ _ _ _ _ _ _ _ Hrun (or_intror eq_refl)).
  unfold datetime_new. by rewrite Hinvalid.
Qed.

Lemma filename_parser_leftmost_only_witness :
  get_date_from_filename "IMG_99999999_20230615.jpg" = None.
Proof.
  pose (nine := "9"%char).
  apply (proj2 filename_parser_leftmost_only "IMG_" "_20230615.jpg"
           nine nine nine nine nine nine nine nine); reflexivity.
Defined.

(** C10, as stated, fails: in [1234_5678_20230615.jpg] the leftmost match
    of the 4/2/2 pattern is [1234_5678], which is no date (month 56), and
    the valid date after it is found, as the leftmost run of eight digits;
    the same for [2023-13-01_20230615.jpg]. *)
Lemma filename_parser_counterexample :
  (groups <$> re_search pattern_ymd "1234_5678_20230615.jpg")
  = Some ["1234"; "56"; "78"]
  ∧ (re_search pattern_ymd "1234_5678_20230615.jpg" ≫= date_of_match) = None
  ∧ get_date_from_filename "1234_5678_20230615.jpg"
    = Some (DateTime 2023 6 15 0 0 0)
  ∧ (groups <$> re_search pattern_ymd "2023-13-01_20230615.jpg")
    = Some ["2023"; "13"; "01"]
  ∧ get_date_from_filename "2023-13-01_20230615.jpg"
    = Some (DateTime 2023 6 15 0 0 0).
Proof. repeat split; vm_compute; reflexivity. Qed.

(** ** The position decoder *)





(** *** The sign of a sum and of a quotient

    Rounding keeps the sign: the rounded mantissa of a number that is not
    negative is not negative. *)












(** *** Texts that are no numbers *)























(** C9, as stated, fails: values that are no numbers decode when [float]
    converts their components.  A triple of texts decodes like the triple
    of the numbers they spell, a text of three digits decodes digit by
    digit, a dictionary decodes by its three keys, and a rational 0/0 of
    an image file decodes to a NaN. *)
Lemma gps_non_numeric_counterexample :
  get_gps_coordinates sample_env
    {[ KStr "GPSInfo" :=
         PDict [(KInt 2, PTuple [PStr "48"; PStr "30"; PStr "0"]);
                (KInt 4, PTuple [PStr "2"; PStr "0"; PStr "36"])] ]}
  = Some (sample_lat, sample_lon)
  ∧ get_gps_coordinates sample_env
      {[ KStr "GPSInfo" :=
           PDict [(KInt 2, PStr "123");
                  (KInt 4, PDict [(KInt 1, PNone); (KInt 2, PNone);
                                  (KInt 3, PNone)])] ]}
    = Some (S754_finite false 4657472614638988 (-52),
            S754_finite false 4657472614638988 (-52))
  ∧ get_gps_coordinates sample_env
      {[ KStr "GPSInfo" :=
           PDict [(KInt 2, PTuple [PRational 0 0; PRational 30 1;
                                   PRational 0 1]);
                  (KInt 4, PTuple [PRational 2 1; PRational 0 1;
                                   PRational 36 1])] ]}
    = Some (S754_nan, sample_lon).
Proof. repeat split; vm_compute; reflexivity. Qed.

(** ** Unique file names *)

Lemma no_slash_app (a b : string) :
  no_slash (a +:+ b) = no_slash a && no_slash b.
Proof.
  induction a as [|c a IH]; [done|].
  rewrite app_cons. cbn [no_slash]. rewrite IH. by destruct (is_char "/" c).
Qed.

Lemma no_slash_skip (n : nat) (s : string) :
  no_slash s = true → no_slash (skip n s) = true.
Proof.
  revert s. induction n as [|n IH]; intros [|c s]; cbn; try done.
  intros [_ Hs]%andb_prop. by apply IH.
Qed.

Lemma no_slash_take_str (n : nat) (s : string) :
  no_slash s = true → no_slash (take_str n s) = true.
Proof.
  revert s. induction n as [|n IH]; intros [|c s]; cbn; try done.
  intros [-> Hs]%andb_prop. by apply IH.
Qed.

Lemma no_slash_pretty_N_go (x : N) (s : string) :
  no_slash s = true → no_slash (pretty_N_go x s) = true.
Proof.
  revert s. induction (N.lt_wf_0 x) as [x _ IH]; intros s Hs.
  destruct (decide (x = 0)%N) as [->|Hx]; [by rewrite pretty_N_go_0|].
  rewrite pretty_N_go_step by lia. apply IH.
  - apply N.div_lt; lia.
  - cbn [no_slash]. rewrite Hs, andb_true_r.
    unfold pretty_N_char. by repeat case_match.
Qed.

Lemma no_slash_pretty (k : nat) : no_slash (pretty k) = true.
Proof.
  unfold pretty, pretty_nat, pretty, pretty_N.
  case_decide; [done|]. by apply no_slash_pretty_N_go.
Qed.

Lemma split_slash_no_slash (s : string) :
  no_slash s = true → split_slash s = [s].
Proof.
  induction s as [|c s IH]; [done|]. cbn.
  intros [Hc Hs]%andb_prop. apply negb_true_iff in Hc.
  by rewrite Hc, IH.
Qed.

Lemma str_length_app (a b : string) :
  String.length (a +:+ b) = (String.length a + String.length b)%nat.
Proof. induction a as [|c a IH]; [done|]. rewrite app_cons. cbn. by rewrite IH. Qed.

Lemma str_app_inj_r (a b s : string) : a +:+ s = b +:+ s → a = b.
Proof.
  revert b. induction a as [|c a IH]; intros [|d b] Heq; [done| | |].
  - apply (f_equal String.length) in Heq.
    rewrite !str_length_app in Heq. cbn in Heq. lia.
  - apply (f_equal String.length) in Heq.
    rewrite !str_length_app in Heq. cbn in Heq. lia.
  - rewrite !app_cons in Heq. injection Heq as -> Heq. f_equal. by apply IH.
Qed.

Lemma take_skip (n : nat) (s : string) : take_str n s +:+ skip n s = s.
Proof.
  revert s. induction n as [|n IH]; intros [|c s]; try done.
  cbn [take_str skip]. rewrite app_cons. by rewrite IH.
Qed.

(** [stem + suffix == name] *)
Lemma stem_suffix (p : Path) : path_stem p +:+ path_suffix p = path_name p.
Proof.
  unfold path_stem, path_suffix. destruct (suffix_index (path_name p)).
  - apply take_skip.
  - induction (path_name p) as [|c s IH]; [done|]. rewrite app_cons. by rewrite IH.
Qed.

Lemma no_slash_stem_suffix (p : Path) :
  no_slash (path_name p) = true →
  no_slash (path_stem p) = true ∧ no_slash (path_suffix p) = true.
Proof.
  intros Hname. rewrite <- stem_suffix, no_slash_app in Hname.
  by apply andb_prop in Hname.
Qed.

Lemma keep_part_underscore (a b : string) :
  keep_part (a +:+ "_" +:+ b) = true.
Proof.
  unfold keep_part. destruct a as [|c a]; [done|].
  rewrite app_cons. cbn. by destruct (Ascii.eqb c "."), a.
Qed.

Lemma is_absolute_no_slash (a b : string) :
  no_slash a = true → is_absolute (a +:+ "_" +:+ b) = false.
Proof.
  destruct a as [|c a]; [done|]. rewrite app_cons. cbn.
  intros [Hc _]%andb_prop. by apply negb_true_iff in Hc.
Qed.

Lemma candidate_eq (p : Path) (k : nat) :
  no_slash (path_name p) = true →
  candidate p k = path_parent p ++ [new_name p k].
Proof.
  intros Hname. destruct (no_slash_stem_suffix p Hname) as [Hstem Hsuffix].
  unfold candidate, pjoin, new_name.
  rewrite is_absolute_no_slash by done. f_equal.
  unfold parts_of. rewrite split_slash_no_slash.
  - cbn. by rewrite keep_part_underscore.
  - by rewrite !no_slash_app, Hstem, Hsuffix, no_slash_pretty.
Qed.

Lemma candidate_inj (p : Path) (j k : nat) :
  no_slash (path_name p) = true → candidate p j = candidate p k → j = k.
Proof.
  intros Hname. rewrite !candidate_eq by done.
  intros Heq%app_inv_head. injection Heq as Heq. unfold new_name in Heq.
  do 2 apply String.app_inj in Heq.
  apply str_app_inj_r in Heq. by apply (inj pretty) in Heq.
Qed.

Lemma no_slash_ne_slash (s : string) :
  no_slash s = true → (s =? "/")%string = false.
Proof.
  intros Hs. apply String.eqb_neq. by intros ->.
Qed.

Lemma no_slash_new_name (p : Path) (k : nat) :
  no_slash (path_name p) = true → no_slash (new_name p k) = true.
Proof.
  intros Hname. destruct (no_slash_stem_suffix p Hname) as [Hstem Hsuffix].
  unfold new_name. by rewrite !no_slash_app, Hstem, Hsuffix, no_slash_pretty.
Qed.

Lemma candidate_name (p : Path) (k : nat) :
  no_slash (path_name p) = true → path_name (candidate p k) = new_name p k.
Proof.
  intros Hname. rewrite candidate_eq by done. unfold path_name.
  replace (is_root (path_parent p ++ [new_name p k])) with false.
  - by rewrite last_last.
  - destruct (path_parent p) as [|r [|]]; [|done..]. cbn.
    by rewrite no_slash_ne_slash by by apply no_slash_new_name.
Qed.

Lemma candidate_ne (p : Path) (k : nat) :
  no_slash (path_name p) = true → candidate p k ≠ p.
Proof.
  intros Hname Heq. pose proof (candidate_name p k Hname) as Hn.
  rewrite Heq in Hn. apply (f_equal String.length) in Hn.
  rewrite <- stem_suffix in Hn. unfold new_name in Hn.
  rewrite !str_length_app in Hn. cbn in Hn. lia.
Qed.

Lemma unique_loop_step (fuel : nat) (files : gset Path) (p path : Path)
    (counter : nat) :
  unique_loop (S fuel) files (path_parent p) (path_stem p) (path_suffix p)
    path counter =
  if decide (path ∈ files) then
    unique_loop fuel files (path_parent p) (path_stem p) (path_suffix p)
      (candidate p counter) (S counter)
  else Some path.
Proof. reflexivity. Qed.

(** Enough fuel: [remaining] holds the paths that can still collide. *)
Lemma unique_loop_candidates (p : Path) (files : gset Path) (fuel : nat) :
  no_slash (path_name p) = true →
  ∀ (remaining : gset Path) (c : nat),
    (∀ j, (c ≤ j)%nat → candidate p j ∈ files → candidate p j ∈ remaining) →
    (size remaining < fuel)%nat →
    ∃ k, (c ≤ k)%nat
      ∧ unique_loop fuel files (path_parent p) (path_stem p) (path_suffix p)
          (candidate p c) (S c) = Some (candidate p k)
      ∧ (candidate p k ∉ files)
      ∧ ∀ j, (c ≤ j)%nat ∧ (j < k)%nat → candidate p j ∈ files.
Proof.
  intros Hname. induction fuel as [|fuel IH]; intros remaining c Hrem Hsize;
    [lia|].
  rewrite unique_loop_step. case_decide as Hin.
  - destruct (IH (remaining ∖ {[candidate p c]}) (S c)) as (k & Hk & Hloop & Hfree & Hbelow).
    + intros j Hj Hjin. apply elem_of_difference. split; [apply Hrem; [lia|done]|].
      rewrite elem_of_singleton. intros Heq%candidate_inj; [lia|done].
    + assert (candidate p c ∈ remaining) by (apply Hrem; [lia|done]).
      assert (size remaining ≠ 0%nat).
      { apply size_non_empty_iff. set_solver. }
      rewrite size_difference, size_singleton by set_solver. lia.
    + exists k. split; [lia|]. split; [done|]. split; [done|].
      intros j Hj. destruct (decide (j = c)) as [->|]; [done|]. apply Hbelow. lia.
  - exists c. split; [lia|]. split; [done|]. split; [done|]. intros j Hj. lia.
Qed.

Lemma get_unique_filename_spec (files : gset Path) (p : Path) :
  no_slash (path_name p) = true →
  ∃ r, get_unique_filename files p = Some r
    ∧ (r ∉ files)
    ∧ (p ∉ files → r = p)
    ∧ (p ∈ files →
       ∃ k, (1 ≤ k)%nat ∧ r = candidate p k
         ∧ ∀ j, (1 ≤ j)%nat ∧ (j < k)%nat → candidate p j ∈ files).
Proof.
  intros Hname. unfold get_unique_filename. case_decide as Hin.
  - change (2 + size files)%nat with (S (S (size files))).
    rewrite unique_loop_step. rewrite decide_True by done.
    destruct (unique_loop_candidates p files (S (size files)) Hname files 1)
      as (k & Hk & Hloop & Hfree & Hbelow); [done|lia|].
    exists (candidate p k). split; [done|]. split; [done|]. split; [done|].
    intros _. by exists k.
  - exists p. split; [done|]. split; [done|]. split; [done|]. done.
Qed.

(** The result is determined by the first free new name. *)
Lemma get_unique_filename_at (files : gset Path) (p : Path) (k : nat) :
  no_slash (path_name p) = true →
  p ∈ files → (1 ≤ k)%nat → candidate p k ∉ files →
  (∀ j, (1 ≤ j)%nat ∧ (j < k)%nat → candidate p j ∈ files) →
  get_unique_filename files p = Some (candidate p k).
Proof.
  intros Hname Hin Hk Hfree Hbelow.
  destruct (get_unique_filename_spec files p Hname)
    as (r & -> & Hr & _ & Hcoll).
  destruct (Hcoll Hin) as (k' & Hk' & -> & Hbelow').
  destruct (lt_eq_lt_dec k k') as [[Hlt| ->]|Hgt]; [|done|].
  - destruct Hfree. apply Hbelow'. lia.
  - destruct Hr. apply Hbelow. lia.
Qed.

(** C3: for a path whose name is a single component, the generator gives
    a path at which nothing exists: the path itself when it is free, and
    otherwise the first of stem_1, stem_2, ... (the suffix put before the
    extension, in the same folder) that is free.  With a folder that has
    none of the three names, the first file keeps its name, a second file
    of the same name gets stem_1 and a third gets stem_2. *)
Theorem get_unique_filename_first_free (files : gset Path) (p : Path) :
  no_slash (path_name p) = true →
  ∃ r, get_unique_filename files p = Some r
    ∧ (r ∉ files)
    ∧ (p ∉ files → r = p)
    ∧ (p ∈ files →
       ∃ k, (1 ≤ k)%nat ∧ r = candidate p k
         ∧ r = path_parent p
               ++ [path_stem p +:+ "_" +:+ pretty k +:+ path_suffix p]
         ∧ ∀ j, (1 ≤ j)%nat ∧ (j < k)%nat → candidate p j ∈ files)
    ∧ (p ∉ files → candidate p 1 ∉ files → candidate p 2 ∉ files →
       get_unique_filename ({[p]} ∪ files) p = Some (candidate p 1)
       ∧ get_unique_filename ({[candidate p 1]} ∪ ({[p]} ∪ files)) p
         = Some (candidate p 2)).
Proof.
  intros Hname.
  destruct (get_unique_filename_spec files p Hname)
    as (r & Hget & Hr & Hfree & Hcoll).
  exists r. split; [done|]. split; [done|]. split; [done|]. split.
  - intros Hin. destruct (Hcoll Hin) as (k & Hk & -> & Hbelow).
    exists k. split; [done|]. split; [done|]. split; [|done].
    by apply candidate_eq.
  - intros Hp H1 H2.
    pose proof (candidate_ne p 1 Hname) as Hne1.
    pose proof (candidate_ne p 2 Hname) as Hne2.
    assert (candidate p 2 ≠ candidate p 1) as Hne21.
    { intros Heq%candidate_inj; [lia|done]. }
    split.
    + apply get_unique_filename_at; [done| |lia| |].
      * apply elem_of_union_l. by apply elem_of_singleton.
      * rewrite elem_of_union, elem_of_singleton. by intros [?|?].
      * intros j Hj. lia.
    + apply get_unique_filename_at; [done| |lia| |].
      * apply elem_of_union_r, elem_of_union_l. by apply elem_of_singleton.
      * rewrite !elem_of_union, !elem_of_singleton. by intros [?|[?|?]].
      * intros j Hj. replace j with 1%nat by lia.
        apply elem_of_union_l. by apply elem_of_singleton.
Qed.

Lemma get_unique_filename_first_free_witness :
  ∃ r, get_unique_filename sample_files sample_photo = Some r
    ∧ (r ∉ sample_files)
    ∧ r = ["Destination"; "2023-06-15 - Inconnu"; "photo_2.jpg"].
Proof.
  destruct (get_unique_filename_first_free sample_files sample_photo)
    as (r & Hget & Hr & _); [reflexivity|].
  exists r. split; [exact Hget|]. split; [exact Hr|].
  vm_compute in Hget. by injection Hget as <-.
Defined.

(** ** One file *)

Lemma process_photo_run (E : Env) (self : PhotoOrganizer) (image_path : Path)
    (w : World) :
  process_photo E self image_path w = process_photo_result E self image_path w.
Proof.
  unfold process_photo, process_photo_result, process_photo_try,
    resolve_events, destination_folder, city_step, request_log, head_log,
    get_exif_data, exif_of, exif_msgs, get_city_from_coordinates, mkdir,
    shutil_move, unique_filename, try_except, lift_option, bind, print, emit,
    ret, raise, get_world, set_fs, incr_processed, incr_error, mk_world.
  destruct (image_getexif E image_path); cbn;
    (destruct (get_photo_date E image_path _) as [date|]; cbn;
       [|by rewrite <- ?app_assoc]);
    (destruct (get_gps_coordinates E _) as [[lat lon]|]; cbn;
       [rewrite <- ?app_assoc; cbn;
        destruct (geolocator_reverse E _ lat lon) as [[]| |[address|]]; cbn;
        try destruct (bool_decide (address = ∅)); cbn|]);
    rewrite <- ?app_assoc; cbn;
    (destruct (mkdir_ok E _ _); cbn; [|by rewrite <- ?app_assoc]);
    (destruct (get_unique_filename _ _) as [dst|]; cbn;
       [|by rewrite <- ?app_assoc]);
    destruct (move_ok E _ _ _); cbn; by rewrite <- ?app_assoc.
Qed.

Lemma split_slash_parts (s : string) :
  Forall (λ part, no_slash part = true) (split_slash s)
  ∧ split_slash s ≠ [].
Proof.
  induction s as [|c s [IH Hne]]; [by repeat constructor|]. cbn.
  destruct (is_char "/" c) eqn:Hc; [by split; [constructor|]|].
  destruct (split_slash s) as [|part parts]; [done|].
  split; [|done]. inversion_clear IH. constructor; [|done].
  cbn. by rewrite Hc.
Qed.

Lemma parts_of_no_slash (s : string) :
  Forall (λ part, no_slash part = true) (parts_of s).
Proof.
  unfold parts_of. destruct (split_slash_parts s) as [Hall _].
  induction Hall as [|part parts Hpart Hall IH]; [constructor|]. cbn.
  destruct (keep_part part); [by constructor|done].
Qed.

Lemma last_no_slash (parts : list string) :
  Forall (λ part, no_slash part = true) parts →
  no_slash (List.last parts "") = true.
Proof.
  induction 1 as [|part parts Hpart Hall IH]; [done|].
  destruct parts; [done|]. exact IH.
Qed.

Lemma is_root_app (X parts : list string) :
  Forall (λ part, no_slash part = true) parts → parts ≠ [] →
  is_root (X ++ parts) = false.
Proof.
  intros Hall Hne. destruct X as [|x [|]]; [|by destruct parts..].
  destruct Hall as [|part [|] Hpart _]; [done| |done].
  cbn. by apply no_slash_ne_slash.
Qed.

Lemma last_app_ne (X parts : list string) :
  parts ≠ [] → List.last (X ++ parts) "" = List.last parts "".
Proof.
  intros Hne. destruct (exists_last Hne) as (front & z & ->).
  by rewrite app_assoc, !last_last.
Qed.

(** The name of a joined path is a single component. *)
Lemma path_name_pjoin (X : Path) (s : string) :
  parts_of s ≠ [] ∨ no_slash (path_name X) = true →
  no_slash (path_name (pjoin X s)) = true.
Proof.
  intros Hcase. pose proof (parts_of_no_slash s) as Hall. unfold pjoin.
  destruct (parts_of s) as [|part parts] eqn:Hparts.
  - destruct Hcase as [?|HX]; [done|].
    destruct (is_absolute s); [done|]. by rewrite app_nil_r.
  - assert (part :: parts ≠ []) as Hne by done.
    destruct (is_absolute s).
    + change ("/" :: part :: parts) with (["/"] ++ part :: parts).
      unfold path_name. rewrite is_root_app, last_app_ne by done.
      by apply last_no_slash.
    + unfold path_name. rewrite is_root_app, last_app_ne by done.
      by apply last_no_slash.
Qed.

Lemma split_slash_kept (a : string) (c : ascii) (t : string) :
  is_char "/" c = false → is_char "." c = false →
  Exists (λ part, keep_part part = true) (split_slash (a +:+ String c t)).
Proof.
  intros Hslash Hdot. induction a as [|x a IH].
  - change ("" +:+ String c t) with (String c t). cbn. rewrite Hslash.
    destruct (split_slash_parts t) as [_ Hne].
    destruct (split_slash t) as [|part parts]; [done|].
    left. unfold keep_part. cbn.
    replace (Ascii.eqb c ".") with false; [done|].
    symmetry. apply Ascii.eqb_neq. intros ->. by vm_compute in Hdot.
  - rewrite app_cons. cbn. destruct (is_char "/" x); [by right|].
    destruct (split_slash (a +:+ String c t)) as [|part parts];
      [by inversion IH|].
    inversion_clear IH as [? ? Hkept|? ? Hkept]; [left|by right].
    unfold keep_part in *. cbn. destruct part; [done|].
    by destruct (Ascii.eqb x ".").
Qed.

Lemma parts_of_folder_name (date_str city : string) :
  parts_of (date_str +:+ " - " +:+ city) ≠ [].
Proof.
  unfold parts_of.
  pose proof (split_slash_kept date_str " " ("- " +:+ city) eq_refl eq_refl)
    as Hkept.
  change (String " " ("- " +:+ city)) with (" - " +:+ city) in Hkept.
  induction Hkept as [part parts Hpart|part parts _ IH]; cbn.
  - by rewrite Hpart.
  - by destruct (keep_part part).
Qed.

(** Every destination path that [process_photo] builds has a name of one
    component: [get_unique_filename] terminates on it. *)
Lemma destination_path_unique (X : Path) (date_str city name : string)
    (files : gset Path) :
  ∃ dst, get_unique_filename files
           (pjoin (pjoin X (date_str +:+ " - " +:+ city)) name) = Some dst
    ∧ dst ∉ files.
Proof.
  destruct (get_unique_filename_spec files
              (pjoin (pjoin X (date_str +:+ " - " +:+ city)) name))
    as (r & Hr & Hfree & _); [|by exists r].
  apply path_name_pjoin. right. apply path_name_pjoin. left.
  apply parts_of_folder_name.
Qed.

(** ** The log of a call *)

Lemma attempted_app (l1 l2 : list event) :
  attempted (l1 ++ l2) = (attempted l1 + attempted l2)%nat.
Proof.
  induction l1 as [|e l1 IH]; [done|].
  destruct e as [[]| | | |]; cbn; by rewrite ?IH.
Qed.

Lemma no_request_app (l1 l2 : list event) :
  no_request (l1 ++ l2) = no_request l1 && no_request l2.
Proof.
  induction l1 as [|e l1 IH]; [done|]. by destruct e.
Qed.

Lemma throttled_from_weaken (b : bool) (l : list event) :
  throttled_from false l = true → throttled_from b l = true.
Proof. destruct l as [|[]]; cbn; try done. Qed.

Lemma throttled_from_app (b : bool) (l1 l2 : list event) :
  throttled_from b l1 = true → throttled_from false l2 = true →
  throttled_from b (l1 ++ l2) = true.
Proof.
  revert b. induction l1 as [|e l1 IH]; intros b H1 H2.
  - by apply throttled_from_weaken.
  - destruct e; cbn in *; try by apply IH.
    apply andb_prop in H1 as [-> H1]. by apply IH.
Qed.

Lemma no_request_throttled (b : bool) (l : list event) :
  no_request l = true → throttled_from b l = true.
Proof.
  revert b. induction l as [|e l IH]; intros b Hl; [done|].
  destruct e; cbn in *; try done; by apply IH.
Qed.

Lemma exif_msgs_quiet (E : Env) (p : Path) :
  attempted (exif_msgs E p) = 0%nat ∧ no_request (exif_msgs E p) = true.
Proof. unfold exif_msgs. by destruct (image_getexif E p). Qed.

Lemma response_msgs_quiet (r : geo_response) :
  attempted (response_msgs r) = 0%nat ∧ no_request (response_msgs r) = true.
Proof. by destruct r as [[]| |]. Qed.

Lemma city_step_events (E : Env) (p : Path) (l : list event) (date : datetime) :
  attempted (city_step E p l date).2 = 0%nat
  ∧ throttled_from false (city_step E p l date).2 = true
  ∧ (get_gps_coordinates E (exif_of E p) = None →
     no_request (city_step E p l date).2 = true).
Proof.
  unfold city_step.
  destruct (get_gps_coordinates E (exif_of E p)) as [[lat lon]|]; [|done].
  cbn [snd]. destruct (response_msgs_quiet
    (geolocator_reverse E (request_log E p l date lat lon) lat lon)) as [Ha Hq].
  split; [|split; [|done]].
  - by rewrite attempted_app, Ha.
  - cbn. by apply no_request_throttled.
Qed.

Lemma resolve_events_facts (E : Env) (self : PhotoOrganizer) (p : Path)
    (l : list event) (date : datetime) (tail : list event) :
  attempted tail = 0%nat → no_request tail = true →
  attempted (resolve_events E self p l date ++ tail) = 1%nat
  ∧ throttled_from false (resolve_events E self p l date ++ tail) = true
  ∧ (get_gps_coordinates E (exif_of E p) = None →
     no_request (resolve_events E self p l date ++ tail) = true).
Proof.
  intros Htail Hquiet. unfold resolve_events.
  destruct (exif_msgs_quiet E p) as [Ha1 Hq1].
  destruct (city_step_events E p l date) as (Ha2 & Ht2 & Hq2).
  split; [|split].
  - repeat (cbn [app attempted]; rewrite ?attempted_app).
    by rewrite Ha1, Ha2, Htail.
  - cbn [app throttled_from]. rewrite <- !app_assoc.
    apply throttled_from_app; [by apply no_request_throttled|].
    cbn [app throttled_from]. rewrite <- app_assoc.
    apply throttled_from_app; [done|].
    cbn [app throttled_from]. by apply no_request_throttled.
  - intros Hgps. repeat (cbn [app no_request]; rewrite ?no_request_app).
    by rewrite Hq1, (Hq2 Hgps), Hquiet.
Qed.

(** What a call adds to the log: one file attempted, every request right
    after its delay, and no request for a file without a coordinate. *)
Lemma process_photo_segment (E : Env) (self : PhotoOrganizer) (p : Path)
    (w : World) :
  ∃ seg, log (process_photo E self p w).2 = log w ++ seg
    ∧ attempted seg = 1%nat
    ∧ throttled_from false seg = true
    ∧ (get_gps_coordinates E (exif_of E p) = None → no_request seg = true).
Proof.
  rewrite process_photo_run. unfold process_photo_result.
  destruct (get_photo_date E p (exif_of E p)) as [date|].
  - destruct (mkdir_ok E (fs w) _);
      [destruct (get_unique_filename _ _) as [dst|];
         [destruct (move_ok E _ p dst)|]|];
      cbn [snd log mk_world]; rewrite <- ?app_assoc;
      eexists; (split; [reflexivity|]);
      try (apply resolve_events_facts; reflexivity).
    rewrite <- (app_nil_r (resolve_events _ _ _ _ _)).
    apply resolve_events_facts; reflexivity.
  - cbn [snd log mk_world]. unfold head_log. rewrite <- app_assoc.
    eexists. split; [reflexivity|].
    destruct (exif_msgs_quiet E p) as [Ha Hq]. cbn.
    rewrite attempted_app, no_request_app, Ha, Hq. cbn.
    split; [done|]. split; [|done].
    apply throttled_from_app; by apply no_request_throttled.
Qed.

(** ** The two terminal states *)

Lemma process_photo_outcome (E : Env) (self : PhotoOrganizer) (p : Path)
    (w : World) :
  ∃ w', process_photo E self p w = (Ok tt, w')
    ∧ (moved p w w' ∨ failed w w').
Proof.
  rewrite process_photo_run. unfold process_photo_result.
  destruct (get_photo_date E p (exif_of E p)) as [date|].
  - destruct (mkdir_ok E (fs w) _).
    + unfold destination_folder.
      destruct (destination_path_unique (destination_dir self) (strftime date)
                  (city_step E p (log w) date).1 (path_name p)
                  (fs w ∪ list_to_set
                     (ancestors (pjoin (destination_dir self)
                        (strftime date +:+ " - "
                           +:+ (city_step E p (log w) date).1)))))
        as (dst & Hdst & Hfree).
      rewrite Hdst.
      destruct (move_ok E _ p dst).
      * eexists. split; [reflexivity|]. left.
        split; [done|]. split; [done|].
        eexists dst, _. split; [apply union_subseteq_l|].
        split; [exact Hfree|]. split; [reflexivity|].
        by eexists _, _.
      * eexists. split; [reflexivity|]. right.
        split; [done|]. split; [done|].
        split; [apply union_subseteq_l|].
        cbn [log mk_world].
        exists (log w ++ resolve_events E self p (log w) date
                  ++ [EvMove p dst]), OSError.
        by rewrite <- !app_assoc.
    + eexists. split; [reflexivity|]. right.
      split; [done|]. split; [done|]. split; [done|]. by eexists _, _.
  - eexists. split; [reflexivity|]. right.
    split; [done|]. split; [done|]. split; [done|]. by eexists _, _.
Qed.

(** ** A run *)

Lemma outcome_counts (p : Path) (w w' : World) :
  moved p w w' ∨ failed w w' →
  (processed_count w' + error_count w'
   = S (processed_count w + error_count w))%nat.
Proof. intros [(-> & -> & _)|(-> & -> & _)]; lia. Qed.

Lemma process_all_run (E : Env) (self : PhotoOrganizer)
    (photo_files : list Path) (w : World) :
  ∃ w' seg,
    process_all E self photo_files w = (Ok tt, w')
    ∧ (processed_count w' + error_count w'
       = processed_count w + error_count w + length photo_files)%nat
    ∧ log w' = log w ++ seg
    ∧ attempted seg = length photo_files
    ∧ throttled_from false seg = true.
Proof.
  revert w. induction photo_files as [|p photo_files IH]; intros w.
  - exists w, []. cbn. rewrite app_nil_r. repeat split; lia.
  - destruct (process_photo_outcome E self p w) as (w1 & Hrun & Hout).
    destruct (process_photo_segment E self p w) as (seg1 & Hlog1 & Ha1 & Ht1 & _).
    rewrite Hrun in Hlog1. cbn [snd] in Hlog1.
    destruct (IH w1) as (w' & seg & Hall & Hcount & Hlog & Ha & Ht).
    exists w', (seg1 ++ seg). cbn [process_all]. unfold bind at 1.
    rewrite Hrun, Hall. split; [done|].
    pose proof (outcome_counts p w w1 Hout). cbn [length].
    split; [lia|]. split; [by rewrite Hlog, Hlog1, app_assoc|].
    split; [rewrite attempted_app; lia|]. by apply throttled_from_app.
Qed.

(** What a run does, from any world: it never runs out of fuel; the two
    counters grow together by the number of files it attempted, which is
    the number of photos listed when the run ends normally from an
    existing source directory, and zero otherwise. *)
Lemma organize_photos_run (E : Env) (self : PhotoOrganizer) (w : World) :
  ∃ r w' seg,
    organize_photos E self w = (r, w')
    ∧ r ≠ OutOfFuel
    ∧ log w' = log w ++ seg
    ∧ (processed_count w' + error_count w'
       = processed_count w + error_count w + attempted seg)%nat
    ∧ throttled_from false seg = true
    ∧ attempted seg =
        match r with
        | Ok _ =>
            if decide (source_dir self ∈ fs w)
            then length (listed_photos E self (fs w)) else 0%nat
        | _ => 0%nat
        end.
Proof.
  unfold organize_photos, listed_photos.
  unfold bind at 1. unfold print at 1, emit at 1. cbn [fs log].
  unfold bind at 1. unfold get_world at 1. cbn [fs log].
  destruct (decide (source_dir self ∈ fs w)) as [Hsrc|Hsrc].
  - rewrite bool_decide_eq_true_2 by done. cbn [negb].
    unfold bind at 1, mkdir at 1, bind at 1, emit at 1. cbn [fs log].
    unfold bind at 1, get_world at 1. cbn [fs log].
    destruct (mkdir_ok E (fs w) (destination_dir self)).
    + unfold set_fs at 1. cbn [fs log processed_count error_count].
      unfold bind at 1, get_world at 1. cbn [fs log].
      destruct (iterdir E _ (source_dir self)) as [listing|].
      * unfold bind at 1, lift_option at 1, ret at 1.
        remember (List.filter _ listing) as photos eqn:Hphotos.
        destruct photos as [|p rest].
        -- cbn [length Nat.eqb]. unfold print, emit.
           cbn [fs log processed_count error_count].
           eexists _, _, _. split; [reflexivity|]. split; [done|].
           cbn [log]. rewrite <- !app_assoc. split; [reflexivity|].
           repeat split; cbn; lia.
        -- cbn [length Nat.eqb].
           unfold bind at 1, print at 1, emit at 1.
           cbn [fs log processed_count error_count].
           unfold bind at 1.
           match goal with |- context [process_all E self _ ?w0] =>
             destruct (process_all_run E self (p :: rest) w0)
               as (w1 & seg & -> & Hcount & Hlog & Ha & Ht)
           end.
           cbn [fs log processed_count error_count length] in *.
           unfold bind, get_world, print, emit.
           eexists _, _, _. split; [reflexivity|]. split; [done|].
           cbn [log processed_count error_count]. rewrite Hlog, <- !app_assoc.
           split; [reflexivity|]. cbn [app attempted].
           rewrite !attempted_app. cbn [attempted].
           split; [lia|]. split; [|lia].
           cbn [throttled_from]. apply throttled_from_app; [done|done].
      * unfold bind, lift_option, raise.
        eexists _, _, _. split; [reflexivity|]. split; [done|].
        cbn [log]. rewrite <- !app_assoc. split; [reflexivity|].
        repeat split; cbn; lia.
    + unfold raise. eexists _, _, _. split; [reflexivity|]. split; [done|].
      cbn [log]. rewrite <- !app_assoc. split; [reflexivity|].
      repeat split; cbn; lia.
  - rewrite bool_decide_eq_false_2 by done. cbn [negb].
    unfold print, emit. cbn [fs log processed_count error_count].
    eexists _, _, _. split; [reflexivity|]. split; [done|].
    cbn [log]. rewrite <- !app_assoc. split; [reflexivity|].
    repeat split; cbn; lia.
Qed.

(** ** The delay before a request *)

Lemma no_request_not_in (l : list event) (lat lon : float) :
  no_request l = true → EvReverse lat lon ∉ l.
Proof.
  induction l as [|e l IH]; intros Hl; [apply not_elem_of_nil|].
  apply not_elem_of_cons. destruct e; cbn in Hl; try done; by split; [|apply IH].
Qed.

Lemma throttled_from_delay (b : bool) (l l1 l2 : list event) (lat lon : float) :
  throttled_from b l = true →
  l = l1 ++ EvReverse lat lon :: l2 →
  (l1 = [] ∧ b = true) ∨ ∃ l0, l1 = l0 ++ [EvSleep 1].
Proof.
  revert b l. induction l1 as [|e l1 IH]; intros b l Hl ->.
  - left. cbn in Hl. by apply andb_prop in Hl as [-> _].
  - right.
    assert (∃ b', throttled_from b' (l1 ++ EvReverse lat lon :: l2) = true
                  ∧ (b' = true → e = EvSleep 1)) as (b' & Hb' & He).
    { destruct e as [m|n|a c|q|src dst]; cbn in Hl.
      - by exists false.
      - exists (n =? 1)%nat. split; [done|].
        by intros ->%Nat.eqb_eq.
      - apply andb_prop in Hl as [_ Hl]. by exists false.
      - by exists false.
      - by exists false. }
    destruct (IH b' _ Hb' eq_refl) as [[-> Htrue]|(l0 & ->)].
    + exists []. by rewrite (He Htrue).
    + by exists (e :: l0).
Qed.

Lemma sleep_seconds_app (l1 l2 : list event) :
  sleep_seconds (l1 ++ l2) = (sleep_seconds l1 + sleep_seconds l2)%nat.
Proof.
  induction l1 as [|e l1 IH]; [done|]. destruct e; cbn; rewrite ?IH; lia.
Qed.

Lemma throttled_delay (l : list event) :
  throttled_from false l = true → delay_before_each_request l.
Proof.
  intros Hl l1 l2 lat lon Heq.
  by destruct (throttled_from_delay false l l1 l2 lat lon Hl Heq) as [[_ ?]|?].
Qed.

Lemma delay_gives_gap (l : list event) :
  delay_before_each_request l → one_second_between_requests l.
Proof.
  intros Hdelay l1 l2 l3 lat lon lat' lon' Heq.
  destruct (Hdelay (l1 ++ EvReverse lat lon :: l2) l3 lat' lon') as (l0 & Hl0).
  { by rewrite Heq, <- app_assoc. }
  destruct l2 as [|e l2 _] using rev_ind.
  - change (l1 ++ [EvReverse lat lon] = l0 ++ [EvSleep 1]) in Hl0.
    by apply app_inj_tail in Hl0 as [_ ?].
  - rewrite app_comm_cons, app_assoc in Hl0.
    apply app_inj_tail in Hl0 as [_ ->].
    rewrite sleep_seconds_app. cbn. lia.
Qed.

(** C7: for a file without a coordinate the place name is the fallback
    label, with no request to the geocoder and no delay; and in a run each
    request to the geocoder comes right after a delay of one second, so
    the program sleeps at least a second between two requests. *)
Theorem geocoder_throttled (E : Env) (self : PhotoOrganizer) :
  (∀ (p : Path) (w : World),
     get_gps_coordinates E (exif_of E p) = None →
     (∀ l date, city_step E p l date = ("Inconnu", [EvPrint MsgNoGps]))
     ∧ ∃ w' seg, process_photo E self p w = (Ok tt, w')
         ∧ log w' = log w ++ seg
         ∧ ∀ lat lon n, (EvReverse lat lon ∉ seg) ∧ (EvSleep n ∉ seg))
  ∧ (∀ (w : World) (r : result unit) (w' : World),
       organize_photos E self w = (r, w') →
       ∃ seg, log w' = log w ++ seg
         ∧ delay_before_each_request seg
         ∧ one_second_between_requests seg).
Proof.
  split.
  - intros p w Hgps. split.
    { intros l date. unfold city_step. by rewrite Hgps. }
    destruct (process_photo_outcome E self p w) as (w' & Hrun & _).
    destruct (process_photo_segment E self p w) as (seg & Hlog & _ & _ & Hquiet).
    rewrite Hrun in Hlog. exists w', seg. split; [done|]. split; [done|].
    specialize (Hquiet Hgps). clear -Hquiet.
    intros lat lon n. induction seg as [|e seg IH].
    + split; apply not_elem_of_nil.
    + destruct e; cbn in Hquiet; try done;
        destruct (IH Hquiet); split; apply not_elem_of_cons; by split.
  - intros w r w' Hrun.
    destruct (organize_photos_run E self w)
      as (r0 & w0 & seg & Hrun0 & _ & Hlog & _ & Ht & _).
    rewrite Hrun in Hrun0. injection Hrun0 as <- <-.
    exists seg. split; [done|].
    pose proof (throttled_delay seg Ht) as Hdelay.
    split; [done|]. by apply delay_gives_gap.
Qed.

Lemma geocoder_throttled_witness :
  let run := organize_photos sample_env_gps sample_organizer
               (init_world sample_source) in
  delay_before_each_request (log run.2)
  ∧ EvReverse sample_lat sample_lon ∈ log run.2
  ∧ ∃ w', process_photo sample_env sample_organizer
            ["Source"; "IMG_20230615.jpg"] (init_world sample_source)
          = (Ok tt, w')
        ∧ ∀ lat lon, EvReverse lat lon ∉ log w'.
Proof.
  intros run. split; [|split].
  - destruct (proj2 (geocoder_throttled sample_env_gps sample_organizer)
                (init_world sample_source) run.1 run.2 (surjective_pairing _))
      as (seg & Hlog & Hdelay & _).
    cbn [init_world log app] in Hlog. by rewrite Hlog.
  - vm_compute. do 7 right. left.
  - destruct (proj1 (geocoder_throttled sample_env sample_organizer)
                ["Source"; "IMG_20230615.jpg"] (init_world sample_source)
                eq_refl)
      as (_ & w' & seg & Hrun & Hlog & Hnone).
    exists w'. split; [exact Hrun|].
    cbn [init_world log app] in Hlog. rewrite Hlog.
    intros lat lon. exact (proj1 (Hnone lat lon O)).
Defined.

(** ** A missing source directory *)

(** C8: when the source directory does not exist, the run prints that it
    is missing and returns: no file is attempted, the files and the two
    counters are as before, and the destination is not created. *)
Theorem missing_source_stops_run (E : Env) (self : PhotoOrganizer) (w : World) :
  source_dir self ∉ fs w →
  ∃ w', organize_photos E self w = (Ok tt, w')
    ∧ log w' = log w ++ [EvPrint (MsgStart (source_dir self) (destination_dir self));
                         EvPrint (MsgSourceMissing (source_dir self))]
    ∧ attempted (log w') = attempted (log w)
    ∧ fs w' = fs w
    ∧ processed_count w' = processed_count w
    ∧ error_count w' = error_count w.
Proof.
  intros Hsrc. unfold organize_photos.
  unfold bind at 1. unfold print at 1, emit at 1. cbn [fs log].
  unfold bind at 1. unfold get_world at 1. cbn [fs log].
  rewrite bool_decide_eq_false_2 by done. cbn [negb].
  unfold print, emit. cbn [fs log processed_count error_count].
  eexists. split; [reflexivity|]. cbn [fs log processed_count error_count].
  rewrite <- app_assoc. split; [done|]. rewrite attempted_app. cbn.
  repeat split; lia.
Qed.

Lemma missing_source_stops_run_witness :
  ∃ w', organize_photos sample_env_gps sample_organizer (init_world ∅)
        = (Ok tt, w')
    ∧ attempted (log w') = 0%nat
    ∧ fs w' = ∅
    ∧ processed_count w' = 0%nat ∧ error_count w' = 0%nat
    ∧ EvPrint (MsgSourceMissing ["Source"]) ∈ log w'.
Proof.
  destruct (missing_source_stops_run sample_env_gps sample_organizer
              (init_world ∅))
    as (w' & Hrun & Hlog & Hatt & Hfs & Hp & He); [apply not_elem_of_empty|].
  exists w'. split; [exact Hrun|]. repeat split; try done.
  rewrite Hlog. cbn. right. left.
Defined.

(** ** The fallback place name *)

Lemma no_slash_pretty_Z (z : Z) : no_slash (pretty z) = true.
Proof.
  destruct z as [|x|x]; [done| |].
  - by apply no_slash_pretty_N_go.
  - change (pretty (Z.neg x)) with ("-" +:+ pretty (N.pos x)).
    rewrite no_slash_app. by apply no_slash_pretty_N_go.
Qed.

Lemma no_slash_pad2 (n : Z) : no_slash (pad2 n) = true.
Proof.
  unfold pad2. destruct (n <? 10); [|apply no_slash_pretty_Z].
  rewrite no_slash_app. apply no_slash_pretty_Z.
Qed.

Lemma no_slash_strftime (d : datetime) : no_slash (strftime d) = true.
Proof.
  unfold strftime.
  by rewrite !no_slash_app, no_slash_pretty_Z, !no_slash_pad2.
Qed.

Lemma keep_part_mid (a : string) (c : ascii) (b : string) :
  is_char "." c = false → keep_part (a +:+ String c b) = true.
Proof.
  intros Hc. unfold keep_part. destruct a as [|x a].
  - change ("" +:+ String c b) with (String c b). cbn.
    replace (Ascii.eqb c ".") with false; [done|].
    symmetry. apply Ascii.eqb_neq. intros ->. by vm_compute in Hc.
  - rewrite app_cons. cbn. by destruct (Ascii.eqb x "."), a.
Qed.

Lemma is_absolute_mid (a : string) (c : ascii) (b : string) :
  no_slash a = true → is_char "/" c = false →
  is_absolute (a +:+ String c b) = false.
Proof.
  destruct a as [|x a]; [done|]. rewrite app_cons. cbn.
  intros [Hx _]%andb_prop _. by apply negb_true_iff in Hx.
Qed.

(** Joining a single component appends it. *)
Lemma pjoin_single (X : Path) (s : string) :
  no_slash s = true → keep_part s = true → pjoin X s = X ++ [s].
Proof.
  intros Hs Hkeep. unfold pjoin, parts_of.
  rewrite split_slash_no_slash by done. cbn. rewrite Hkeep.
  destruct s as [|c s]; [done|]. cbn in *.
  apply andb_prop in Hs as [Hc _]. apply negb_true_iff in Hc. by rewrite Hc.
Qed.

Lemma fallback_folder (X : Path) (d : datetime) :
  pjoin X (strftime d +:+ " - " +:+ "Inconnu")
  = X ++ [strftime d +:+ " - Inconnu"].
Proof.
  change (" - " +:+ "Inconnu") with (" - Inconnu").
  apply pjoin_single.
  - by rewrite no_slash_app, no_slash_strftime.
  - by apply (keep_part_mid (strftime d) " " "- Inconnu").
Qed.

Lemma path_parent_app (X : Path) (x : string) :
  X ≠ [] → path_parent (X ++ [x]) = X ∧ path_name (X ++ [x]) = x.
Proof.
  intros HX. unfold path_parent, path_name.
  replace (is_root (X ++ [x])) with false
    by (by destruct X as [|? [|]]).
  by rewrite removelast_last, last_last.
Qed.

Lemma fallback_city (r : geo_response) :
  fallback_response r → city_of_response r = "Inconnu".
Proof.
  intros [[e ->]|[->|[->|(address & -> & Hnone)]]]; try done.
  cbn. case_bool_decide; [done|].
  unfold city_of_address, get_nonempty.
  by rewrite !Hnone by (unfold priority_fields; set_solver).
Qed.

Lemma resolve_events_city (E : Env) (self : PhotoOrganizer) (p : Path)
    (l : list event) (date : datetime) :
  EvPrint (MsgCity (city_step E p l date).1) ∈ resolve_events E self p l date
  ∧ EvMkdir (destination_folder E self p l date) ∈ resolve_events E self p l date.
Proof.
  unfold resolve_events.
  split; apply elem_of_cons; right; rewrite !elem_of_app; do 3 right;
    rewrite !elem_of_cons; auto.
Qed.

(** C1, as amended: when a file has no coordinate, when the geocoder
    raises, or when its answer has none of the priority address fields,
    the place name is the fallback label, which is "Inconnu", and the
    folder the file goes to is named "{date} - Inconnu" in the destination
    directory. *)
Theorem fallback_place_name (E : Env) (self : PhotoOrganizer) (p : Path)
    (w : World) (date : datetime) :
  get_photo_date E p (exif_of E p) = Some date →
  get_gps_coordinates E (exif_of E p) = None
  ∨ (∃ lat lon,
       get_gps_coordinates E (exif_of E p) = Some (lat, lon)
       ∧ fallback_response
           (geolocator_reverse E (request_log E p (log w) date lat lon)
              lat lon)) →
  let folder_name := strftime date +:+ " - Inconnu" in
  let folder := destination_dir self ++ [folder_name] in
  (city_step E p (log w) date).1 = "Inconnu"
  ∧ ∃ w' seg,
      process_photo E self p w = (Ok tt, w')
      ∧ log w' = log w ++ seg
      ∧ EvPrint (MsgCity "Inconnu") ∈ seg
      ∧ EvMkdir folder ∈ seg
      ∧ (moved p w w' →
         ∃ dst, dst ∈ fs w'
           ∧ List.last seg (EvSleep 0)
             = EvPrint (MsgMoved folder_name (path_name dst))
           ∧ (no_slash (path_name p) = true → keep_part (path_name p) = true →
              path_parent dst = folder)).
Proof.
  intros Hdate Hcase folder_name folder.
  assert (Hcity : (city_step E p (log w) date).1 = "Inconnu").
  { unfold city_step. destruct Hcase as [->|(lat & lon & -> & Hresp)]; [done|].
    cbn [fst]. by apply fallback_city. }
  split; [done|].
  assert (Hfolder : destination_folder E self p (log w) date = folder).
  { unfold destination_folder. rewrite Hcity. apply fallback_folder. }
  destruct (resolve_events_city E self p (log w) date) as [Hin1 Hin2].
  rewrite Hcity in Hin1. rewrite Hfolder in Hin2.
  rewrite process_photo_run. unfold process_photo_result. rewrite Hdate.
  cbn zeta. rewrite Hfolder.
  destruct (mkdir_ok E (fs w) folder).
  - pose proof (destination_path_unique (destination_dir self) (strftime date)
                  "Inconnu" (path_name p)
                  (fs w ∪ list_to_set (ancestors folder))) as Huniq.
    rewrite fallback_folder in Huniq. fold folder_name folder in Huniq.
    destruct Huniq as (dst & Hdst & Hfree). rewrite Hdst.
    destruct (move_ok E _ p dst).
    + eexists _, _. split; [reflexivity|]. cbn [log mk_world fs].
      rewrite <- app_assoc. split; [reflexivity|].
      split; [apply elem_of_app; by left|].
      split; [apply elem_of_app; by left|].
      intros _. exists dst.
      split; [apply elem_of_union_r; by apply elem_of_singleton|]. split.
      * change [EvMove p dst; ?e] with ([EvMove p dst] ++ [e]).
        rewrite app_assoc, (last_last _ _ (EvSleep 0)).
        replace (path_name folder) with folder_name; [done|].
        symmetry. unfold folder.
        destruct (destination_dir self) as [|x X].
        -- unfold path_name. cbn.
           replace (folder_name =? "/")%string with false; [done|].
           symmetry. apply no_slash_ne_slash. unfold folder_name.
           by rewrite no_slash_app, no_slash_strftime.
        -- by apply path_parent_app.
      * intros Hname Hkeep. rewrite pjoin_single in Hdst by done.
        assert (folder ≠ []) as Hne by (unfold folder; by destruct (destination_dir self)).
        destruct (path_parent_app folder (path_name p) Hne) as [Hparent Hpname].
        destruct (get_unique_filename_spec
                    (fs w ∪ list_to_set (ancestors folder))
                    (folder ++ [path_name p]))
          as (r & Hr & _ & Hsame & Hcand); [by rewrite Hpname|].
        rewrite Hdst in Hr. injection Hr as <-.
        destruct (decide (folder ++ [path_name p]
                          ∈ fs w ∪ list_to_set (ancestors folder))) as [Hin|Hin].
        -- destruct (Hcand Hin) as (k & _ & -> & _).
           rewrite candidate_eq, Hparent by by rewrite Hpname.
           by apply path_parent_app.
        -- by rewrite (Hsame Hin).
    + eexists _, _. split; [reflexivity|]. cbn [log mk_world fs].
      rewrite <- app_assoc. split; [reflexivity|].
      split; [apply elem_of_app; by left|].
      split; [apply elem_of_app; by left|].
      intros (Hp & _). cbn in Hp. lia.
  - eexists _, _. split; [reflexivity|]. cbn [log mk_world fs].
    rewrite <- app_assoc. split; [reflexivity|].
    split; [apply elem_of_app; by left|].
    split; [apply elem_of_app; by left|].
    intros (Hp & _). cbn in Hp. lia.
Qed.

Lemma fallback_place_name_witness :
  ∃ w', process_photo sample_env_gps sample_organizer
          ["Source"; "IMG_20230615.jpg"] (init_world sample_source)
        = (Ok tt, w')
    ∧ EvPrint (MsgCity "Inconnu") ∈ log w'
    ∧ EvMkdir ["Destination"; "2023-06-15 - Inconnu"] ∈ log w'.
Proof.
  destruct (fallback_place_name sample_env_gps sample_organizer
              ["Source"; "IMG_20230615.jpg"] (init_world sample_source)
              (DateTime 2023 6 15 0 0 0))
    as (_ & w' & seg & Hrun & Hlog & Hcity & Hmkdir & _).
  - reflexivity.
  - right. eexists _, _. split; [reflexivity|].
    left. by exists GeocoderTimedOut.
  - exists w'. split; [exact Hrun|].
    cbn [init_world log app] in Hlog. rewrite Hlog. split; assumption.
Defined.

(** C1, as stated, fails: the label is "Inconnu", not "Unknown".  For a
    file with a position and a geocoder that times out, and for a file
    without a position, the folder made and moved to is
    [2023-06-15 - Inconnu]; no folder [2023-06-15 - Unknown] exists
    afterwards. *)
Lemma fallback_unknown_counterexample :
  let photo := ["Source"; "IMG_20230615.jpg"] in
  let timed_out := process_photo sample_env_gps sample_organizer photo
                     (init_world sample_source) in
  let no_position := process_photo sample_env sample_organizer photo
                       (init_world sample_source) in
  geolocator_reverse sample_env_gps [] sample_lat sample_lon
  = GeoRaises GeocoderTimedOut
  ∧ log timed_out.2 =
      [EvPrint (MsgProcessing "IMG_20230615.jpg");
       EvPrint (MsgDate "2023-06-15");
       EvPrint (MsgGps sample_lat sample_lon);
       EvSleep 1;
       EvReverse sample_lat sample_lon;
       EvPrint (MsgGeocodeError GeocoderTimedOut);
       EvPrint (MsgCity "Inconnu");
       EvMkdir ["Destination"; "2023-06-15 - Inconnu"];
       EvMove photo ["Destination"; "2023-06-15 - Inconnu"; "IMG_20230615.jpg"];
       EvPrint (MsgMoved "2023-06-15 - Inconnu" "IMG_20230615.jpg")]
  ∧ get_gps_coordinates sample_env (exif_of sample_env photo) = None
  ∧ log no_position.2 =
      [EvPrint (MsgProcessing "IMG_20230615.jpg");
       EvPrint (MsgDate "2023-06-15");
       EvPrint MsgNoGps;
       EvPrint (MsgCity "Inconnu");
       EvMkdir ["Destination"; "2023-06-15 - Inconnu"];
       EvMove photo ["Destination"; "2023-06-15 - Inconnu"; "IMG_20230615.jpg"];
       EvPrint (MsgMoved "2023-06-15 - Inconnu" "IMG_20230615.jpg")]
  ∧ elements (fs timed_out.2) =
      [["Destination"; "2023-06-15 - Inconnu"]; ["Destination"];
       ["Destination"; "2023-06-15 - Inconnu"; "IMG_20230615.jpg"]; ["Source"]]
  ∧ (["Destination"; "2023-06-15 - Unknown"] ∉ fs timed_out.2)
  ∧ (["Destination"; "2023-06-15 - Unknown"] ∉ fs no_position.2).
Proof.
  intros photo timed_out no_position.
  split; [reflexivity|]. split; [vm_compute; reflexivity|].
  split; [reflexivity|]. split; [vm_compute; reflexivity|].
  split; [vm_compute; reflexivity|].
  split; apply (bool_decide_unpack _); vm_compute; reflexivity.
Qed.

(** * Further properties of the code *)

(** ** The EXIF date text *)

Lemma digit_cases (c : ascii) :
  is_digit c = true →
  c ∈ ["0"; "1"; "2"; "3"; "4"; "5"; "6"; "7"; "8"; "9"]%char.
Proof.
  destruct c as [[] [] [] [] [] [] [] []]; vm_compute; try congruence;
    intros _; repeat (first [by left | right]).
Qed.

Ltac digit_cases_on a Ha :=
  let H := fresh in
  pose proof (digit_cases a Ha) as H;
  repeat (apply elem_of_cons in H as [->|H]); [..|by apply elem_of_nil in H].

Ltac field_cases a b Ha Hb HK :=
  digit_cases_on a Ha; digit_cases_on b Hb;
  vm_compute; rewrite ?HK by reflexivity;
  try reflexivity;
  match goal with |- context [match ?x with _ => _ end] => by destruct x end.

Lemma directive_m_spec {A} (a b : ascii) (rest : string) (pos : nat)
    (caps : list (nat * nat)) (K : string → nat → list (nat * nat) → option A) :
  is_digit a = true → is_digit b = true → rejects_digit K →
  rmatch directive_m (String a (String b rest)) pos caps K =
  if (1 <=? number [a; b]) && (number [a; b] <=? 12)
  then K rest (S (S pos)) (caps ++ [(pos, S (S pos))]) else None.
Proof. intros Ha Hb HK. field_cases a b Ha Hb HK. Qed.

Lemma directive_d_spec {A} (a b : ascii) (rest : string) (pos : nat)
    (caps : list (nat * nat)) (K : string → nat → list (nat * nat) → option A) :
  is_digit a = true → is_digit b = true → rejects_digit K →
  rmatch directive_d (String a (String b rest)) pos caps K =
  if (1 <=? number [a; b]) && (number [a; b] <=? 31)
  then K rest (S (S pos)) (caps ++ [(pos, S (S pos))]) else None.
Proof. intros Ha Hb HK. field_cases a b Ha Hb HK. Qed.

Lemma directive_H_spec {A} (a b : ascii) (rest : string) (pos : nat)
    (caps : list (nat * nat)) (K : string → nat → list (nat * nat) → option A) :
  is_digit a = true → is_digit b = true → rejects_digit K →
  rmatch directive_H (String a (String b rest)) pos caps K =
  if number [a; b] <=? 23
  then K rest (S (S pos)) (caps ++ [(pos, S (S pos))]) else None.
Proof. intros Ha Hb HK. field_cases a b Ha Hb HK. Qed.

Lemma directive_M_spec {A} (a b : ascii) (rest : string) (pos : nat)
    (caps : list (nat * nat)) (K : string → nat → list (nat * nat) → option A) :
  is_digit a = true → is_digit b = true → rejects_digit K →
  rmatch directive_M (String a (String b rest)) pos caps K =
  if number [a; b] <=? 59
  then K rest (S (S pos)) (caps ++ [(pos, S (S pos))]) else None.
Proof. intros Ha Hb HK. field_cases a b Ha Hb HK. Qed.

(** The last field: what the pattern leaves is refused afterwards. *)
Lemma directive_S_spec (a b : ascii) (pos : nat) (caps : list (nat * nat))
    (text : string) :
  is_digit a = true → is_digit b = true →
  rmatch directive_S (String a (String b "")) pos caps
    (λ rest _ caps', Some (ReMatch text caps' rest)) =
  if number [a; b] <=? 61
  then Some (ReMatch text (caps ++ [(pos, S (S pos))]) "")
  else Some (ReMatch text (caps ++ [(pos, S pos)]) (String b "")).
Proof.
  intros Ha Hb. digit_cases_on a Ha; digit_cases_on b Hb; reflexivity.
Qed.

Lemma directive_Y_spec {A} (a b c d : ascii) (rest : string) (pos : nat)
    (caps : list (nat * nat)) (K : string → nat → list (nat * nat) → option A) :
  is_digit a = true → is_digit b = true → is_digit c = true →
  is_digit d = true →
  rmatch directive_Y (String a (String b (String c (String d rest)))) pos caps K
  = K rest (S (S (S (S pos)))) (caps ++ [(pos, S (S (S (S pos))))]).
Proof.
  intros Ha Hb Hc Hd. unfold directive_Y, digit. cbn [rmatch rrep].
  by rewrite Ha, Hb, Hc, Hd.
Qed.

Lemma rlit_spec {A} (c : ascii) (s : string) (pos : nat)
    (caps : list (nat * nat)) (K : string → nat → list (nat * nat) → option A) :
  rmatch (RLit c) (String c s) pos caps K = K s (S pos) caps.
Proof. unfold RLit, is_char. cbn [rmatch]. by rewrite N.eqb_refl. Qed.

Lemma digit_code_ne (c x : ascii) :
  is_digit c = false → is_digit x = true → is_char c x = false.
Proof.
  intros Hc Hx. unfold is_char.
  destruct (code c =? code x)%N eqn:Heq; [|done].
  apply N.eqb_eq in Heq. unfold code in Heq.
  apply (f_equal ascii_of_N) in Heq. rewrite !ascii_N_embedding in Heq.
  congruence.
Qed.

Lemma rlit_rejects_digit {A} (c : ascii)
    (K : string → nat → list (nat * nat) → option A) :
  is_digit c = false →
  rejects_digit (λ s pos caps, rmatch (RLit c) s pos caps K).
Proof.
  intros Hc x s pos caps Hx. unfold RLit. cbn [rmatch].
  by rewrite digit_code_ne.
Qed.

Lemma space_rejects_digit {A} (K : string → nat → list (nat * nat) → option A) :
  rejects_digit
    (λ s pos caps, plus_class is_space s pos (λ s' pos', K s' pos' caps)).
Proof.
  intros x s pos caps Hx. cbn [plus_class].
  by rewrite (digit_not_space x Hx).
Qed.

Lemma space_then_digit {A} (c : ascii) (s : string) (pos : nat)
    (K : string → nat → option A) :
  is_digit c = true →
  plus_class is_space (String " " (String c s)) pos K
  = K (String c s) (S pos).
Proof.
  intros Hc. cbn [plus_class].
  replace (is_space " ") with true by reflexivity.
  by rewrite (digit_not_space c Hc).
Qed.

Lemma py_int_number (cs : list ascii) :
  cs ≠ [] → all_digits (string_of_list_ascii cs) = true →
  py_int (string_of_list_ascii cs) = Some (number cs).
Proof.
  intros Hne Hall. destruct cs as [|c cs]; [done|].
  cbn [string_of_list_ascii] in *. rewrite py_int_digits by done.
  by apply (digits_value_number (c :: cs)).
Qed.

Lemma strptime_exif_text (y1 y2 y3 y4 m1 m2 d1 d2 h1 h2 mi1 mi2 s1 s2 : ascii) :
  forallb is_digit [y1; y2; y3; y4; m1; m2; d1; d2; h1; h2; mi1; mi2; s1; s2]
    = true →
  strptime (exif_text y1 y2 y3 y4 m1 m2 d1 d2 h1 h2 mi1 mi2 s1 s2)
  = datetime_new (number [y1; y2; y3; y4]) (number [m1; m2]) (number [d1; d2])
      (number [h1; h2]) (number [mi1; mi2]) (number [s1; s2]).
Proof.
  cbn [forallb]. rewrite !andb_true_iff.
  intros (Hy1 & Hy2 & Hy3 & Hy4 & Hm1 & Hm2 & Hd1 & Hd2 & Hh1 & Hh2
          & Hi1 & Hi2 & Hs1 & Hs2 & _).
  assert (Hy : py_int (String y1 (String y2 (String y3 (String y4 ""))))
               = Some (number [y1; y2; y3; y4])).
  { apply (py_int_number [y1; y2; y3; y4]); [done|]. cbn.
    by rewrite Hy1, Hy2, Hy3, Hy4. }
  assert (Hpair : ∀ a b, is_digit a = true → is_digit b = true →
            py_int (String a (String b "")) = Some (number [a; b])).
  { intros a b Ha Hb. apply (py_int_number [a; b]); [done|]. cbn.
    by rewrite Ha, Hb. }
  assert (Hinvalid : ∀ y m d h mi s,
            negb ((1 <=? m) && (m <=? 12)) || negb ((1 <=? d) && (d <=? 31))
            || negb (h <=? 23) || negb (mi <=? 59) || negb (s <=? 61) = true →
            datetime_new y m d h mi s = None).
  { intros y m d h mi s Hbad. unfold datetime_new.
    destruct (valid_date y m d && valid_time h mi s) eqn:Hv; [|done].
    exfalso. unfold valid_date, valid_time, days_in_month in Hv.
    repeat match type of Hv with context [if ?c then _ else _] =>
      destruct c end;
    rewrite ?andb_true_iff, ?orb_true_iff, ?negb_true_iff, ?andb_false_iff,
      ?Z.leb_le, ?Z.leb_gt in *; lia. }
  unfold strptime, re_match, exif_format, exif_text.
  cbn [string_of_list_ascii rseq]. cbn [rmatch].
  rewrite directive_Y_spec by done. rewrite rlit_spec.
  rewrite directive_m_spec by (done || by apply rlit_rejects_digit).
  destruct ((1 <=? number [m1; m2]) && (number [m1; m2] <=? 12)) eqn:Hm;
    [|by rewrite Hinvalid by (by rewrite Hm)].
  rewrite rlit_spec.
  rewrite directive_d_spec by (done || apply space_rejects_digit).
  destruct ((1 <=? number [d1; d2]) && (number [d1; d2] <=? 31)) eqn:Hd;
    [|by rewrite Hinvalid by (by rewrite Hd, ?orb_true_r)].
  rewrite space_then_digit by done.
  rewrite directive_H_spec by (done || by apply rlit_rejects_digit).
  destruct (number [h1; h2] <=? 23) eqn:Hh;
    [|by rewrite Hinvalid by (by rewrite Hh, ?orb_true_r)].
  rewrite rlit_spec.
  rewrite directive_M_spec by (done || by apply rlit_rejects_digit).
  destruct (number [mi1; mi2] <=? 59) eqn:Hmi;
    [|by rewrite Hinvalid by (by rewrite Hmi, ?orb_true_r)].
  rewrite rlit_spec. cbn [rmatch].
  rewrite (directive_S_spec s1 s2 _ _ _ Hs1 Hs2).
  destruct (number [s1; s2] <=? 61) eqn:Hs;
    [|by rewrite Hinvalid by (by rewrite Hs, ?orb_true_r)].
  cbn [mbind option_bind rest_after String.eqb negb groups spans matched_from
       fmap list_fmap app slice take_str skip fst snd Nat.sub].
  rewrite Hy, !Hpair by done. reflexivity.
Qed.

Lemma get_date_from_exif_order (exif_data : gmap pykey pyval) :
  get_date_from_exif exif_data =
    match tag_date exif_data "DateTimeOriginal" with
    | Some d => Some d
    | None =>
        match tag_date exif_data "DateTime" with
        | Some d => Some d
        | None => tag_date exif_data "DateTimeDigitized"
        end
    end.
Proof.
  unfold get_date_from_exif, date_tags, tag_date. cbn [date_from_tags].
  repeat match goal with
  | |- context [exif_data !! KStr ?t] =>
      destruct (exif_data !! KStr t) as [?v|]; cbn [mbind option_bind]
  | |- context [py_str ?v ≫= strptime] =>
      destruct (py_str v ≫= strptime); cbn [mbind option_bind]
  end; reflexivity.
Qed.

Lemma strptime_needs_year (text : string) :
  year_prefix text = false → strptime text = None.
Proof.
  intros Hprefix. unfold strptime.
  assert (re_match exif_format text = None) as ->; [|done].
  unfold re_match, exif_format, directive_Y, digit, RLit.
  cbn [rseq rmatch rrep].
  destruct text as [|a [|b [|c [|d [|e rest]]]]]; cbn [rmatch];
    try done;
    try (by destruct (is_digit a));
    try (by destruct (is_digit a), (is_digit b));
    try (by destruct (is_digit a), (is_digit b), (is_digit c));
    try (by destruct (is_digit a), (is_digit b), (is_digit c), (is_digit d)).
  cbn [year_prefix] in Hprefix.
  destruct (is_digit a); [|done]. destruct (is_digit b); [|done].
  destruct (is_digit c); [|done]. destruct (is_digit d); [|done].
  cbn [andb] in Hprefix. by rewrite Hprefix.
Qed.

(** C5: the three tags are tried in the order DateTimeOriginal, DateTime,
    DateTimeDigitized, and the first one that gives a date wins.  The
    value of a tag is parsed with the EXIF pattern: a text of fourteen
    digits in the layout YYYY:MM:DD HH:MM:SS gives the date and time of
    its fields when these are a calendar date and a time of day, and no
    date otherwise; a value that is no text, or a text that does not begin
    with four digits and a colon, gives no date.  A tag that is missing or
    gives no date passes to the next one.  A mapping with
    DateTimeOriginal = "2022:01:05 10:20:30" resolves to January 5, 2022
    (10:20:30), whatever the path of the file and the environment (the
    modification time) are. *)
Theorem exif_date_priority (exif_data : gmap pykey pyval) :
  get_date_from_exif exif_data =
    match tag_date exif_data "DateTimeOriginal" with
    | Some d => Some d
    | None =>
        match tag_date exif_data "DateTime" with
        | Some d => Some d
        | None => tag_date exif_data "DateTimeDigitized"
        end
    end
  ∧ (∀ (tag : string)
       (y1 y2 y3 y4 m1 m2 d1 d2 h1 h2 mi1 mi2 s1 s2 : ascii),
       forallb is_digit
         [y1; y2; y3; y4; m1; m2; d1; d2; h1; h2; mi1; mi2; s1; s2] = true →
       exif_data !! KStr tag
         = Some (PStr (exif_text y1 y2 y3 y4 m1 m2 d1 d2 h1 h2 mi1 mi2 s1 s2)) →
       tag_date exif_data tag
       = datetime_new (number [y1; y2; y3; y4]) (number [m1; m2])
           (number [d1; d2]) (number [h1; h2]) (number [mi1; mi2])
           (number [s1; s2]))
  ∧ (∀ (tag : string) (value : pyval),
       exif_data !! KStr tag = Some value →
       (∀ text, value = PStr text → year_prefix text = false) →
       tag_date exif_data tag = None)
  ∧ (∀ tag : string,
       exif_data !! KStr tag = None → tag_date exif_data tag = None)
  ∧ (exif_data !! KStr "DateTimeOriginal" = Some (PStr "2022:01:05 10:20:30") →
     ∀ (E : Env) (image_path : Path),
       get_photo_date E image_path exif_data
       = Some (DateTime 2022 1 5 10 20 30)).
Proof.
  split; [apply get_date_from_exif_order|]. split; [|split; [|split]].
  - intros tag y1 y2 y3 y4 m1 m2 d1 d2 h1 h2 mi1 mi2 s1 s2 Hdigits Htag.
    unfold tag_date. rewrite Htag. cbn [mbind option_bind py_str].
    by apply strptime_exif_text.
  - intros tag value Htag Hvalue. unfold tag_date. rewrite Htag.
    cbn [mbind option_bind]. destruct value as [| | | |text| |]; try done.
    cbn [py_str mbind option_bind]. by apply strptime_needs_year, Hvalue.
  - intros tag Htag. unfold tag_date. by rewrite Htag.
  - intros Htag E image_path.
    unfold get_photo_date, get_date_from_exif, date_tags. cbn [date_from_tags].
    rewrite Htag. reflexivity.
Qed.

Lemma exif_date_priority_witness :
  get_photo_date sample_env ["photos"; "IMG_20230615.jpg"]
    {[ KStr "DateTimeOriginal" := PStr "2022:01:05 10:20:30";
       KStr "DateTime" := PStr "2021:12:31 23:59:59" ]}
  = Some (DateTime 2022 1 5 10 20 30)
  ∧ get_date_from_exif
      {[ KStr "DateTimeOriginal" := PStr "15/06/2023 10:20";
         KStr "DateTime" := PStr "2021:12:31 23:59:59" ]}
    = Some (DateTime 2021 12 31 23 59 59).
Proof.
  split.
  - apply (proj2 (proj2 (proj2 (proj2 (exif_date_priority _))))).
    reflexivity.
  - destruct (exif_date_priority
                {[ KStr "DateTimeOriginal" := PStr "15/06/2023 10:20";
                   KStr "DateTime" := PStr "2021:12:31 23:59:59" ]})
      as (-> & Hlayout & Hfail & _).
    rewrite (Hfail "DateTimeOriginal" (PStr "15/06/2023 10:20") eq_refl)
      by (by intros text [= <-]).
    pose (zero := "0"%char). pose (one := "1"%char). pose (two := "2"%char).
    pose (three := "3"%char). pose (five := "5"%char). pose (nine := "9"%char).
    by rewrite (Hlayout "DateTime" two zero two one one two three one
                  two three five nine five nine eq_refl eq_refl).
Defined.

(** X1: a DateTimeOriginal tag whose text is fourteen digits in the layout
    YYYY:MM:DD HH:MM:SS gives exactly that date and time when they are a
    calendar date (year 1 to 9999, leap years counted) and a time of day
    up to 23:59:59; otherwise the tag is passed over and the two other
    tags are tried. *)
Theorem exif_original_text (exif_data : gmap pykey pyval)
    (y1 y2 y3 y4 m1 m2 d1 d2 h1 h2 mi1 mi2 s1 s2 : ascii) :
  forallb is_digit [y1; y2; y3; y4; m1; m2; d1; d2; h1; h2; mi1; mi2; s1; s2]
    = true →
  exif_data !! KStr "DateTimeOriginal"
    = Some (PStr (exif_text y1 y2 y3 y4 m1 m2 d1 d2 h1 h2 mi1 mi2 s1 s2)) →
  get_date_from_exif exif_data =
    match datetime_new (number [y1; y2; y3; y4]) (number [m1; m2])
            (number [d1; d2]) (number [h1; h2]) (number [mi1; mi2])
            (number [s1; s2]) with
    | Some date => Some date
    | None =>
        match tag_date exif_data "DateTime" with
        | Some date => Some date
        | None => tag_date exif_data "DateTimeDigitized"
        end
    end.
Proof.
  intros Hdigits Htag. rewrite get_date_from_exif_order.
  unfold tag_date at 1. rewrite Htag. cbn [mbind option_bind py_str].
  by rewrite strptime_exif_text.
Qed.

Lemma exif_original_text_witness :
  get_date_from_exif {[ KStr "DateTimeOriginal" := PStr sample_exif_text ]}
  = Some (DateTime 2024 2 29 23 59 59).
Proof.
  rewrite (exif_original_text _ "2" "0" "2" "4" "0" "2" "2" "9"
             "2" "3" "5" "9" "5" "9"); reflexivity.
Defined.

(** ** The dates the resolver gives *)

Lemma datetime_new_Some (y m d h mi s : Z) (date : datetime) :
  datetime_new y m d h mi s = Some date →
  date = DateTime y m d h mi s
  ∧ valid_date y m d = true ∧ valid_time h mi s = true.
Proof.
  unfold datetime_new.
  destruct (valid_date y m d) eqn:Hd, (valid_time h mi s) eqn:Ht; try done.
  by intros [= <-].
Qed.

Lemma strptime_valid (text : string) (date : datetime) :
  strptime text = Some date →
  valid_date (year date) (month date) (day date) = true
  ∧ valid_time (hour date) (minute date) (second date) = true.
Proof.
  unfold strptime. destruct (re_match exif_format text) as [found|]; [|done].
  cbn [mbind option_bind].
  destruct (negb (rest_after found =? "")%string); [done|].
  destruct (groups found) as [|gY [|gm [|gd [|gH [|gM [|gS [|]]]]]]]; try done.
  destruct (py_int gY) as [y|]; [|done]. destruct (py_int gm) as [mo|]; [|done].
  destruct (py_int gd) as [dd|]; [|done]. destruct (py_int gH) as [h|]; [|done].
  destruct (py_int gM) as [mi|]; [|done]. destruct (py_int gS) as [ss|]; [|done].
  cbn [mbind option_bind]. by intros (-> & ? & ?)%datetime_new_Some.
Qed.

Lemma date_of_match_valid (m : re_match_obj) (date : datetime) :
  date_of_match m = Some date →
  valid_date (year date) (month date) (day date) = true
  ∧ hour date = 0 ∧ minute date = 0 ∧ second date = 0.
Proof.
  unfold date_of_match.
  destruct (if (length (groups m) =? 3)%nat then _ else _) as [[[y mo] d]|];
    [|done].
  cbn [mbind option_bind].
  destruct (py_int y) as [yi|]; [|done]. destruct (py_int mo) as [mi|]; [|done].
  destruct (py_int d) as [di|]; [|done]. cbn [mbind option_bind].
  by intros (-> & ? & ?)%datetime_new_Some.
Qed.

Lemma date_from_patterns_valid (ps : list regex) (name : string)
    (date : datetime) :
  date_from_patterns ps name = Some date →
  valid_date (year date) (month date) (day date) = true
  ∧ hour date = 0 ∧ minute date = 0 ∧ second date = 0.
Proof.
  induction ps as [|pattern ps IH]; [done|]. cbn [date_from_patterns].
  destruct (re_search pattern name) as [m|]; [|done].
  destruct (date_of_match m) as [d|] eqn:Hd; [|done].
  intros [= <-]. by apply (date_of_match_valid m).
Qed.

Lemma date_from_tags_valid (tags : list string) (exif_data : gmap pykey pyval)
    (date : datetime) :
  date_from_tags tags exif_data = Some date →
  valid_date (year date) (month date) (day date) = true
  ∧ valid_time (hour date) (minute date) (second date) = true.
Proof.
  induction tags as [|tag tags IH]; [done|]. cbn [date_from_tags].
  destruct (exif_data !! KStr tag) as [v|]; [|done].
  destruct (py_str v) as [text|]; cbn [mbind option_bind]; [|done].
  destruct (strptime text) as [d|] eqn:Hd; [|done].
  intros [= <-]. by apply (strptime_valid text).
Qed.

(** X2: a date taken from the metadata is a calendar date with a time of
    day, and a date taken from the file name is a calendar date at
    midnight: a day that does not exist (month 13, February 30, year 0)
    is never returned.  So the date of a photo is such a date, or else
    the modification time. *)
Theorem resolved_dates_are_calendar_dates (E : Env) (image_path : Path)
    (exif_data : gmap pykey pyval) (date : datetime) :
  (get_date_from_exif exif_data = Some date →
   valid_date (year date) (month date) (day date) = true
   ∧ valid_time (hour date) (minute date) (second date) = true)
  ∧ (get_date_from_filename (path_name image_path) = Some date →
     valid_date (year date) (month date) (day date) = true
     ∧ hour date = 0 ∧ minute date = 0 ∧ second date = 0)
  ∧ (get_photo_date E image_path exif_data = Some date →
     valid_date (year date) (month date) (day date) = true
     ∧ valid_time (hour date) (minute date) (second date) = true
     ∨ st_mtime E image_path = Some date).
Proof.
  split; [apply date_from_tags_valid|].
  split; [apply date_from_patterns_valid|].
  unfold get_photo_date.
  destruct (get_date_from_exif exif_data) as [d|] eqn:Hexif.
  - intros [= <-]. left. by apply date_from_tags_valid in Hexif.
  - destruct (get_date_from_filename (path_name image_path)) as [d|] eqn:Hname;
      [|by right].
    intros [= <-]. left.
    apply date_from_patterns_valid in Hname as (-> & -> & -> & ->). done.
Qed.

Lemma resolved_dates_are_calendar_dates_witness :
  valid_date 2024 2 29 = true ∧ valid_time 23 59 59 = true.
Proof.
  apply (proj1 (resolved_dates_are_calendar_dates sample_env []
                  {[ KStr "DateTimeOriginal" := PStr sample_exif_text ]}
                  (DateTime 2024 2 29 23 59 59))).
  reflexivity.
Defined.

(** ** The modification time *)







(** ** The place name of an answer *)





(** ** Building the dictionaries *)

Lemma fold_insert_absent {A K V} `{Countable K} (key : A → K) (val : A → V)
    (l : list A) (m : gmap K V) (k : K) :
  (∀ x, x ∈ l → key x ≠ k) →
  fold_left (λ acc x, <[key x := val x]> acc) l m !! k = m !! k.
Proof.
  revert m. induction l as [|a l IH]; intros m Hl; [done|]. cbn.
  rewrite IH by (intros x Hx; apply Hl; by right).
  apply lookup_insert_ne, Hl. by left.
Qed.

Lemma fold_insert_last {A K V} `{Countable K} (key : A → K) (val : A → V)
    (l1 : list A) (a : A) (l2 : list A) (m : gmap K V) :
  (∀ x, x ∈ l2 → key x ≠ key a) →
  fold_left (λ acc x, <[key x := val x]> acc) (l1 ++ a :: l2) m !! key a
  = Some (val a).
Proof.
  intros Hl2. rewrite fold_left_app. cbn.
  rewrite fold_insert_absent by done. apply lookup_insert_eq.
Qed.



Lemma dict_item_NoDup (entries : list (pykey * pyval)) (k : pykey) (v : pyval) :
  NoDup entries.*1 → (k, v) ∈ entries → dict_item entries k = Some v.
Proof.
  unfold dict_item. induction entries as [|[k' v'] entries IH]; cbn.
  - by intros _ ?%elem_of_nil.
  - intros [Hnotin Hnodup]%NoDup_cons [[= -> ->]|Hin]%elem_of_cons.
    + by rewrite bool_decide_eq_true_2.
    + rewrite bool_decide_eq_false_2; [by apply IH|].
      intros ->. apply Hnotin. apply list_elem_of_fmap. by exists (k, v).
Qed.

Lemma fill_gps_data_fold (entries sub : list (pykey * pyval))
    (acc : gmap pykey pyval) :
  (∀ e, e ∈ sub → dict_item entries e.1 = Some e.2) →
  fill_gps_data entries sub.*1 acc
  = Some (fold_left (λ m e, <[gps_decode e.1 := e.2]> m) sub acc).
Proof.
  revert acc. induction sub as [|e sub IH]; intros acc Hsub; [done|].
  cbn. rewrite (Hsub e) by by left. cbn.
  apply IH. intros e' He'. apply Hsub. by right.
Qed.

(** X6: the position tags of a dictionary are found under their numbers,
    as PIL gives them, and under their names alike; a key the table does
    not know is kept as it is.  With two keys for one tag the one that
    comes last in the dictionary stays, and a tag no key stands for is
    absent. *)
Theorem gps_tags_decoded (entries : list (pykey * pyval)) :
  NoDup entries.*1 →
  ∃ gps_data,
    gps_data_of entries = Some gps_data
    ∧ (∀ before key value after,
         entries = before ++ (key, value) :: after →
         (∀ e, e ∈ after → gps_decode e.1 ≠ gps_decode key) →
         gps_data !! gps_decode key = Some value)
    ∧ (∀ tag, (∀ e, e ∈ entries → gps_decode e.1 ≠ tag) →
         gps_data !! tag = None)
    ∧ gps_decode (KInt 1) = KStr "GPSLatitudeRef"
    ∧ gps_decode (KInt 2) = KStr "GPSLatitude"
    ∧ gps_decode (KInt 3) = KStr "GPSLongitudeRef"
    ∧ gps_decode (KInt 4) = KStr "GPSLongitude"
    ∧ (∀ name, gps_decode (KStr name) = KStr name)
    ∧ (∀ n, n < 0 ∨ 31 < n → gps_decode (KInt n) = KInt n).
Proof.
  intros Hnodup. unfold gps_data_of.
  rewrite fill_gps_data_fold
    by (intros [k v] He; by apply dict_item_NoDup).
  eexists. split; [reflexivity|]. split; [|split].
  - intros before key value after -> Hafter.
    by apply (fold_insert_last (λ e, gps_decode e.1) snd
                before (key, value) after).
  - intros tag Hnone.
    by rewrite (fold_insert_absent (λ e, gps_decode e.1) snd).
  - repeat split; try reflexivity.
    intros n Hn. unfold gps_decode, GPSTAGS. cbn [List.find fst snd].
    repeat match goal with |- context [?a =? n] =>
      destruct (Z.eqb_spec a n); [lia|] end.
    reflexivity.
Qed.

Lemma gps_tags_decoded_witness :
  ∃ gps_data,
    gps_data_of [(KStr "GPSLatitude", PTuple [PInt 1; PInt 2; PInt 3]);
                 (KInt 2, PTuple [PInt 48; PInt 30; PInt 0])]
    = Some gps_data
    ∧ gps_data !! KStr "GPSLatitude" = Some (PTuple [PInt 48; PInt 30; PInt 0]).
Proof.
  destruct (gps_tags_decoded
              [(KStr "GPSLatitude", PTuple [PInt 1; PInt 2; PInt 3]);
               (KInt 2, PTuple [PInt 48; PInt 30; PInt 0])])
    as (gps_data & Hdata & Hlast & _).
  - apply NoDup_cons. split; [|apply NoDup_singleton].
    by intros [=]%list_elem_of_singleton.
  - exists gps_data. split; [exact Hdata|].
    apply (Hlast [(KStr "GPSLatitude", PTuple [PInt 1; PInt 2; PInt 3])]
             (KInt 2) _ [] eq_refl).
    by intros e ?%elem_of_nil.
Defined.

(** ** What a run moves, and how long it sleeps *)

Lemma requests_app (l1 l2 : list event) :
  requests (l1 ++ l2) = (requests l1 + requests l2)%nat.
Proof.
  induction l1 as [|e l1 IH]; [done|]. destruct e; cbn; by rewrite ?IH.
Qed.

Lemma move_sources_app (l1 l2 : list event) :
  move_sources (l1 ++ l2) = move_sources l1 ++ move_sources l2.
Proof.
  induction l1 as [|e l1 IH]; [done|]. destruct e; cbn; by rewrite ?IH.
Qed.

Lemma move_sources_elem (l : list event) (src dst : Path) :
  EvMove src dst ∈ l → src ∈ move_sources l.
Proof.
  induction l as [|e l IH]; [by intros ?%elem_of_nil|].
  intros [<-|Hin]%elem_of_cons; [by left|].
  destruct e; cbn; try by apply IH. right. by apply IH.
Qed.

Lemma resolve_events_counts (E : Env) (self : PhotoOrganizer) (p : Path)
    (l : list event) (date : datetime) :
  move_sources (resolve_events E self p l date) = []
  ∧ sleep_seconds (resolve_events E self p l date)
    = requests (resolve_events E self p l date)
  ∧ (requests (resolve_events E self p l date) ≤ 1)%nat.
Proof.
  unfold resolve_events, city_step, exif_msgs.
  destruct (image_getexif E p);
    (destruct (get_gps_coordinates E (exif_of E p)) as [[lat lon]|];
       [destruct (geolocator_reverse E _ lat lon) as [[]| |[]]|]);
    cbn; repeat split; lia.
Qed.

(** What one call moves, sends and keeps. *)
Lemma process_photo_effects (E : Env) (self : PhotoOrganizer) (p : Path)
    (w : World) :
  ∃ w' seg,
    process_photo E self p w = (Ok tt, w')
    ∧ log w' = log w ++ seg
    ∧ move_sources seg ⊆ [p]
    ∧ sleep_seconds seg = requests seg
    ∧ (requests seg ≤ 1)%nat
    ∧ (∀ q, q ∈ fs w → q ≠ p → q ∈ fs w').
Proof.
  destruct (process_photo_outcome E self p w) as (w' & Hrun & Hout).
  exists w'.
  assert (Hkeep : ∀ q, q ∈ fs w → q ≠ p → q ∈ fs w').
  { intros q Hq Hne.
    destruct Hout as [(_ & _ & dst & before & Hsub & _ & -> & _)
                     |(_ & _ & Hsub & _)]; [|by apply Hsub].
    apply elem_of_union_l, elem_of_difference.
    split; [by apply Hsub|]. by rewrite elem_of_singleton. }
  revert Hrun. rewrite process_photo_run. unfold process_photo_result.
  destruct (get_photo_date E p (exif_of E p)) as [date|].
  - destruct (resolve_events_counts E self p (log w) date) as (Hm & Hs & Hr).
    destruct (mkdir_ok E (fs w) _);
      [destruct (get_unique_filename _ _) as [dst|];
         [destruct (move_ok E _ p dst)|]|];
      intros [= <-]; cbn [log mk_world]; rewrite <- ?app_assoc;
      eexists; (split; [reflexivity|]); (split; [reflexivity|]);
      rewrite move_sources_app, sleep_seconds_app, requests_app, Hm, Hs;
      cbn [app move_sources sleep_seconds requests];
      repeat split; try done; try lia; apply list_subseteq_nil.
  - intros [= <-]. cbn [log mk_world]. unfold head_log, exif_msgs.
    rewrite <- app_assoc. eexists. split; [reflexivity|].
    split; [reflexivity|].
    destruct (image_getexif E p); cbn; repeat split; try done; try lia;
      apply list_subseteq_nil.
Qed.

Lemma process_all_effects (E : Env) (self : PhotoOrganizer)
    (photo_files : list Path) (w : World) :
  ∃ w' seg,
    process_all E self photo_files w = (Ok tt, w')
    ∧ log w' = log w ++ seg
    ∧ move_sources seg ⊆ photo_files
    ∧ sleep_seconds seg = requests seg
    ∧ (requests seg ≤ length photo_files)%nat
    ∧ (∀ q, q ∈ fs w → q ∉ photo_files → q ∈ fs w').
Proof.
  revert w. induction photo_files as [|p photo_files IH]; intros w.
  - exists w, []. cbn. rewrite app_nil_r. repeat split; try done; lia.
  - destruct (process_photo_effects E self p w)
      as (w1 & seg1 & Hrun & Hlog1 & Hm1 & Hs1 & Hr1 & Hkeep1).
    destruct (IH w1) as (w' & seg & Hall & Hlog & Hm & Hs & Hr & Hkeep).
    exists w', (seg1 ++ seg). cbn [process_all]. unfold bind at 1.
    rewrite Hrun, Hall. split; [done|].
    split; [by rewrite Hlog, Hlog1, app_assoc|].
    rewrite move_sources_app, sleep_seconds_app, requests_app. cbn [length].
    split; [|split; [lia|split; [lia|]]].
    + intros q [Hq|Hq]%elem_of_app.
      * apply Hm1 in Hq. apply list_elem_of_singleton in Hq as ->. by left.
      * right. by apply Hm.
    + intros q Hq Hnot. apply not_elem_of_cons in Hnot as [Hne Hnot].
      apply Hkeep; [|done]. by apply Hkeep1.
Qed.

Lemma organize_photos_effects (E : Env) (self : PhotoOrganizer) (w : World) :
  ∃ r w' seg,
    organize_photos E self w = (r, w')
    ∧ log w' = log w ++ seg
    ∧ move_sources seg ⊆ listed_photos E self (fs w)
    ∧ sleep_seconds seg = requests seg
    ∧ (requests seg ≤ attempted seg)%nat
    ∧ (∀ q, q ∈ fs w → q ∉ listed_photos E self (fs w) → q ∈ fs w').
Proof.
  unfold organize_photos, listed_photos.
  unfold bind at 1. unfold print at 1, emit at 1. cbn [fs log].
  unfold bind at 1. unfold get_world at 1. cbn [fs log].
  destruct (decide (source_dir self ∈ fs w)) as [Hsrc|Hsrc].
  - rewrite bool_decide_eq_true_2 by done. cbn [negb].
    unfold bind at 1, mkdir at 1, bind at 1, emit at 1. cbn [fs log].
    unfold bind at 1, get_world at 1. cbn [fs log].
    destruct (mkdir_ok E (fs w) (destination_dir self)).
    + unfold set_fs at 1. cbn [fs log processed_count error_count].
      unfold bind at 1, get_world at 1. cbn [fs log].
      destruct (iterdir E _ (source_dir self)) as [listing|].
      * unfold bind at 1, lift_option at 1, ret at 1.
        remember (List.filter _ listing) as photos eqn:Hphotos.
        destruct photos as [|p rest].
        -- cbn [length Nat.eqb]. unfold print, emit.
           cbn [fs log processed_count error_count].
           eexists _, _, _. split; [reflexivity|].
           cbn [log fs]. rewrite <- !app_assoc. split; [reflexivity|].
           cbn; repeat split; try done; try lia; try apply list_subseteq_nil;
             try (intros q Hq _; by apply elem_of_union_l).
        -- cbn [length Nat.eqb].
           unfold bind at 1, print at 1, emit at 1.
           cbn [fs log processed_count error_count].
           unfold bind at 1.
           match goal with |- context [process_all E self _ ?w0] =>
             destruct (process_all_effects E self (p :: rest) w0)
               as (w1 & seg & Hall & Hlog & Hm & Hs & Hr & Hkeep);
             destruct (process_all_run E self (p :: rest) w0)
               as (w1' & seg' & Hall' & _ & Hlog' & Ha & _)
           end.
           rewrite Hall in Hall'. injection Hall' as <-.
           rewrite Hlog in Hlog'. apply app_inv_head in Hlog' as <-.
           rewrite Hall.
           cbn [fs log processed_count error_count length] in *.
           unfold bind, get_world, print, emit.
           eexists _, _, _. split; [reflexivity|].
           cbn [log fs]. rewrite Hlog, <- !app_assoc.
           split; [reflexivity|].
           cbn [app move_sources sleep_seconds requests attempted].
           rewrite move_sources_app, sleep_seconds_app, requests_app,
             attempted_app.
           cbn [move_sources sleep_seconds requests attempted].
           rewrite app_nil_r.
           split; [done|]. split; [lia|]. split; [lia|].
           intros q Hq Hnot. apply Hkeep; [|done]. by apply elem_of_union_l.
      * unfold bind, lift_option, raise.
        eexists _, _, _. split; [reflexivity|].
        cbn [log fs]. rewrite <- !app_assoc. split; [reflexivity|].
        cbn; repeat split; try done; try lia; try apply list_subseteq_nil;
             try (intros q Hq _; by apply elem_of_union_l).
    + unfold raise. eexists _, _, _. split; [reflexivity|].
      cbn [log fs]. rewrite <- !app_assoc. split; [reflexivity|].
      cbn; repeat split; try done; try lia; try apply list_subseteq_nil;
             try (intros q Hq _; by apply elem_of_union_l).
  - rewrite bool_decide_eq_false_2 by done. cbn [negb].
    unfold print, emit. cbn [fs log processed_count error_count].
    eexists _, _, _. split; [reflexivity|].
    cbn [log fs]. rewrite <- !app_assoc. split; [reflexivity|].
    cbn; repeat split; try done; try lia; try apply list_subseteq_nil;
             try (intros q Hq _; by apply elem_of_union_l).
Qed.

Lemma listed_photos_are_photos (E : Env) (self : PhotoOrganizer)
    (files : gset Path) (f : Path) :
  f ∈ listed_photos E self files →
  lower (path_suffix f) ∈ photo_extensions ∧ path_suffix f ≠ "".
Proof.
  unfold listed_photos. destruct (iterdir E _ (source_dir self)) as [listing|];
    [|by intros ?%elem_of_nil].
  intros Hin%list_elem_of_In. apply filter_In in Hin as [_ Hphoto].
  unfold is_photo in Hphoto. apply andb_prop in Hphoto as [_ Hext].
  apply bool_decide_eq_true in Hext. split; [done|].
  intros Hempty. rewrite Hempty in Hext. cbn in Hext.
  unfold photo_extensions in Hext.
  repeat (apply elem_of_cons in Hext as [?|Hext]; [done|]).
  by apply elem_of_nil in Hext.
Qed.

(** X8: a run calls the move only on files it listed as photos of the
    source directory, and each of these has an extension that is, up to
    the case of its letters, one of the nine of the organizer; every
    other path that existed before the run exists after it. *)
Theorem run_moves_only_photos (E : Env) (self : PhotoOrganizer) (w : World)
    (r : result unit) (w' : World) :
  organize_photos E self w = (r, w') →
  ∃ seg, log w' = log w ++ seg
    ∧ (∀ src dst, EvMove src dst ∈ seg →
         src ∈ listed_photos E self (fs w)
         ∧ lower (path_suffix src) ∈ photo_extensions
         ∧ path_suffix src ≠ "")
    ∧ (∀ q, q ∈ fs w → q ∉ listed_photos E self (fs w) → q ∈ fs w').
Proof.
  intros Hrun.
  destruct (organize_photos_effects E self w)
    as (r0 & w0 & seg & Hrun0 & Hlog & Hmoves & _ & _ & Hkeep).
  rewrite Hrun in Hrun0. injection Hrun0 as <- <-.
  exists seg. split; [done|]. split; [|done].
  intros src dst Hin. apply move_sources_elem, Hmoves in Hin.
  split; [done|]. by apply (listed_photos_are_photos E self (fs w)).
Qed.

Lemma run_moves_only_photos_witness :
  let run := organize_photos sample_env_gps sample_organizer
               (init_world sample_source) in
  ["Source"] ∈ fs run.2.
Proof.
  intros run.
  destruct (run_moves_only_photos sample_env_gps sample_organizer
              (init_world sample_source) run.1 run.2 (surjective_pairing _))
    as (seg & _ & _ & Hkeep).
  apply Hkeep.
  - apply (bool_decide_unpack _). vm_compute. reflexivity.
  - apply (bool_decide_unpack _). vm_compute. reflexivity.
Defined.

(** X9: a run sleeps exactly one second for each request it sends to the
    geocoder, and sends at most one request for each file it attempts. *)
Theorem run_sleeps_one_second_per_request (E : Env) (self : PhotoOrganizer)
    (w : World) (r : result unit) (w' : World) :
  organize_photos E self w = (r, w') →
  ∃ seg, log w' = log w ++ seg
    ∧ sleep_seconds seg = requests seg
    ∧ (requests seg ≤ attempted seg)%nat.
Proof.
  intros Hrun.
  destruct (organize_photos_effects E self w)
    as (r0 & w0 & seg & Hrun0 & Hlog & _ & Hsleep & Hreq & _).
  rewrite Hrun in Hrun0. injection Hrun0 as <- <-. by exists seg.
Qed.

Lemma run_sleeps_one_second_per_request_witness :
  let run := organize_photos sample_env_gps sample_organizer
               (init_world sample_source) in
  sleep_seconds (log run.2) = 1%nat ∧ requests (log run.2) = 1%nat.
Proof.
  intros run.
  destruct (run_sleeps_one_second_per_request sample_env_gps sample_organizer
              (init_world sample_source) run.1 run.2 (surjective_pairing _))
    as (seg & Hlog & Hsleep & _).
  cbn [init_world log app] in Hlog. rewrite Hlog, Hsleep, <- Hlog.
  split; vm_compute; reflexivity.
Defined.

(** ** The directories of [main] *)

(** X10: the destination directory is the entry [Destination] of the
    directory that holds the source; it is the source directory itself
    exactly when the source directory is named [Destination]. *)
Theorem main_destination_beside_source (source_path : Path) :
  let self := main_organizer source_path in
  source_dir self = source_path
  ∧ destination_dir self = path_parent source_path ++ ["Destination"]
  ∧ path_name (destination_dir self) = "Destination"
  ∧ (destination_dir self = source_dir self
     ↔ path_name source_path = "Destination").
Proof.
  cbn zeta. unfold main_organizer. cbn [source_dir destination_dir].
  rewrite pjoin_single by reflexivity.
  assert (Hname : path_name (path_parent source_path ++ ["Destination"])
                  = "Destination").
  { unfold path_name.
    replace (is_root (path_parent source_path ++ ["Destination"])) with false
      by (by destruct (path_parent source_path) as [|? [|]]).
    by rewrite last_last. }
  split; [done|]. split; [done|]. split; [done|]. split.
  - intros <-. exact Hname.
  - intros Hsrc. unfold path_name, path_parent in *.
    destruct (is_root source_path); [done|].
    destruct source_path as [|x xs] using rev_ind; [done|].
    rewrite last_last in Hsrc. rewrite removelast_last. by rewrite Hsrc.
Qed.

(** ** The extension of a new name *)

Lemma rfind_dot_bounds (j : nat) (s : string) (x : nat) :
  rfind_dot j s = Some x → (j ≤ x ∧ x < j + String.length s)%nat.
Proof.
  revert j. induction s as [|c s IH]; intros j; [done|]. cbn.
  destruct (rfind_dot (S j) s) as [y|] eqn:Hy.
  - intros [= <-]. apply IH in Hy. lia.
  - destruct (is_char "." c); [|done]. intros [= <-]. lia.
Qed.

Lemma rfind_dot_shift (j : nat) (s : string) :
  rfind_dot j s = (λ x, (x + j)%nat) <$> rfind_dot 0 s.
Proof.
  revert j. induction s as [|c s IH]; intros j; [done|]. cbn.
  rewrite (IH (S j)), (IH 1%nat).
  destruct (rfind_dot 0 s) as [y|]; cbn; [f_equal; lia|].
  by destruct (is_char "." c).
Qed.

Lemma rfind_dot_app (j : nat) (a b : string) :
  rfind_dot j (a +:+ b) =
  match rfind_dot (j + String.length a) b with
  | Some x => Some x
  | None => rfind_dot j a
  end.
Proof.
  revert j. induction a as [|c a IH]; intros j.
  - change ("" +:+ b) with b. cbn. rewrite Nat.add_0_r.
    by destruct (rfind_dot j b).
  - rewrite app_cons. cbn. rewrite IH.
    replace (S j + String.length a)%nat with (j + S (String.length a))%nat
      by lia.
    by destruct (rfind_dot (j + S (String.length a)) b).
Qed.

Lemma rfind_dot_skip (j : nat) (s : string) (x : nat) :
  rfind_dot j s = Some x → rfind_dot x (skip (x - j) s) = Some x.
Proof.
  revert j. induction s as [|c s IH]; intros j; [done|]. cbn [rfind_dot].
  destruct (rfind_dot (S j) s) as [y|] eqn:Hy.
  - intros [= <-]. pose proof (rfind_dot_bounds _ _ _ Hy).
    replace (y - j)%nat with (S (y - S j)) by lia. cbn [skip]. by apply IH.
  - destruct (is_char "." c) eqn:Hc; [|done]. intros [= <-].
    rewrite Nat.sub_diag. cbn. by rewrite Hy, Hc.
Qed.

Lemma skip_length (n : nat) (s : string) :
  String.length (skip n s) = (String.length s - n)%nat.
Proof.
  revert s. induction n as [|n IH]; intros [|c s]; cbn; try done; try lia.
Qed.

Lemma skip_app_length (a b : string) : skip (String.length a) (a +:+ b) = b.
Proof. induction a as [|c a IH]; [done|]. rewrite app_cons. by cbn. Qed.

Lemma take_str_app_length (a b : string) :
  take_str (String.length a) (a +:+ b) = a.
Proof.
  induction a as [|c a IH]; [by destruct b|]. rewrite app_cons. cbn.
  by rewrite IH.
Qed.

Lemma str_app_assoc (a b c : string) : (a +:+ b) +:+ c = a +:+ (b +:+ c).
Proof. induction a as [|x a IH]; [done|]. rewrite !app_cons. by rewrite IH. Qed.

Lemma new_name_parts (p : Path) (k : nat) :
  path_suffix p ≠ "" →
  suffix_index (new_name p k)
  = Some (String.length (path_stem p +:+ "_" +:+ pretty k)).
Proof.
  unfold new_name, path_suffix, path_stem, suffix_index. cbv zeta.
  destruct (rfind_dot 0 (path_name p)) as [i|] eqn:Hi; [|done].
  destruct ((0 <? i)%nat && (i <? String.length (path_name p) - 1)%nat)
    eqn:Hrange; [|done].
  intros _. apply andb_prop in Hrange as [Hpos Hend].
  apply Nat.ltb_lt in Hpos, Hend.
  pose proof (rfind_dot_skip 0 _ _ Hi) as Hsuffix.
  rewrite Nat.sub_0_r, rfind_dot_shift in Hsuffix.
  destruct (rfind_dot 0 (skip i (path_name p))) as [z|] eqn:Hz; [|done].
  cbn in Hsuffix. assert (z = 0%nat) as -> by (injection Hsuffix; lia).
  set (A := take_str i (path_name p) +:+ "_" +:+ pretty k).
  assert (HA : take_str i (path_name p) +:+ "_" +:+ pretty k
                 +:+ skip i (path_name p)
               = A +:+ skip i (path_name p)).
  { unfold A. by rewrite !str_app_assoc. }
  rewrite HA, rfind_dot_app, (rfind_dot_shift (0 + String.length A)), Hz.
  cbn [fmap option_fmap option_map]. rewrite !Nat.add_0_l, str_length_app.
  rewrite skip_length.
  assert (0 < String.length A)%nat.
  { unfold A. rewrite !str_length_app. cbn. lia. }
  replace ((0 <? String.length A)%nat) with true
    by (symmetry; by apply Nat.ltb_lt).
  replace ((String.length A
            <? String.length A + (String.length (path_name p) - i) - 1)%nat)
    with true by (symmetry; apply Nat.ltb_lt; lia).
  done.
Qed.

Lemma candidate_parts (p : Path) (k : nat) :
  no_slash (path_name p) = true → path_suffix p ≠ "" →
  path_suffix (candidate p k) = path_suffix p
  ∧ path_stem (candidate p k) = path_stem p +:+ "_" +:+ pretty k
  ∧ path_parent (candidate p k) = path_parent p.
Proof.
  intros Hname Hsuffix. split; [|split].
  - unfold path_suffix at 1. cbv zeta.
    rewrite candidate_name, new_name_parts by done.
    unfold new_name. rewrite <- !str_app_assoc, skip_app_length.
    reflexivity.
  - unfold path_stem at 1. cbv zeta.
    rewrite candidate_name, new_name_parts by done.
    unfold new_name. rewrite <- !str_app_assoc, take_str_app_length.
    reflexivity.
  - rewrite candidate_eq by done. unfold path_parent at 1.
    replace (is_root (path_parent p ++ [new_name p k])) with false.
    + by rewrite removelast_last.
    + destruct (path_parent p) as [|x [|]]; [|done..]. cbn.
      by rewrite no_slash_ne_slash by by apply no_slash_new_name.
Qed.

(** X11: the name chosen for a photo whose name has an extension keeps
    the extension and the folder: the result is the path itself, or its
    stem followed by an underscore and a counter from 1, with the same
    suffix, in the same folder. *)
Theorem renamed_photo_keeps_extension (files : gset Path) (p r : Path) :
  no_slash (path_name p) = true →
  path_suffix p ≠ "" →
  get_unique_filename files p = Some r →
  path_suffix r = path_suffix p
  ∧ path_parent r = path_parent p
  ∧ (r = p
     ∨ ∃ k, (1 ≤ k)%nat
         ∧ path_stem r = path_stem p +:+ "_" +:+ pretty k
         ∧ path_name r = path_stem r +:+ path_suffix p).
Proof.
  intros Hname Hsuffix Hget.
  destruct (get_unique_filename_spec files p Hname)
    as (r' & Hr' & _ & Hfree & Hcoll).
  rewrite Hget in Hr'. injection Hr' as <-.
  destruct (decide (p ∈ files)) as [Hin|Hout].
  - destruct (Hcoll Hin) as (k & Hk & -> & _).
    destruct (candidate_parts p k Hname Hsuffix) as (Hs & Ht & Hp).
    split; [done|]. split; [done|]. right. exists k.
    split; [done|]. split; [done|].
    by rewrite <- Hs, stem_suffix.
  - rewrite (Hfree Hout). by repeat split; [..|left].
Qed.

Lemma renamed_photo_keeps_extension_witness :
  path_suffix ["Destination"; "2023-06-15 - Inconnu"; "photo_2.jpg"] = ".jpg"
  ∧ path_parent ["Destination"; "2023-06-15 - Inconnu"; "photo_2.jpg"]
    = ["Destination"; "2023-06-15 - Inconnu"].
Proof.
  destruct (renamed_photo_keeps_extension sample_files sample_photo
              ["Destination"; "2023-06-15 - Inconnu"; "photo_2.jpg"])
    as (Hs & Hp & _); [reflexivity|by vm_compute|by vm_compute|].
  split; [exact Hs|exact Hp].
Defined.

(** ** The name of the destination folder *)

Lemma all_digits_pretty_N_go (x : N) (s : string) :
  all_digits s = true → all_digits (pretty_N_go x s) = true.
Proof.
  revert s. induction (N.lt_wf_0 x) as [x _ IH]; intros s Hs.
  destruct (decide (x = 0)%N) as [->|Hx]; [by rewrite pretty_N_go_0|].
  rewrite pretty_N_go_step by lia. apply IH.
  - apply N.div_lt; lia.
  - cbn [all_digits]. rewrite Hs, andb_true_r.
    unfold pretty_N_char. by repeat case_match.
Qed.

Lemma all_digits_pretty_Z (z : Z) : 0 ≤ z → all_digits (pretty z) = true.
Proof.
  destruct z as [|x|x]; [done| |lia]. intros _.
  by apply all_digits_pretty_N_go.
Qed.

Lemma all_digits_pad2 (n : Z) : 0 ≤ n → all_digits (pad2 n) = true.
Proof.
  intros Hn. unfold pad2. destruct (n <? 10).
  - rewrite app_cons. change ("" +:+ pretty n) with (pretty n).
    cbn [all_digits]. by rewrite all_digits_pretty_Z.
  - by apply all_digits_pretty_Z.
Qed.

Lemma split_at_non_digit (c : ascii) (a a' b b' : string) :
  is_digit c = false → all_digits a = true → all_digits a' = true →
  a +:+ String c b = a' +:+ String c b' → a = a' ∧ b = b'.
Proof.
  intros Hc. revert a'. induction a as [|x a IH]; intros [|x' a'] Ha Ha' Heq.
  - change ("" +:+ ?s) with s in Heq. by injection Heq as ->.
  - change ("" +:+ ?s) with s in Heq. rewrite app_cons in Heq.
    injection Heq as <- _. cbn in Ha'. by rewrite Hc in Ha'.
  - change ("" +:+ ?s) with s in Heq. rewrite app_cons in Heq.
    injection Heq as -> _. cbn in Ha. by rewrite Hc in Ha.
  - rewrite !app_cons in Heq. injection Heq as -> Heq.
    cbn in Ha, Ha'. apply andb_prop in Ha as [_ Ha].
    apply andb_prop in Ha' as [_ Ha'].
    destruct (IH a' Ha Ha' Heq) as [-> ->]. done.
Qed.

Lemma pad2_read (n : Z) : 0 ≤ n ≤ 31 → py_int (pad2 n) = Some n.
Proof.
  intros Hn.
  assert (Hall : forallb (λ k, bool_decide (py_int (pad2 k) = Some k))
                   (seqZ 0 32) = true) by (by vm_compute).
  rewrite forallb_forall in Hall.
  eapply bool_decide_eq_true_1, Hall, list_elem_of_In, elem_of_seqZ. lia.
Qed.

Lemma valid_date_bounds (y m d : Z) :
  valid_date y m d = true → 1 ≤ y ∧ 1 ≤ m ≤ 12 ∧ 1 ≤ d ≤ 31.
Proof.
  unfold valid_date, days_in_month. intros H.
  repeat (apply andb_prop in H as [H ?]).
  repeat case_match; lia.
Qed.

Lemma folder_name_inj (d1 d2 : datetime) (city1 city2 : string) :
  valid_date (year d1) (month d1) (day d1) = true →
  valid_date (year d2) (month d2) (day d2) = true →
  strftime d1 +:+ " - " +:+ city1 = strftime d2 +:+ " - " +:+ city2 →
  year d1 = year d2 ∧ month d1 = month d2 ∧ day d1 = day d2
  ∧ city1 = city2.
Proof.
  intros (Hy1 & Hm1 & Hd1)%valid_date_bounds
         (Hy2 & Hm2 & Hd2)%valid_date_bounds.
  unfold strftime. rewrite !str_app_assoc.
  change ("-" +:+ ?s) with (String "-" s).
  change (" - " +:+ ?s) with (String " " ("- " +:+ s)).
  intros Heq.
  apply (split_at_non_digit "-") in Heq as [Hy Heq];
    [|done|apply all_digits_pretty_Z; lia..].
  apply (split_at_non_digit "-") in Heq as [Hm Heq];
    [|done|apply all_digits_pad2; lia..].
  apply (split_at_non_digit " ") in Heq as [Hd Heq];
    [|done|apply all_digits_pad2; lia..].
  split; [by apply (inj pretty)|].
  split.
  { apply (f_equal py_int) in Hm. rewrite !pad2_read in Hm by lia.
    by injection Hm. }
  split.
  { apply (f_equal py_int) in Hd. rewrite !pad2_read in Hd by lia.
    by injection Hd. }
  change ("- " +:+ ?s) with (String "-" (String " " s)) in Heq.
  by injection Heq.
Qed.

Lemma destination_folder_single (E : Env) (self : PhotoOrganizer) (p : Path)
    (l : list event) (date : datetime) :
  no_slash (city_step E p l date).1 = true →
  destination_folder E self p l date
  = destination_dir self
      ++ [strftime date +:+ " - " +:+ (city_step E p l date).1].
Proof.
  intros Hcity. unfold destination_folder. apply pjoin_single.
  - by rewrite !no_slash_app, no_slash_strftime, Hcity.
  - by apply (keep_part_mid (strftime date) " "
                ("- " +:+ (city_step E p l date).1)).
Qed.

Lemma process_photo_mkdir (E : Env) (self : PhotoOrganizer) (p : Path)
    (w : World) (date : datetime) :
  get_photo_date E p (exif_of E p) = Some date →
  EvMkdir (destination_folder E self p (log w) date)
    ∈ log (process_photo E self p w).2
  ∧ EvPrint (MsgCity (city_step E p (log w) date).1)
    ∈ log (process_photo E self p w).2.
Proof.
  intros Hdate. rewrite process_photo_run. unfold process_photo_result.
  rewrite Hdate. cbn zeta.
  destruct (resolve_events_city E self p (log w) date) as [Hcity Hmkdir].
  destruct (mkdir_ok E (fs w) _);
    [destruct (get_unique_filename _ _) as [dst|];
       [destruct (move_ok E _ p dst)|]|];
    cbn [snd log mk_world]; rewrite ?elem_of_app; auto.
Qed.

(** X12: a call for a file with a date asks for the folder
    [date - city] of the destination directory, [city] being the place
    name it printed.  For two such calls with calendar dates and place
    names without a slash, the two folders are the same exactly when the
    dates agree on year, month and day and the place names are the same
    text.  (A slash in a place name is read as a path separator, and the
    folder is then another one.) *)
Theorem same_folder_same_day_and_city (E : Env) (self : PhotoOrganizer)
    (p1 p2 : Path) (w1 w2 : World) (d1 d2 : datetime) :
  let city1 := (city_step E p1 (log w1) d1).1 in
  let city2 := (city_step E p2 (log w2) d2).1 in
  let folder1 := destination_folder E self p1 (log w1) d1 in
  let folder2 := destination_folder E self p2 (log w2) d2 in
  get_photo_date E p1 (exif_of E p1) = Some d1 →
  get_photo_date E p2 (exif_of E p2) = Some d2 →
  valid_date (year d1) (month d1) (day d1) = true →
  valid_date (year d2) (month d2) (day d2) = true →
  no_slash city1 = true → no_slash city2 = true →
  EvPrint (MsgCity city1) ∈ log (process_photo E self p1 w1).2
  ∧ EvMkdir folder1 ∈ log (process_photo E self p1 w1).2
  ∧ EvPrint (MsgCity city2) ∈ log (process_photo E self p2 w2).2
  ∧ EvMkdir folder2 ∈ log (process_photo E self p2 w2).2
  ∧ folder1 = destination_dir self ++ [strftime d1 +:+ " - " +:+ city1]
  ∧ (folder1 = folder2
     ↔ year d1 = year d2 ∧ month d1 = month d2 ∧ day d1 = day d2
       ∧ city1 = city2).
Proof.
  intros city1 city2 folder1 folder2 Hd1 Hd2 Hv1 Hv2 Hc1 Hc2.
  destruct (process_photo_mkdir E self p1 w1 d1 Hd1) as [Hm1 Hp1].
  destruct (process_photo_mkdir E self p2 w2 d2 Hd2) as [Hm2 Hp2].
  split; [done|]. split; [done|]. split; [done|]. split; [done|].
  unfold folder1, folder2.
  rewrite (destination_folder_single E self p1 (log w1) d1 Hc1).
  rewrite (destination_folder_single E self p2 (log w2) d2 Hc2).
  split; [done|]. fold city1 city2. split.
  - intros Heq. apply app_inj_tail in Heq as [_ Heq].
    by apply folder_name_inj.
  - intros (Hy & Hm & Hd & ->). unfold strftime. by rewrite Hy, Hm, Hd.
Qed.

Lemma same_folder_same_day_and_city_witness :
  let photo1 := ["Source"; "IMG_20230615.jpg"] in
  let photo2 := ["Source"; "2023-06-15 (2).jpg"] in
  destination_folder sample_env sample_organizer photo1 []
    (DateTime 2023 6 15 0 0 0)
  = destination_folder sample_env sample_organizer photo2 []
      (DateTime 2023 6 15 0 0 0)
  ∧ EvMkdir ["Destination"; "2023-06-15 - Inconnu"]
    ∈ log (process_photo sample_env sample_organizer photo1
             (init_world sample_source)).2.
Proof.
  intros photo1 photo2.
  destruct (same_folder_same_day_and_city sample_env sample_organizer
              photo1 photo2 (init_world sample_source)
              (init_world sample_source)
              (DateTime 2023 6 15 0 0 0) (DateTime 2023 6 15 0 0 0))
    as (_ & Hmkdir & _ & _ & _ & Hsame);
    [reflexivity | reflexivity | reflexivity | reflexivity
    | reflexivity | reflexivity |].
  split; [|exact Hmkdir]. apply Hsame. by repeat split.
Defined.

(** ** The ways a run on an existing source ends *)

Lemma organize_photos_cases (E : Env) (self : PhotoOrganizer) (w : World) :
  source_dir self ∈ fs w →
  ∃ r w',
    organize_photos E self w = (r, w')
    ∧ if mkdir_ok E (fs w) (destination_dir self) then
        match iterdir E (with_destination self (fs w)) (source_dir self) with
        | None =>
            r = Raise OSError
            ∧ w' = mk_world (with_destination self (fs w))
                     (log w ++ run_start self)
                     (processed_count w) (error_count w)
        | Some _ =>
            match listed_photos E self (fs w) with
            | [] =>
                r = Ok tt
                ∧ w' = mk_world (with_destination self (fs w))
                         (log w ++ run_start self
                            ++ [EvPrint (MsgNoPhoto (source_dir self))])
                         (processed_count w) (error_count w)
            | photo :: rest =>
                r = Ok tt
                ∧ ∃ seg,
                    log w' = log w ++ run_start self
                      ++ EvPrint (MsgFound (S (length rest))) :: seg
                      ++ [EvPrint (MsgSummary (processed_count w')
                                     (error_count w'))]
                    ∧ attempted seg = S (length rest)
                    ∧ (processed_count w' + error_count w'
                       = processed_count w + error_count w
                         + S (length rest))%nat
            end
        end
      else
        r = Raise OSError
        ∧ w' = mk_world (fs w) (log w ++ run_start self)
                 (processed_count w) (error_count w).
Proof.
  intros Hsrc.
  unfold organize_photos, listed_photos, with_destination, run_start, mk_world.
  unfold bind at 1. unfold print at 1, emit at 1. cbn [fs log].
  unfold bind at 1. unfold get_world at 1. cbn [fs log].
  rewrite bool_decide_eq_true_2 by done. cbn [negb].
  unfold bind at 1, mkdir at 1, bind at 1, emit at 1. cbn [fs log].
  unfold bind at 1, get_world at 1. cbn [fs log].
  destruct (mkdir_ok E (fs w) (destination_dir self)).
  - unfold set_fs at 1. cbn [fs log processed_count error_count].
    unfold bind at 1, get_world at 1. cbn [fs log].
    destruct (iterdir E _ (source_dir self)) as [listing|].
    + unfold bind at 1, lift_option at 1, ret at 1.
      remember (List.filter _ listing) as photos eqn:Hphotos.
      destruct photos as [|p rest].
      * cbn [length Nat.eqb]. unfold print, emit.
        cbn [fs log processed_count error_count].
        eexists _, _. split; [reflexivity|]. by rewrite <- !app_assoc.
      * cbn [length Nat.eqb].
        unfold bind at 1, print at 1, emit at 1.
        cbn [fs log processed_count error_count].
        unfold bind at 1.
        match goal with |- context [process_all E self _ ?w0] =>
          destruct (process_all_run E self (p :: rest) w0)
            as (w1 & seg & -> & Hcount & Hlog & Ha & Ht)
        end.
        cbn [fs log processed_count error_count length] in *.
        unfold bind, get_world, print, emit.
        eexists _, _. split; [reflexivity|]. split; [done|]. exists seg.
        cbn [log processed_count error_count]. rewrite Hlog, <- !app_assoc.
        split; [reflexivity|]. split; [done|lia].
    + unfold bind, lift_option, raise.
      eexists _, _. split; [reflexivity|]. by rewrite <- !app_assoc.
  - unfold raise.
    eexists _, _. split; [reflexivity|]. by rewrite <- !app_assoc.
Qed.

(** X13: an error of the system while the destination directory is
    created or the source directory is listed is not caught: the run ends
    with it, after the start message and the attempt to create the
    destination; no file is attempted, no summary is printed, and the
    counters are as before. *)
Theorem run_setup_errors_escape (E : Env) (self : PhotoOrganizer) (w : World) :
  source_dir self ∈ fs w →
  mkdir_ok E (fs w) (destination_dir self) = false
  ∨ iterdir E (with_destination self (fs w)) (source_dir self) = None →
  ∃ w', organize_photos E self w = (Raise OSError, w')
    ∧ log w' = log w ++ run_start self
    ∧ attempted (log w') = attempted (log w)
    ∧ fs w ⊆ fs w'
    ∧ processed_count w' = processed_count w
    ∧ error_count w' = error_count w.
Proof.
  intros Hsrc Hcase.
  destruct (organize_photos_cases E self w Hsrc) as (r & w' & Hrun & Hr).
  assert (Hquiet : attempted (log w ++ run_start self) = attempted (log w)).
  { rewrite attempted_app. cbn. lia. }
  destruct (mkdir_ok E (fs w) (destination_dir self)) eqn:Hmk.
  - destruct Hcase as [?|Hlist]; [done|]. rewrite Hlist in Hr.
    destruct Hr as [-> ->]. eexists. split; [exact Hrun|].
    cbn [mk_world log fs processed_count error_count].
    repeat split; try done.
    intros q Hq. unfold with_destination. by apply elem_of_union_l.
  - destruct Hr as [-> ->]. eexists. split; [exact Hrun|]. by cbn.
Qed.

Lemma run_setup_errors_escape_witness :
  ∃ w', organize_photos sample_env_readonly sample_organizer
          (init_world sample_source) = (Raise OSError, w')
    ∧ attempted (log w') = 0%nat
    ∧ processed_count w' = 0%nat ∧ error_count w' = 0%nat.
Proof.
  destruct (run_setup_errors_escape sample_env_readonly sample_organizer
              (init_world sample_source))
    as (w' & Hrun & _ & Ha & _ & Hp & He).
  - apply (bool_decide_unpack _). by vm_compute.
  - left. reflexivity.
  - exists w'. by repeat split.
Defined.

(** X14: when the source directory holds no photo, the destination
    directory is created all the same, with the directories above it;
    the run prints that no photo was found and returns: nothing else
    changes, no file is attempted and no summary is printed. *)
Theorem run_without_photos (E : Env) (self : PhotoOrganizer) (w : World)
    (listing : list Path) :
  source_dir self ∈ fs w →
  mkdir_ok E (fs w) (destination_dir self) = true →
  iterdir E (with_destination self (fs w)) (source_dir self) = Some listing →
  (∀ f, f ∈ listing → is_photo E (with_destination self (fs w)) f = false) →
  ∃ w', organize_photos E self w = (Ok tt, w')
    ∧ log w' = log w ++ run_start self
                 ++ [EvPrint (MsgNoPhoto (source_dir self))]
    ∧ (∀ q, q ∈ fs w' ↔ q ∈ fs w ∨ q ∈ ancestors (destination_dir self))
    ∧ (destination_dir self ≠ [] → destination_dir self ∈ fs w')
    ∧ processed_count w' = processed_count w
    ∧ error_count w' = error_count w.
Proof.
  intros Hsrc Hmk Hlist Hnone.
  destruct (organize_photos_cases E self w Hsrc) as (r & w' & Hrun & Hr).
  rewrite Hmk, Hlist in Hr.
  assert (Hphotos : listed_photos E self (fs w) = []).
  { unfold listed_photos. cbv zeta. fold (with_destination self (fs w)).
    rewrite Hlist. clear Hlist. induction listing as [|f rest IH]; [done|].
    cbn [List.filter]. rewrite Hnone by left.
    apply IH. intros g Hg. apply Hnone. by right. }
  rewrite Hphotos in Hr. destruct Hr as [-> ->].
  eexists. split; [exact Hrun|].
  cbn [mk_world log fs processed_count error_count].
  split; [done|].
  assert (Hfs : ∀ q, q ∈ with_destination self (fs w)
                     ↔ q ∈ fs w ∨ q ∈ ancestors (destination_dir self)).
  { intros q. unfold with_destination.
    by rewrite elem_of_union, elem_of_list_to_set. }
  split; [done|]. split; [|done].
  intros Hne. apply Hfs. right. unfold ancestors.
  apply list_elem_of_fmap.
  exists (pred (length (destination_dir self))). split.
  - destruct (destination_dir self) as [|x xs]; [done|]. cbn [length pred].
    change (S (length xs)) with (length (x :: xs)). by rewrite firstn_all.
  - apply elem_of_seq. destruct (destination_dir self); [done|]. cbn. lia.
Qed.

Lemma run_without_photos_witness :
  ∃ w', organize_photos sample_env sample_organizer (init_world sample_source)
        = (Ok tt, w')
    ∧ ["Destination"] ∈ fs w'
    ∧ processed_count w' = 0%nat ∧ error_count w' = 0%nat.
Proof.
  destruct (run_without_photos sample_env sample_organizer
              (init_world sample_source) [])
    as (w' & Hrun & _ & _ & Hdest & Hp & He).
  - apply (bool_decide_unpack _). by vm_compute.
  - reflexivity.
  - reflexivity.
  - intros f Hf. by apply elem_of_nil in Hf.
  - exists w'. split; [exact Hrun|]. split; [by apply Hdest|]. by split.
Defined.

(** ** A date at the first digits of a name *)

Lemma app_empty_l (s : string) : "" +:+ s = s.
Proof. reflexivity. Qed.

Lemma date_text_app c1 c2 c3 c4 c5 c6 c7 c8 o1 o2 rest :
  date_text c1 c2 c3 c4 c5 c6 c7 c8 o1 o2 +:+ rest =
  String c1 (String c2 (String c3 (String c4
    (opt_text o1 +:+ String c5 (String c6
      (opt_text o2 +:+ String c7 (String c8 rest))))))).
Proof. by destruct o1, o2. Qed.

Lemma date_of_date_text c1 c2 c3 c4 c5 c6 c7 c8 o1 o2 rest :
  all_digits (run8 c1 c2 c3 c4 c5 c6 c7 c8) = true →
  is_sep o1 = true → is_sep o2 = true →
  re_match pattern_ymd (date_text c1 c2 c3 c4 c5 c6 c7 c8 o1 o2 +:+ rest)
    ≫= date_of_match
  = datetime_new (number [c1; c2; c3; c4]) (number [c5; c6]) (number [c7; c8])
      0 0 0.
Proof.
  intros Hall Ho1 Ho2. pose proof Hall as Hall'.
  cbn [all_digits run8] in Hall'. rewrite !andb_true_iff in Hall'.
  destruct Hall' as (H1 & H2 & H3 & H4 & H5 & H6 & H7 & H8 & _).
  assert (Hy : py_int (String c1 (String c2 (String c3 (String c4 ""))))
               = Some (number [c1; c2; c3; c4])).
  { apply (py_int_number [c1; c2; c3; c4]); [done|].
    cbn. by rewrite H1, H2, H3, H4. }
  assert (Hm : py_int (String c5 (String c6 "")) = Some (number [c5; c6])).
  { apply (py_int_number [c5; c6]); [done|]. cbn. by rewrite H5, H6. }
  assert (Hd : py_int (String c7 (String c8 "")) = Some (number [c7; c8])).
  { apply (py_int_number [c7; c8]); [done|]. cbn. by rewrite H7, H8. }
  rewrite date_text_app. unfold re_match, pattern_ymd, digit, sep.
  destruct o1 as [s1|], o2 as [s2|]; cbn [is_sep opt_text] in *;
    rewrite ?app_cons, ?app_empty_l;
    cbn [rseq rmatch rrep app];
    rewrite H1, H2, H3, H4, ?Ho1, ?(digit_not_sep c5 H5), H5, H6, ?Ho2,
      ?(digit_not_sep c7 H7), H7, H8;
    cbn [mbind option_bind]; unfold date_of_match, groups;
    cbn [spans matched_from fmap list_fmap length Nat.eqb lookup list_lookup
         slice take_str skip fst snd Nat.sub mbind option_bind];
    rewrite Hy; cbn [mbind option_bind]; rewrite Hm; cbn [mbind option_bind];
    rewrite Hd; reflexivity.
Qed.

(** X16: when the first digit of a file name starts a year, a month and a
    day of four, two and two digits, each pair optionally preceded by one
    [-] or [_], and they are a calendar date, the parser gives that date
    at midnight, whatever follows; without date metadata it is the date
    of the photo. *)
Theorem filename_date_at_first_digits (E : Env) (image_path : Path)
    (exif_data : gmap pykey pyval) (pre rest : string)
    (c1 c2 c3 c4 c5 c6 c7 c8 : ascii) (o1 o2 : option ascii) :
  let date := DateTime (number [c1; c2; c3; c4]) (number [c5; c6])
                (number [c7; c8]) 0 0 0 in
  no_digit pre = true →
  all_digits (run8 c1 c2 c3 c4 c5 c6 c7 c8) = true →
  is_sep o1 = true → is_sep o2 = true →
  valid_date (year date) (month date) (day date) = true →
  get_date_from_filename
    (pre +:+ date_text c1 c2 c3 c4 c5 c6 c7 c8 o1 o2 +:+ rest) = Some date
  ∧ (path_name image_path
       = pre +:+ date_text c1 c2 c3 c4 c5 c6 c7 c8 o1 o2 +:+ rest →
     no_date_tag exif_data →
     get_photo_date E image_path exif_data = Some date).
Proof.
  intros date Hpre Hall Ho1 Ho2 Hvalid.
  assert (Hname : get_date_from_filename
            (pre +:+ date_text c1 c2 c3 c4 c5 c6 c7 c8 o1 o2 +:+ rest)
          = Some date).
  { rewrite get_date_from_filename_unfold.
    rewrite re_search_skip
      by (apply no_digit_no_match; [apply pattern_ymd_needs_digit|done]).
    pose proof (date_of_date_text c1 c2 c3 c4 c5 c6 c7 c8 o1 o2 rest
                  Hall Ho1 Ho2) as Hdate.
    destruct (re_match pattern_ymd
                (date_text c1 c2 c3 c4 c5 c6 c7 c8 o1 o2 +:+ rest))
      as [m|] eqn:Hm.
    - rewrite (re_search_found _ _ _ Hm). cbn [mbind option_bind] in *.
      rewrite Hdate. unfold datetime_new.
      cbn [year month day date] in Hvalid. by rewrite Hvalid.
    - cbn [mbind option_bind] in Hdate. unfold datetime_new in Hdate.
      cbn [year month day date] in Hvalid. by rewrite Hvalid in Hdate. }
  split; [done|]. intros Hpath Htags.
  apply get_photo_date_no_tag; [done|]. by rewrite Hpath.
Qed.

Lemma filename_date_at_first_digits_witness :
  get_date_from_filename "IMG_2024-02_29 (1).jpg"
  = Some (DateTime 2024 2 29 0 0 0).
Proof.
  pose (zero := "0"%char). pose (two := "2"%char). pose (four := "4"%char).
  pose (nine := "9"%char). pose (dash := "-"%char). pose (under := "_"%char).
  apply (filename_date_at_first_digits sample_env [] ∅ "IMG_" " (1).jpg"
           two zero two four zero two two nine (Some dash) (Some under));
    reflexivity.
Defined.

(** ** A console that can fail *)
























(** *** A console that takes every message *)









(** C4, as stated, fails when [print] raises: a call that ends raising, in neither state; a call
    that moves the file and counts an error; a run whose counters do not
    add up to the files it attempted. *)
Lemma terminal_states_counterexample :
  (let call := Console.process_photo console_no_name sample_env_gps
                 sample_organizer sample_source_photo
                 (init_world sample_source) in
   call.1 = Raise OtherError
   ∧ fs call.2 = sample_source
   ∧ processed_count call.2 = 0%nat ∧ error_count call.2 = 0%nat)
  ∧ (let call := Console.process_photo console_no_moved sample_env_gps
                   sample_organizer sample_source_photo
                 (init_world sample_source) in
     call.1 = Ok tt
     ∧ (sample_source_photo ∉ fs call.2)
     ∧ ["Destination"; "2023-06-15 - Inconnu"; "IMG_20230615.jpg"]
         ∈ (fs call.2)
     ∧ processed_count call.2 = 0%nat ∧ error_count call.2 = 1%nat)
  ∧ (let run := Console.organize_photos console_no_result sample_env_gps
                  sample_organizer (init_world sample_source) in
     run.1 = Raise OtherError
     ∧ (sample_source_photo ∉ fs run.2)
     ∧ attempted (log run.2) = 1%nat
     ∧ (processed_count run.2 + error_count run.2)%nat = 0%nat).
Proof.
  split; [|split].
  - cbv zeta. split; [by vm_compute|]. split; [|by vm_compute].
    apply (bool_decide_unpack _). by vm_compute.
  - cbv zeta. split; [by vm_compute|].
    split; [apply (bool_decide_unpack _); by vm_compute|].
    split; [apply (bool_decide_unpack _); by vm_compute|].
    by vm_compute.
  - cbv zeta. split; [by vm_compute|].
    split; [apply (bool_decide_unpack _); by vm_compute|].
    by vm_compute.
Qed.


